(** * Planner: the plan store of [src/database.ts]

    A shallow embedding of [PlannerDatabase]: the two SQLite tables as lists
    of rows in rowid order, every SQL statement of the class as a function on
    them, and the async methods as computations in a state-and-error monad
    over the connection.  The connection keeps its pending transaction, so
    [BEGIN], [COMMIT] and [ROLLBACK] are modelled as what they do to it.
    Calls are served one at a time: a method runs from its first statement to
    its last before the next one starts.

    After the store come [formatDate] and [getDaySuffix] of the utilities and
    what the tool handlers compute from the store: the paging of
    [handleListPlans], the text of [handleGetActiveStep] and the status lines
    of [handleExportPlan]. *)

From Stdlib Require Import String List ZArith Lia Bool Sorted Permutation.
From Stdlib Require DecimalString.
Import ListNotations.
Open Scope string_scope.
Open Scope Z_scope.
Open Scope list_scope.

(* ------------------------------------------------------------------ *)
(** ** Rows *)

(** [status TEXT CHECK(status IN ('in_progress', 'completed', 'failed'))]. *)
Inductive StepStatus : Type := in_progress | completed | failed.

Definition status_eqb (a b : StepStatus) : bool :=
  match a, b with
  | in_progress, in_progress | completed, completed | failed, failed => true
  | _, _ => false
  end.

(** A row of table [plans] ([PlanRow]).  The [Plan] interface also declares a
    [completion_context], for which the table has no column. *)
Module Plan.
Record t : Type := mk {
  id : string;
  name : string;
  description : string;
  created_at : string;
  active_step_id : option string
}.
End Plan.

(** A row of table [steps] ([StepRow]).  [step_order] is an SQLite INTEGER. *)
Module Step.
Record t : Type := mk {
  id : string;
  plan_id : string;
  description : string;
  completion_condition : string;
  status : StepStatus;
  step_order : Z;
  completion_context : option string;
  created_at : string
}.
End Step.

(** The database file: both tables, rows in insertion (rowid) order. *)
Record DB : Type := mkDB {
  plans : list Plan.t;
  steps : list Step.t
}.

(** The connection [this.db]: the current content, and the content saved by a
    [BEGIN TRANSACTION] that is still open. *)
Record Conn : Type := mkConn {
  db : DB;
  txn : option DB
}.

(** [initializeDatabase] on a new file: two empty tables, autocommit mode.
    It declares [FOREIGN KEY(plan_id) REFERENCES plans(id)] but issues no
    [PRAGMA foreign_keys = ON], and SQLite checks foreign keys only on a
    connection that has turned the pragma on; nothing below checks it. *)
Definition initializeDatabase : Conn := mkConn (mkDB [] []) None.

(* ------------------------------------------------------------------ *)
(** ** Errors and the monad of the async methods *)

(** What a promise rejects with: an error of the driver, by its code, or a
    [new Error(message)] of the class itself. *)
Inductive Error : Type :=
| SqliteError (code : string)
| JsError (message : string).

Inductive Result (A : Type) : Type :=
| Ok (a : A)
| Err (e : Error).
Arguments Ok {A} a.
Arguments Err {A} e.

(** A method runs on the connection and resolves or rejects; what it wrote
    before rejecting stays written until someone rolls back. *)
Definition M (A : Type) : Type := Conn -> Result A * Conn.

Definition ret {A} (a : A) : M A := fun c => (Ok a, c).
Definition throw {A} (e : Error) : M A := fun c => (Err e, c).
Definition bind {A B} (m : M A) (k : A -> M B) : M B :=
  fun c => match m c with
           | (Ok a, c') => k a c'
           | (Err e, c') => (Err e, c')
           end.
(** [try { body } catch (error) { handler }]. *)
Definition try_catch {A} (body : M A) (handler : Error -> M A) : M A :=
  fun c => match body c with
           | (Ok a, c') => (Ok a, c')
           | (Err e, c') => handler e c'
           end.

Declare Scope planner_scope.
Delimit Scope planner_scope with planner.
Notation "x <- m ;; k" := (bind m (fun x => k))
  (at level 61, m at next level, right associativity) : planner_scope.
Notation "m ;; k" := (bind m (fun _ => k))
  (at level 61, right associativity) : planner_scope.
Open Scope planner_scope.

(** Statements that only read, and statements that rewrite the tables. *)
Definition query {A} (f : DB -> A) : M A := fun c => (Ok (f (db c)), c).
Definition exec (f : DB -> DB) : M unit :=
  fun c => (Ok tt, mkConn (f (db c)) (txn c)).

(** JavaScript's [x || null] on a [string | null]: the empty string is falsy. *)
Definition or_null (x : option string) : option string :=
  match x with
  | Some "" => None
  | _ => x
  end.

(* ------------------------------------------------------------------ *)
(** ** The SQL of the class *)

Definition find_plan (planId : string) (d : DB) : option Plan.t :=
  find (fun p => Plan.id p =? planId)%string (plans d).

(** [SELECT * FROM steps WHERE id = ?]. *)
Definition find_step (stepId : string) (d : DB) : option Step.t :=
  find (fun s => Step.id s =? stepId)%string (steps d).

(** [... FROM steps WHERE plan_id = ?]. *)
Definition steps_of (planId : string) (l : list Step.t) : list Step.t :=
  filter (fun s => Step.plan_id s =? planId)%string l.

(** SQL [MAX] over a column: NULL on no rows. *)
Fixpoint sql_max (l : list Z) : option Z :=
  match l with
  | [] => None
  | x :: r => match sql_max r with
              | None => Some x
              | Some m => Some (Z.max x m)
              end
  end.

Definition coalesce (x : option Z) (d : Z) : Z :=
  match x with Some v => v | None => d end.

(** [SELECT COALESCE(MAX(step_order), 0) + 1 FROM steps WHERE plan_id = ?]. *)
Definition next_order (planId : string) (l : list Step.t) : Z :=
  coalesce (sql_max (map Step.step_order (steps_of planId l))) 0 + 1.

(** [ORDER BY step_order ASC LIMIT 1]: a row of least [step_order], the one
    of lowest rowid among equals. *)
Fixpoint first_by_order (l : list Step.t) : option Step.t :=
  match l with
  | [] => None
  | s :: r => match first_by_order r with
              | None => Some s
              | Some m => if Step.step_order s <=? Step.step_order m
                          then Some s else Some m
              end
  end.

(** [UPDATE plans SET active_step_id = ? WHERE id = ?]. *)
Definition update_active (planId : string) (v : option string) (d : DB) : DB :=
  mkDB (map (fun p => if (Plan.id p =? planId)%string
                      then Plan.mk (Plan.id p) (Plan.name p) (Plan.description p)
                                   (Plan.created_at p) v
                      else p) (plans d))
       (steps d).

Definition set_status (st : StepStatus) (s : Step.t) : Step.t :=
  Step.mk (Step.id s) (Step.plan_id s) (Step.description s)
          (Step.completion_condition s) st (Step.step_order s)
          (Step.completion_context s) (Step.created_at s).

Definition set_completed (ctx : string) (s : Step.t) : Step.t :=
  Step.mk (Step.id s) (Step.plan_id s) (Step.description s)
          (Step.completion_condition s) completed (Step.step_order s)
          (Some ctx) (Step.created_at s).

(** [UPDATE steps SET status = "completed", completion_context = ? WHERE id = ?]. *)
Definition update_completed (stepId ctx : string) (d : DB) : DB :=
  mkDB (plans d)
       (map (fun s => if (Step.id s =? stepId)%string then set_completed ctx s else s)
            (steps d)).

(** [UPDATE steps SET status = "failed" WHERE id = ?]. *)
Definition update_failed (stepId : string) (d : DB) : DB :=
  mkDB (plans d)
       (map (fun s => if (Step.id s =? stepId)%string then set_status failed s else s)
            (steps d)).

Definition bump_order (s : Step.t) : Step.t :=
  Step.mk (Step.id s) (Step.plan_id s) (Step.description s)
          (Step.completion_condition s) (Step.status s) (Step.step_order s + 1)
          (Step.completion_context s) (Step.created_at s).

(** [UPDATE steps SET step_order = step_order + 1
     WHERE plan_id = ? AND step_order > ?]. *)
Definition update_shift (planId : string) (order : Z) (d : DB) : DB :=
  mkDB (plans d)
       (map (fun s => if ((Step.plan_id s =? planId)%string && (order <? Step.step_order s))%bool
                      then bump_order s else s)
            (steps d)).

(* ------------------------------------------------------------------ *)
(** ** The private methods *)

(** [BEGIN TRANSACTION]: refused inside a transaction. *)
Definition beginTransaction : M unit :=
  fun c => match txn c with
           | None => (Ok tt, mkConn (db c) (Some (db c)))
           | Some _ => (Err (SqliteError "SQLITE_ERROR"), c)
           end.

(** [COMMIT]: refused when no transaction is open. *)
Definition commitTransaction : M unit :=
  fun c => match txn c with
           | Some _ => (Ok tt, mkConn (db c) None)
           | None => (Err (SqliteError "SQLITE_ERROR"), c)
           end.

(** [ROLLBACK]: back to the content saved by [BEGIN]. *)
Definition rollbackTransaction : M unit :=
  fun c => match txn c with
           | Some saved => (Ok tt, mkConn saved None)
           | None => (Err (SqliteError "SQLITE_ERROR"), c)
           end.

(** [insertStep]: one INSERT that takes its [step_order] from the subquery;
    [status] is the column default and [created_at] the clock's [now].  The
    primary key rejects an id already in the table.  Resolves with
    [this.changes]. *)
Definition insertStep (stepId planId description completionCondition : string)
    (completionContext : option string) (now : string) : M Z :=
  fun c =>
    match find_step stepId (db c) with
    | Some _ => (Err (SqliteError "SQLITE_CONSTRAINT"), c)
    | None =>
        let row := Step.mk stepId planId description completionCondition in_progress
                           (next_order planId (steps (db c))) completionContext now in
        (Ok 1, mkConn (mkDB (plans (db c)) (steps (db c) ++ [row])) (txn c))
    end.

Definition setActiveStep (planId : string) (stepId : option string) : M unit :=
  exec (update_active planId (or_null stepId)).

(** [SELECT COUNT( * ) as count FROM steps WHERE plan_id = ?]. *)
Definition getStepCount (planId : string) : M Z :=
  query (fun d => Z.of_nat (length (steps_of planId (steps d)))).

Definition getPlanForStep (stepId : string) : M string :=
  row <- query (find_step stepId) ;;
  match row with
  | None => throw (JsError "Invalid plan ID for step")
  | Some r => ret (Step.plan_id r)
  end.

(** The scalar subquery [(SELECT step_order FROM steps WHERE id = ?)] is NULL
    for an unknown id, and no row is greater than NULL. *)
Definition next_step (planId currentStepId : string) (d : DB) : option Step.t :=
  match find_step currentStepId d with
  | None => None
  | Some cur =>
      first_by_order
        (filter (fun s => status_eqb (Step.status s) in_progress
                          && (Step.step_order cur <? Step.step_order s))%bool
                (steps_of planId (steps d)))
  end.

Definition getNextStep (planId currentStepId : string) : M (option Step.t) :=
  query (next_step planId currentStepId).

Definition markStepCompleted (stepId completionContext : string) : M unit :=
  exec (update_completed stepId completionContext).

(* ------------------------------------------------------------------ *)
(** ** The public methods

    [generateReadableId()] draws a random slug and the column default
    [strftime(..., 'now')] reads the clock: the drawn id and the time are
    arguments of the method that uses them. *)

(** [INSERT INTO plans (id, name, description) VALUES (?, ?, ?)]. *)
Definition insert_plan (id name description now : string) : M unit :=
  fun c =>
    match find_plan id (db c) with
    | Some _ => (Err (SqliteError "SQLITE_CONSTRAINT"), c)
    | None =>
        (Ok tt, mkConn (mkDB (plans (db c) ++ [Plan.mk id name description now None])
                             (steps (db c))) (txn c))
    end.

Definition createPlan (id : string) (name description : string) (now : string)
  : M Plan.t :=
  insert_plan id name description now ;;
  row <- query (find_plan id) ;;
  match row with
  | None => throw (JsError "Failed to retrieve created plan")
  | Some r => ret r
  end.

Definition getPlan (planId : string) : M (option Plan.t) :=
  query (find_plan planId).

(** Reading back the row just inserted: [SELECT * FROM steps WHERE id = ?]. *)
Definition read_back_step (stepId : string) : M Step.t :=
  row <- query (find_step stepId) ;;
  match row with
  | None => throw (JsError "Failed to retrieve created step")
  | Some r => ret r
  end.

Definition createStep (stepId : string) (planId description completionCondition : string)
    (completionContext : option string) (now : string) : M Step.t :=
  try_catch
    (beginTransaction ;;
     insertStep stepId planId description completionCondition completionContext now ;;
     stepCount <- getStepCount planId ;;
     (if stepCount =? 1 then setActiveStep planId (Some stepId) else ret tt) ;;
     step <- read_back_step stepId ;;
     commitTransaction ;;
     ret step)
    (fun error => rollbackTransaction ;; throw error).

(** [SELECT * FROM steps WHERE plan_id = ? AND status = "in_progress"
     ORDER BY step_order ASC LIMIT 1]. *)
Definition getActiveStep (planId : string) : M (option Step.t) :=
  query (fun d =>
    first_by_order
      (filter (fun s => status_eqb (Step.status s) in_progress)
              (steps_of planId (steps d)))).

Definition completeStep (stepId completionContext : string) : M (option Step.t) :=
  try_catch
    (beginTransaction ;;
     markStepCompleted stepId completionContext ;;
     planId <- getPlanForStep stepId ;;
     nextStep <- getNextStep planId stepId ;;
     setActiveStep planId (or_null (option_map Step.id nextStep)) ;;
     commitTransaction ;;
     ret nextStep)
    (fun error => rollbackTransaction ;; throw error).

(** [SELECT steps.*, plans.active_step_id FROM steps JOIN plans
     ON steps.plan_id = plans.id WHERE steps.id = ?]. *)
Definition step_with_active (stepId : string) (d : DB)
  : option (Step.t * option string) :=
  match find_step stepId d with
  | None => None
  | Some s => match find_plan (Step.plan_id s) d with
              | None => None
              | Some p => Some (s, Plan.active_step_id p)
              end
  end.

Definition option_string_eqb (a : option string) (b : string) : bool :=
  match a with
  | Some x => (x =? b)%string
  | None => false
  end.

(** The first promise of [failStep]: the joined row and its three checks. *)
Definition load_failed_step (stepId : string) : M Step.t :=
  row <- query (step_with_active stepId) ;;
  match row with
  | None => throw (JsError "Step not found")
  | Some (s, active) =>
      if negb (option_string_eqb active stepId)
      then throw (JsError "Can only fail the current active step")
      else if negb (status_eqb (Step.status s) in_progress)
      then throw (JsError "Can only fail steps that are in progress")
      else ret s
  end.

Definition failStep (newStepId : string)
    (stepId newStepDescription newStepCompletionCondition : string) (now : string)
  : M (string * Step.t) :=
  try_catch
    (beginTransaction ;;
     failedStep <- load_failed_step stepId ;;
     exec (update_failed stepId) ;;
     exec (update_shift (Step.plan_id failedStep) (Step.step_order failedStep)) ;;
     insertStep newStepId (Step.plan_id failedStep) newStepDescription
                newStepCompletionCondition None now ;;
     setActiveStep (Step.plan_id failedStep) (Some newStepId) ;;
     newStep <- read_back_step newStepId ;;
     commitTransaction ;;
     ret (stepId, newStep))
    (fun error => rollbackTransaction ;; throw error).

(** [failStep] once its BEGIN has resolved: the statements of the [try] that
    are still to run, under the same [catch].  Every statement is a promise
    of its own, so statements of another call on the connection can run
    between the BEGIN and these. *)
Definition failStep_after_begin (newStepId : string)
    (stepId newStepDescription newStepCompletionCondition : string) (now : string)
  : M (string * Step.t) :=
  try_catch
    (failedStep <- load_failed_step stepId ;;
     exec (update_failed stepId) ;;
     exec (update_shift (Step.plan_id failedStep) (Step.step_order failedStep)) ;;
     insertStep newStepId (Step.plan_id failedStep) newStepDescription
                newStepCompletionCondition None now ;;
     setActiveStep (Step.plan_id failedStep) (Some newStepId) ;;
     newStep <- read_back_step newStepId ;;
     commitTransaction ;;
     ret (stepId, newStep))
    (fun error => rollbackTransaction ;; throw error).

(** [SELECT * FROM steps WHERE plan_id = ? ORDER BY step_order ASC]: insertion
    sort on [step_order], rows of equal order in rowid order. *)
Fixpoint insert_by_order (s : Step.t) (l : list Step.t) : list Step.t :=
  match l with
  | [] => [s]
  | x :: r => if Step.step_order s <? Step.step_order x
              then s :: l else x :: insert_by_order s r
  end.

Definition listSteps (planId : string) : M (list Step.t) :=
  query (fun d => fold_left (fun acc s => insert_by_order s acc)
                            (steps_of planId (steps d)) []).

(* ------------------------------------------------------------------ *)
(** ** Names for what the methods write *)

(** The row an [insertStep] adds to [d]. *)
Definition new_step (stepId planId description completionCondition : string)
    (completionContext : option string) (now : string) (d : DB) : Step.t :=
  Step.mk stepId planId description completionCondition in_progress
          (next_order planId (steps d)) completionContext now.

Definition with_step (row : Step.t) (d : DB) : DB :=
  mkDB (plans d) (steps d ++ [row]).

Definition with_plan (row : Plan.t) (d : DB) : DB :=
  mkDB (plans d ++ [row]) (steps d).

(** The tables after the two UPDATEs of [failStep] on the step [s]. *)
Definition failed_db (s : Step.t) (d : DB) : DB :=
  update_shift (Step.plan_id s) (Step.step_order s) (update_failed (Step.id s) d).

(* ------------------------------------------------------------------ *)
(** ** Vocabulary of the properties *)

(** The errors the spec calls [PreconditionError]: the three rejections of
    [failStep]'s first promise. *)
Definition PreconditionError (e : Error) : Prop :=
  e = JsError "Step not found"
  \/ e = JsError "Can only fail the current active step"
  \/ e = JsError "Can only fail steps that are in progress".

(** Between two calls the connection is in autocommit mode. *)
Definition idle (c : Conn) : Prop := txn c = None.

(** No step has the id. *)
Definition no_such_step (stepId : string) (d : DB) : Prop :=
  find_step stepId d = None.

(** The step exists and its plan's [active_step_id] is not its id (a plan
    that is missing points at nothing). *)
Definition not_the_active_step (stepId : string) (d : DB) : Prop :=
  exists s, find_step stepId d = Some s
            /\ forall p, find_plan (Step.plan_id s) d = Some p ->
                         Plan.active_step_id p <> Some stepId.

(** The step exists and its status is not [in_progress]. *)
Definition not_in_progress (stepId : string) (d : DB) : Prop :=
  exists s, find_step stepId d = Some s /\ Step.status s <> in_progress.

(** The step exists, is the active step of its plan and is in progress. *)
Definition active_in_progress (stepId : string) (d : DB) : Prop :=
  exists s p, find_step stepId d = Some s
              /\ find_plan (Step.plan_id s) d = Some p
              /\ Plan.active_step_id p = Some stepId
              /\ Step.status s = in_progress.

(** Two rows of [plans] that differ at most in [active_step_id]. *)
Definition same_plan_data (p p' : Plan.t) : Prop :=
  Plan.id p' = Plan.id p /\ Plan.name p' = Plan.name p
  /\ Plan.description p' = Plan.description p
  /\ Plan.created_at p' = Plan.created_at p.

(** [SELECT COUNT( * )] of the plan's steps, as [getStepCount] resolves it. *)
Definition step_count (planId : string) (d : DB) : Z :=
  Z.of_nat (length (steps_of planId (steps d))).

(** Step ids come from [generateReadableId], which joins three dictionary
    words with dashes: no stored id is the empty string. *)
Definition ids_generated (d : DB) : Prop :=
  forall s, In s (steps d) -> Step.id s <> "".

(** The foreign key of the schema, as a property of the tables: every step's
    [plan_id] is the id of a row of [plans]. *)
Definition steps_have_plans (d : DB) : Prop :=
  forall s, In s (steps d) -> find_plan (Step.plan_id s) d <> None.

(** What a step has come to: its status and completion context, looked up
    by id. *)
Definition outcome_of (stepId : string) (d : DB) : option (StepStatus * option string) :=
  option_map (fun s => (Step.status s, Step.completion_context s)) (find_step stepId d).

(** The id and the order of a step. *)
Definition id_and_order (s : Step.t) : string * Z := (Step.id s, Step.step_order s).

(** The id, the status and the order of a step. *)
Definition step_summary (s : Step.t) : string * StepStatus * Z :=
  (Step.id s, Step.status s, Step.step_order s).

(** The orders 1, 2, ..., n. *)
Definition orders_up_to (n : nat) : list Z := map Z.of_nat (seq 1 n).

(* ------------------------------------------------------------------ *)
(** ** Requests in sequence *)

(** A caller's request other than [failStep], with the id the method will
    draw and the time of the call. *)
Inductive Call : Type :=
| CallCreatePlan (id name description now : string)
| CallCreateStep (stepId planId description completionCondition : string)
                 (completionContext : option string) (now : string)
| CallCompleteStep (stepId completionContext : string).

(** The requests served one after the other, each awaited and a rejection
    caught by the caller, as the tool handlers do.  Gives the steps that the
    resolving [createStep] calls for [planId] resolved with, in call order,
    and the connection at the end. *)
Fixpoint steps_created (planId : string) (calls : list Call) (c : Conn)
  : list Step.t * Conn :=
  match calls with
  | [] => ([], c)
  | CallCreatePlan id name description now :: rest =>
      steps_created planId rest (snd (createPlan id name description now c))
  | CallCompleteStep stepId completionContext :: rest =>
      steps_created planId rest (snd (completeStep stepId completionContext c))
  | CallCreateStep stepId pid description completionCondition completionContext now
    :: rest =>
      match createStep stepId pid description completionCondition completionContext
              now c with
      | (Ok s, c1) =>
          if (pid =? planId)%string
          then let (rows, c') := steps_created planId rest c1 in (s :: rows, c')
          else steps_created planId rest c1
      | (Err _, c1) => steps_created planId rest c1
      end
  end.

(* ------------------------------------------------------------------ *)
(** ** A store to run the methods on

    One plan with two steps, the first of them active; then the same store
    after the first step has failed. *)

Definition demo_plan : Conn :=
  snd (createPlan "calm-teal-otter" "Release" "Ship version 2" "2024-01-01T10:00:00.000Z"
         initializeDatabase).

Definition demo_two_steps : Conn :=
  snd (createStep "bold-red-fox" "calm-teal-otter" "Build" "CI is green" None
         "2024-01-01T10:01:00.000Z"
         (snd (createStep "shy-blue-owl" "calm-teal-otter" "Design" "Review passed" None
                 "2024-01-01T10:00:30.000Z" demo_plan))).

Definition demo_failed : Conn :=
  snd (failStep "wise-gold-lynx" "shy-blue-owl" "Redesign" "Second review passed"
         "2024-01-01T10:02:00.000Z" demo_two_steps).




(** Requests on the plan of the demo: three steps for it, with a step for
    another plan, a completion, a second draw of an id already taken and a
    completion of an unknown step in between. *)
Definition demo_calls : list Call :=
  [CallCreateStep "shy-blue-owl" "calm-teal-otter" "Design" "Review passed" None
     "2024-01-01T10:00:30.000Z";
   CallCreatePlan "warm-plum-seal" "Audit" "Check the books" "2024-01-01T10:00:40.000Z";
   CallCreateStep "bold-red-fox" "calm-teal-otter" "Build" "CI is green" None
     "2024-01-01T10:01:00.000Z";
   CallCreateStep "cool-mint-dove" "warm-plum-seal" "Collect" "All receipts in" None
     "2024-01-01T10:01:10.000Z";
   CallCompleteStep "shy-blue-owl" "Design approved";
   CallCreateStep "bold-red-fox" "calm-teal-otter" "Test" "Suite passes" None
     "2024-01-01T10:01:20.000Z";
   CallCompleteStep "lost-grey-hare" "done";
   CallCreateStep "keen-pink-swan" "calm-teal-otter" "Ship" "Tag pushed" None
     "2024-01-01T10:01:30.000Z"].

(* ------------------------------------------------------------------ *)
(** ** Any request, and what it may write *)

(** A call of one of the four writing methods, with the id it will draw and
    the time of the call. *)
Inductive Request : Type :=
| CreatePlan (id name description now : string)
| CreateStep (stepId planId description completionCondition : string)
             (completionContext : option string) (now : string)
| CompleteStep (stepId completionContext : string)
| FailStep (newStepId stepId newStepDescription newStepCompletionCondition now : string).

(** The connection after the call, resolved or rejected. *)
Definition serve (r : Request) (c : Conn) : Conn :=
  match r with
  | CreatePlan id name description now => snd (createPlan id name description now c)
  | CreateStep stepId planId description completionCondition completionContext now =>
      snd (createStep stepId planId description completionCondition completionContext
             now c)
  | CompleteStep stepId completionContext =>
      snd (completeStep stepId completionContext c)
  | FailStep newStepId stepId description completionCondition now =>
      snd (failStep newStepId stepId description completionCondition now c)
  end.

(** Calls served one after the other. *)
Definition serve_all (rs : list Request) (c : Conn) : Conn :=
  fold_left (fun c r => serve r c) rs c.

(** The row of [steps] after the UPDATE of [markStepCompleted]. *)
Definition completed_row (stepId ctx : string) (s : Step.t) : Step.t :=
  if (Step.id s =? stepId)%string then set_completed ctx s else s.

(** The row of [steps] after the two UPDATEs of [failStep] on the step [S]. *)
Definition failed_row (S s : Step.t) : Step.t :=
  let s1 := if (Step.id s =? Step.id S)%string then set_status failed s else s in
  if ((Step.plan_id s1 =? Step.plan_id S)%string
      && (Step.step_order S <? Step.step_order s1))%bool
  then bump_order s1 else s1.

(** The five ways the tables of an idle connection change under one call:
    not at all (a rejection), by a new plan, by a new step, by a completion,
    by a failure with its replacement. *)
Inductive Written (d : DB) : DB -> Prop :=
| Written_nothing : Written d d
| Written_plan (id name description now : string) :
    find_plan id d = None ->
    Written d (with_plan (Plan.mk id name description now None) d)
| Written_step (stepId planId description completionCondition : string)
               (completionContext : option string) (now : string) :
    find_step stepId d = None ->
    Written d
      (let d1 := with_step (new_step stepId planId description completionCondition
                              completionContext now d) d in
       if step_count planId d1 =? 1
       then update_active planId (or_null (Some stepId)) d1 else d1)
| Written_completion (stepId ctx : string) (S : Step.t) :
    find_step stepId d = Some S ->
    Written d
      (let d1 := update_completed stepId ctx d in
       update_active (Step.plan_id S)
         (or_null (option_map Step.id (next_step (Step.plan_id S) stepId d1))) d1)
| Written_failure (newStepId description completionCondition now : string)
                  (S : Step.t) (p : Plan.t) :
    find_step (Step.id S) d = Some S ->
    find_plan (Step.plan_id S) d = Some p ->
    Plan.active_step_id p = Some (Step.id S) ->
    Step.status S = in_progress ->
    find_step newStepId (failed_db S d) = None ->
    Written d
      (let d1 := failed_db S d in
       update_active (Step.plan_id S) (or_null (Some newStepId))
         (with_step (new_step newStepId (Step.plan_id S) description completionCondition
                       None now d1) d1)).

(* ------------------------------------------------------------------ *)
(** ** What the store keeps *)

(** The primary keys: no two steps share an id, no two plans do. *)
Definition unique_ids (d : DB) : Prop :=
  NoDup (map Step.id (steps d)) /\ NoDup (map Plan.id (plans d)).

(** No two steps of one plan share a [step_order]. *)
Definition orders_distinct (d : DB) : Prop :=
  forall planId, NoDup (map Step.step_order (steps_of planId (steps d))).

(** A plan's [active_step_id], when not null, is the id of an in-progress
    step of that plan. *)
Definition pointers_in_progress (d : DB) : Prop :=
  forall p, In p (plans d) ->
  forall a, Plan.active_step_id p = Some a ->
  exists s, In s (steps d) /\ Step.id s = a
            /\ Step.plan_id s = Plan.id p /\ Step.status s = in_progress.

(** The three together. *)
Definition consistent (d : DB) : Prop :=
  unique_ids d /\ orders_distinct d /\ pointers_in_progress d.

(** Two rows of [steps] that are the same step: all but status, context and
    order agree, and the order has not gone down. *)
Definition same_step (s s' : Step.t) : Prop :=
  Step.id s' = Step.id s /\ Step.plan_id s' = Step.plan_id s
  /\ Step.description s' = Step.description s
  /\ Step.completion_condition s' = Step.completion_condition s
  /\ Step.created_at s' = Step.created_at s
  /\ Step.step_order s <= Step.step_order s'.

(** [l'] starts with the elements of [l], each related to its original. *)
Definition extends {A : Type} (R : A -> A -> Prop) (l l' : list A) : Prop :=
  exists kept added, l' = kept ++ added /\ Forall2 R l kept.

(** [d'] holds every row of [d], in the same place and as the same plan or
    step, and maybe more rows after them. *)
Definition history_kept (d d' : DB) : Prop :=
  extends same_step (steps d) (steps d')
  /\ extends same_plan_data (plans d) (plans d').

(** Requests on a new store: a plan, two steps, a failure of the first, a
    completion of the second, a step for a plan that does not exist and a
    second draw of an id already taken. *)
Definition demo_requests : list Request :=
  [CreatePlan "calm-teal-otter" "Release" "Ship version 2" "2024-01-01T10:00:00.000Z";
   CreateStep "shy-blue-owl" "calm-teal-otter" "Design" "Review passed" None
     "2024-01-01T10:00:30.000Z";
   CreateStep "bold-red-fox" "calm-teal-otter" "Build" "CI is green" None
     "2024-01-01T10:01:00.000Z";
   FailStep "wise-gold-lynx" "shy-blue-owl" "Redesign" "Second review passed"
     "2024-01-01T10:02:00.000Z";
   CompleteStep "bold-red-fox" "CI run 512 is green";
   CreateStep "pale-jade-crab" "no-such-plan" "Design" "Review passed" None
     "2024-01-01T10:03:00.000Z";
   CreateStep "bold-red-fox" "calm-teal-otter" "Test" "Suite passes" None
     "2024-01-01T10:04:00.000Z"].

(* ------------------------------------------------------------------ *)
(** ** Listings *)

(** The rows [listSteps] sorts, sorted. *)
Definition by_order (l : list Step.t) : list Step.t :=
  fold_left (fun acc s => insert_by_order s acc) l [].

Definition order_le (a b : Step.t) : Prop := Step.step_order a <= Step.step_order b.
Definition order_lt (a b : Step.t) : Prop := Step.step_order a < Step.step_order b.

(** [ORDER BY created_at DESC]: the column holds the text of [strftime], and
    text compares byte by byte.  Insertion sort, rows of equal time kept in
    rowid order. *)
Fixpoint insert_newest_first (p : Plan.t) (l : list Plan.t) : list Plan.t :=
  match l with
  | [] => [p]
  | x :: r => if String.ltb (Plan.created_at x) (Plan.created_at p)
              then p :: l else x :: insert_newest_first p r
  end.

Definition newest_first (l : list Plan.t) : list Plan.t :=
  fold_left (fun acc p => insert_newest_first p acc) l [].

(** [LIMIT ? OFFSET ?] on whole numbers: SQLite takes a negative offset as 0
    and a negative limit as no limit. *)
Definition limit_offset {A : Type} (limit offset : Z) (l : list A) : list A :=
  let rest := skipn (Z.to_nat offset) l in
  if limit <? 0 then rest else firstn (Z.to_nat limit) rest.

(** [listPlans(page, pageSize)], on whole numbers: the count, then the page.
    Every row read passes [isPlan], so the filter keeps them all. *)
Definition listPlans (page pageSize : Z) : M (list Plan.t * Z) :=
  let offset := (page - 1) * pageSize in
  total <- query (fun d => Z.of_nat (length (plans d))) ;;
  rows <- query (fun d => limit_offset pageSize offset (newest_first (plans d))) ;;
  ret (rows, total).

(** The plans [listPlans] resolves with. *)
Definition plans_page (page pageSize : Z) (c : Conn) : list Plan.t :=
  match fst (listPlans page pageSize c) with
  | Ok (rows, _) => rows
  | Err _ => []
  end.

(** [handleListPlans]: [typedArgs.page || 1], where a missing page and the
    page 0 are falsy. *)
Definition page_or_first (page : option Z) : Z :=
  match page with
  | None | Some 0 => 1
  | Some p => p
  end.

(** [Math.ceil(total / 10)]. *)
Definition totalPages (total : Z) : Z := - ((- total) / 10).

(** [page < totalPages], which decides whether the listing ends with the
    hint to ask for page + 1. *)
Definition hasNextPage (page total : Z) : bool := page <? totalPages total.

Definition newer_or_same (a b : Plan.t) : Prop :=
  String.leb (Plan.created_at b) (Plan.created_at a) = true.

(** A store with three plans, made at three different times. *)
Definition demo_three_plans : Conn :=
  serve_all
    [CreatePlan "calm-teal-otter" "Release" "Ship version 2" "2024-01-01T10:00:00.000Z";
     CreatePlan "warm-plum-seal" "Audit" "Check the books" "2024-01-03T09:00:00.000Z";
     CreatePlan "glad-ruby-wren" "Hiring" "Fill two seats" "2024-01-02T16:30:00.000Z"]
    initializeDatabase.

(* ------------------------------------------------------------------ *)
(** ** Dates, as [formatDate] reads them *)

(** What [formatDate] asks of a [Date]: its time in milliseconds and, in
    local time, the year, the month from 0 and the day of the month.
    Parsing, the clock and the calendar are the platform's. *)
Record JsDate : Type := mkJsDate {
  getTime : Z;
  getFullYear : Z;
  getMonth : Z;
  getDate : Z
}.

(** A whole number in a template literal. *)
Definition string_of_Z (z : Z) : string :=
  DecimalString.NilZero.string_of_int (Z.to_int z).

Definition getDaySuffix (day : Z) : string :=
  if ((11 <=? day) && (day <=? 13))%bool then "th"
  else match Z.rem day 10 with
       | 1 => "st"
       | 2 => "nd"
       | 3 => "rd"
       | _ => "th"
       end.

Definition months : list string :=
  ["January"; "February"; "March"; "April"; "May"; "June";
   "July"; "August"; "September"; "October"; "November"; "December"].

(** [n === 1 ? '' : 's']. *)
Definition plural_s (n : Z) : string := if n =? 1 then "" else "s".

(** [formatDate], given the date parsed from its argument and the date of
    the clock. *)
Definition formatDate (date now : JsDate) : string :=
  let diffTime := Z.abs (getTime now - getTime date) in
  let diffDays := diffTime / (1000 * 60 * 60 * 24) in
  if diffDays =? 0 then
    let diffHours := diffTime / (1000 * 60 * 60) in
    if diffHours =? 0 then
      let diffMinutes := diffTime / (1000 * 60) in
      if diffMinutes =? 0 then "just now"
      else (string_of_Z diffMinutes ++ " minute" ++ plural_s diffMinutes ++ " ago")%string
    else (string_of_Z diffHours ++ " hour" ++ plural_s diffHours ++ " ago")%string
  else if diffDays =? 1 then "yesterday"
  else if diffDays <? 7 then
    (string_of_Z diffDays ++ " day" ++ plural_s diffDays ++ " ago")%string
  else
    let month := nth (Z.to_nat (getMonth date)) months "undefined" in
    let day := getDate date in
    let year := getFullYear date in
    let currentYear := getFullYear now in
    if year =? currentYear
    then (month ++ " " ++ string_of_Z day ++ getDaySuffix day)%string
    else (month ++ " " ++ string_of_Z day ++ getDaySuffix day ++ ", "
          ++ string_of_Z year)%string.

(** The distance between two dates, in milliseconds. *)
Definition distance (date now : JsDate) : Z := Z.abs (getTime now - getTime date).

(* ------------------------------------------------------------------ *)
(** ** What the tool handlers print *)

(** The line feed of the template literals. *)
Definition nl : string := String (Ascii.ascii_of_nat 10) "".

(** [x && ...] on a [string | null]: null and the empty string are falsy. *)
Definition truthy (x : option string) : bool :=
  match x with
  | None | Some "" => false
  | Some _ => true
  end.

Definition text_or_empty (x : option string) : string :=
  match x with Some s => s | None => "" end.

(** The text of [handleGetActiveStep] for what [getActiveStep] resolved
    with. *)
Definition active_step_text (step : option Step.t) : string :=
  match step with
  | Some step =>
      ("Active step ID: " ++ Step.id step ++ nl
       ++ "Description: " ++ Step.description step ++ nl
       ++ "Completion condition: " ++ Step.completion_condition step
       ++ (if (truthy (Step.completion_context step)
               && status_eqb (Step.status step) completed)%bool
           then nl ++ "Completion Context: "
                ++ text_or_empty (Step.completion_context step)
           else ""))%string
  | None => "No active step found"
  end.

(** [handleExportPlan]: the plan is completed when it has a step and every
    step is completed. *)
Definition export_plan_status (steps : list Step.t) : string :=
  if ((0 <? Z.of_nat (length steps))
      && forallb (fun step => status_eqb (Step.status step) completed) steps)%bool
  then "Completed" else "In Progress".

(** [handleExportPlan]: the status line of a step. *)
Definition export_step_status (plan : Plan.t) (step : Step.t) : string :=
  match Step.status step with
  | completed => "Completed"
  | failed => "Failed"
  | in_progress =>
      if option_string_eqb (Plan.active_step_id plan) (Step.id step)
      then "In Progress" else "Not Started"
  end.

(** The demo with its two steps and a second plan that has none yet. *)
Definition demo_second_plan : Conn :=
  serve_all
    [CreatePlan "warm-plum-seal" "Audit" "Check the books" "2024-01-03T09:00:00.000Z"]
    demo_two_steps.

(* ------------------------------------------------------------------ *)
(** ** Lists of rows *)

Section Find.
Context {A : Type} (key : A -> string).

Lemma find_key_app (k : string) (l l' : list A) :
  find (fun x => key x =? k)%string (l ++ l') =
  match find (fun x => key x =? k)%string l with
  | Some x => Some x
  | None => find (fun x => key x =? k)%string l'
  end.
Proof.
  induction l as [|x l IH]; simpl; [reflexivity|].
  destruct (key x =? k)%string; [reflexivity | exact IH].
Qed.

Lemma find_key_some (k : string) (l : list A) (x : A) :
  find (fun x => key x =? k)%string l = Some x -> In x l /\ key x = k.
Proof.
  intros H; apply find_some in H; destruct H as [H1 H2].
  split; [exact H1 | apply String.eqb_eq; exact H2].
Qed.

Lemma find_key_none (k : string) (l : list A) :
  find (fun x => key x =? k)%string l = None <-> (forall x, In x l -> key x <> k).
Proof.
  split.
  - intros H x Hx Hk. apply (find_none _ _ H) in Hx.
    apply String.eqb_neq in Hx. contradiction.
  - intros H. induction l as [|x l IH]; simpl; [reflexivity|].
    destruct (String.eqb_spec (key x) k) as [E|E].
    + exfalso; apply (H x); [left; reflexivity | exact E].
    + apply IH; intros y Hy; apply H; right; exact Hy.
Qed.

(** An update that keeps the key keeps what a lookup by key finds, up to
    the update. *)
Lemma find_key_map (k : string) (f : A -> A) (l : list A) :
  (forall x, key (f x) = key x) ->
  find (fun x => key x =? k)%string (map f l) =
  option_map f (find (fun x => key x =? k)%string l).
Proof.
  intros Hf; induction l as [|x l IH]; simpl; [reflexivity|].
  rewrite Hf. destruct (key x =? k)%string; [reflexivity | exact IH].
Qed.
End Find.

(** Every [UPDATE] of the class keeps [id] and [plan_id]. *)
Lemma steps_of_map (planId : string) (f : Step.t -> Step.t) (l : list Step.t) :
  (forall s, Step.plan_id (f s) = Step.plan_id s) ->
  steps_of planId (map f l) = map f (steps_of planId l).
Proof.
  intros Hf; unfold steps_of; induction l as [|x l IH]; simpl; [reflexivity|].
  rewrite Hf. destruct (Step.plan_id x =? planId)%string; simpl; rewrite IH; reflexivity.
Qed.

Lemma steps_of_app (planId : string) (l l' : list Step.t) :
  steps_of planId (l ++ l') = steps_of planId l ++ steps_of planId l'.
Proof. unfold steps_of; apply filter_app. Qed.

Lemma steps_of_In (planId : string) (l : list Step.t) (s : Step.t) :
  In s (steps_of planId l) <-> In s l /\ Step.plan_id s = planId.
Proof.
  unfold steps_of; rewrite filter_In, String.eqb_eq; reflexivity.
Qed.

(* ------------------------------------------------------------------ *)
(** ** What each method does on an idle connection *)

(** The read-back finds the row that was appended. *)
Lemma find_step_with_step (stepId : string) (row : Step.t) (d : DB) :
  Step.id row = stepId ->
  find_step stepId d = None ->
  find_step stepId (with_step row d) = Some row.
Proof.
  intros <- H; unfold find_step, with_step in *; simpl.
  rewrite find_key_app, H; simpl. rewrite String.eqb_refl; reflexivity.
Qed.

Lemma find_step_update_active (stepId planId : string) (v : option string) (d : DB) :
  find_step stepId (update_active planId v d) = find_step stepId d.
Proof. reflexivity. Qed.

Arguments or_null : simpl never.
Arguments find_step : simpl never.
Arguments find_plan : simpl never.
Arguments steps_of : simpl never.
Arguments next_order : simpl never.
Arguments next_step : simpl never.
Arguments step_with_active : simpl never.
Arguments update_active : simpl never.
Arguments update_completed : simpl never.
Arguments update_failed : simpl never.
Arguments update_shift : simpl never.
Arguments with_step : simpl never.
Arguments new_step : simpl never.

(** Unfolds the monad of a method down to the statements it runs. *)
Ltac run_method :=
  cbv [try_catch bind beginTransaction commitTransaction rollbackTransaction
       insertStep setActiveStep getStepCount getPlanForStep getNextStep
       markStepCompleted read_back_step insert_plan load_failed_step
       query exec ret throw db txn].

(** [createStep] from start to end: the primary key rejects a taken id;
    otherwise the row is appended, the plan's pointer is set when the count
    is 1, and the transaction commits. *)
Lemma createStep_run (c : Conn) (stepId planId de cc : string)
    (cx : option string) (now : string) :
  idle c ->
  createStep stepId planId de cc cx now c =
  match find_step stepId (db c) with
  | Some _ => (Err (SqliteError "SQLITE_CONSTRAINT"), c)
  | None =>
      let row := new_step stepId planId de cc cx now (db c) in
      let d1 := with_step row (db c) in
      (Ok row,
       mkConn (if Z.of_nat (length (steps_of planId (steps d1))) =? 1
               then update_active planId (or_null (Some stepId)) d1 else d1) None)
  end.
Proof.
  destruct c as [d t]; unfold idle; simpl; intros ->.
  unfold createStep; run_method.
  destruct (find_step stepId d) eqn:E; [reflexivity|].
  pose proof (find_step_with_step stepId (new_step stepId planId de cc cx now d) d
                eq_refl E) as F.
  change (mkDB (plans d) (steps d ++ [Step.mk stepId planId de cc in_progress
            (next_order planId (steps d)) cx now]))
    with (with_step (new_step stepId planId de cc cx now d) d).
  cbv zeta.
  destruct (Z.of_nat _ =? 1) eqn:Ecount.
  - rewrite find_step_update_active, F; reflexivity.
  - rewrite F; reflexivity.
Qed.

(** [createPlan]: one INSERT outside any transaction, then the read-back,
    which finds the row just written. *)
Lemma createPlan_run (c : Conn) (id name description now : string) :
  createPlan id name description now c =
  match find_plan id (db c) with
  | Some _ => (Err (SqliteError "SQLITE_CONSTRAINT"), c)
  | None =>
      let row := Plan.mk id name description now None in
      (Ok row, mkConn (with_plan row (db c)) (txn c))
  end.
Proof.
  destruct c as [d t]; unfold createPlan; run_method.
  destruct (find_plan id d) eqn:E; [reflexivity|].
  change (mkDB (plans d ++ [Plan.mk id name description now None]) (steps d))
    with (with_plan (Plan.mk id name description now None) d).
  assert (F : find_plan id (with_plan (Plan.mk id name description now None) d)
              = Some (Plan.mk id name description now None)).
  { unfold find_plan, with_plan in *; simpl.
    rewrite find_key_app, E; simpl. rewrite String.eqb_refl; reflexivity. }
  cbv zeta. rewrite F; reflexivity.
Qed.

Lemma find_step_update_completed (stepId x ctx : string) (d : DB) :
  find_step stepId (update_completed x ctx d) =
  option_map (fun s => if (Step.id s =? x)%string then set_completed ctx s else s)
             (find_step stepId d).
Proof.
  unfold find_step, update_completed; simpl.
  apply (find_key_map Step.id); intros s; destruct (Step.id s =? x)%string; reflexivity.
Qed.

(** [completeStep] from start to end: it rejects exactly when no step has
    the id, after an UPDATE that matched no row. *)
Lemma completeStep_run (c : Conn) (stepId ctx : string) :
  idle c ->
  completeStep stepId ctx c =
  match find_step stepId (db c) with
  | None => (Err (JsError "Invalid plan ID for step"), c)
  | Some s =>
      let d1 := update_completed stepId ctx (db c) in
      let nextStep := next_step (Step.plan_id s) stepId d1 in
      (Ok nextStep,
       mkConn (update_active (Step.plan_id s)
                 (or_null (or_null (option_map Step.id nextStep))) d1) None)
  end.
Proof.
  destruct c as [d t]; unfold idle; simpl; intros ->.
  unfold completeStep; run_method.
  rewrite find_step_update_completed.
  destruct (find_step stepId d) as [s|] eqn:E; simpl; [|reflexivity].
  destruct (Step.id s =? stepId)%string; reflexivity.
Qed.

(** [failStep] from start to end: the three checks on the joined row, the
    two UPDATEs, the INSERT with its primary key, the plan's pointer. *)
Lemma failStep_run (c : Conn) (newStepId stepId de cc now : string) :
  idle c ->
  failStep newStepId stepId de cc now c =
  match step_with_active stepId (db c) with
  | None => (Err (JsError "Step not found"), c)
  | Some (s, active) =>
      if negb (option_string_eqb active stepId)
      then (Err (JsError "Can only fail the current active step"), c)
      else if negb (status_eqb (Step.status s) in_progress)
      then (Err (JsError "Can only fail steps that are in progress"), c)
      else
        let d1 := failed_db s (db c) in
        match find_step newStepId d1 with
        | Some _ => (Err (SqliteError "SQLITE_CONSTRAINT"), c)
        | None =>
            let row := new_step newStepId (Step.plan_id s) de cc None now d1 in
            (Ok (stepId, row),
             mkConn (update_active (Step.plan_id s) (or_null (Some newStepId))
                       (with_step row d1)) None)
        end
  end.
Proof.
  destruct c as [d t]; unfold idle; simpl; intros ->.
  unfold failStep; run_method.
  destruct (step_with_active stepId d) as [[s active]|] eqn:E; [|reflexivity].
  assert (Hid : Step.id s = stepId).
  { unfold step_with_active in E.
    destruct (find_step stepId d) as [s'|] eqn:F; [|discriminate].
    destruct (find_plan (Step.plan_id s') d); [|discriminate].
    injection E as <- _. apply (find_key_some Step.id _ _ _ F). }
  destruct (negb (option_string_eqb active stepId)); [reflexivity|].
  destruct (negb (status_eqb (Step.status s) in_progress)); [reflexivity|].
  unfold failed_db; rewrite Hid.
  set (d1 := update_shift (Step.plan_id s) (Step.step_order s) (update_failed stepId d)).
  destruct (find_step newStepId d1) eqn:F; [reflexivity|].
  pose proof (find_step_with_step newStepId
                (new_step newStepId (Step.plan_id s) de cc None now d1) d1 eq_refl F) as G.
  change (mkDB (plans d1) (steps d1 ++ [Step.mk newStepId (Step.plan_id s) de cc in_progress
            (next_order (Step.plan_id s) (steps d1)) None now]))
    with (with_step (new_step newStepId (Step.plan_id s) de cc None now d1) d1).
  cbv zeta. rewrite find_step_update_active, G; reflexivity.
Qed.

Lemma or_null_idem (x : option string) : or_null (or_null x) = or_null x.
Proof. destruct x as [[|a s]|]; reflexivity. Qed.

Lemma or_null_nonempty (x : string) : x <> "" -> or_null (Some x) = Some x.
Proof. destruct x; [intros H; contradiction H; reflexivity | reflexivity]. Qed.

Lemma option_string_eqb_true (a : option string) (b : string) :
  option_string_eqb a b = true <-> a = Some b.
Proof.
  destruct a as [x|]; simpl.
  - rewrite String.eqb_eq; split; [intros -> | intros [= ->]]; reflexivity.
  - split; discriminate.
Qed.

Lemma status_eqb_true (a b : StepStatus) : status_eqb a b = true <-> a = b.
Proof. destruct a, b; simpl; split; intros H; try reflexivity; discriminate. Qed.

(** An [UPDATE ... WHERE id = ?] with an id that no row has matches no row. *)
Lemma update_completed_unknown (stepId ctx : string) (d : DB) :
  find_step stepId d = None -> update_completed stepId ctx d = d.
Proof.
  intros H; destruct d as [ps ss]; unfold update_completed, find_step in *; simpl in *.
  f_equal. rewrite <- (map_id ss) at 2. apply map_ext_in; intros s Hs.
  apply (find_key_none Step.id) with (x := s) in H; [|exact Hs].
  apply String.eqb_neq in H; rewrite H; reflexivity.
Qed.

Example demo_two_steps_rows :
  map step_summary (steps (db demo_two_steps)) =
    [("shy-blue-owl", in_progress, 1); ("bold-red-fox", in_progress, 2)]
  /\ map Plan.active_step_id (plans (db demo_two_steps)) = [Some "shy-blue-owl"]
  /\ idle demo_two_steps.
Proof. repeat split. Qed.


(* ------------------------------------------------------------------ *)
(** ** Rejections *)

(** X18: Every method leaves the connection idle, whatever it resolves or rejects
    with: the next call starts in autocommit mode again. *)
Lemma methods_keep_idle (c : Conn) :
  idle c ->
  (forall id name de now, idle (snd (createPlan id name de now c)))
  /\ (forall sid pid de cc cx now, idle (snd (createStep sid pid de cc cx now c)))
  /\ (forall sid ctx, idle (snd (completeStep sid ctx c)))
  /\ (forall nid sid de cc now, idle (snd (failStep nid sid de cc now c))).
Proof.
  intros Hc; repeat split; intros.
  - rewrite createPlan_run; destruct (find_plan _ _); simpl; exact Hc.
  - rewrite createStep_run by exact Hc; destruct (find_step _ _); simpl;
      [exact Hc | reflexivity].
  - rewrite completeStep_run by exact Hc; destruct (find_step _ _); simpl;
      [reflexivity | exact Hc].
  - rewrite failStep_run by exact Hc.
    destruct (step_with_active _ _) as [[s a]|]; [|exact Hc].
    destruct (negb _); [exact Hc|]. destruct (negb _); [exact Hc|].
    cbv zeta; destruct (find_step _ _); [exact Hc | reflexivity].
Qed.



(** [failStep] is its BEGIN followed by the rest of the call; a refused BEGIN
    goes to the [catch]. *)
Lemma failStep_from_begin (c : Conn) (newStepId stepId de cc now : string) :
  failStep newStepId stepId de cc now c =
  match beginTransaction c with
  | (Ok _, c1) => failStep_after_begin newStepId stepId de cc now c1
  | (Err e, c1) => (rollbackTransaction ;; throw e) c1
  end.
Proof. destruct c as [d [saved|]]; reflexivity. Qed.


(** C10: [completeStep] on an id that no step has rejects.  The UPDATE of
    [markStepCompleted] resolves having matched no row, [getPlanForStep]
    rejects, and after the rollback the connection is what it was.  [getPlan]
    on an id that no plan has resolves with null instead. *)
Theorem completeStep_unknown_step_rejects (c : Conn) (stepId ctx : string) :
  idle c ->
  find_step stepId (db c) = None ->
  markStepCompleted stepId ctx c = (Ok tt, c)
  /\ getPlanForStep stepId c = (Err (JsError "Invalid plan ID for step"), c)
  /\ completeStep stepId ctx c = (Err (JsError "Invalid plan ID for step"), c)
  /\ (forall planId, find_plan planId (db c) = None -> getPlan planId c = (Ok None, c)).
Proof.
  intros Hc H. repeat split.
  - unfold markStepCompleted, exec. rewrite update_completed_unknown by exact H.
    destruct c; reflexivity.
  - unfold getPlanForStep, bind, query. rewrite H; reflexivity.
  - rewrite completeStep_run by exact Hc. rewrite H; reflexivity.
  - intros planId Hp. unfold getPlan, query. rewrite Hp; reflexivity.
Qed.

Lemma completeStep_unknown_step_rejects_witness :
  idle demo_two_steps
  /\ find_step "lost-grey-hare" (db demo_two_steps) = None
  /\ completeStep "lost-grey-hare" "done" demo_two_steps
     = (Err (JsError "Invalid plan ID for step"), demo_two_steps).
Proof.
  split; [reflexivity|]. split; [reflexivity|].
  exact (proj1 (proj2 (proj2
    (completeStep_unknown_step_rejects demo_two_steps "lost-grey-hare" "done"
       eq_refl eq_refl)))).
Defined.

Lemma PreconditionError_sqlite (code : string) : ~ PreconditionError (SqliteError code).
Proof. intros [H|[H|H]]; discriminate. Qed.

(** C2: on an idle connection [failStep] rejects with a precondition error
    exactly when the step does not exist, or is not the active step of its
    plan, or is not in progress; on a step that exists, is active and is in
    progress, whatever it rejects with is no precondition error. *)
Theorem failStep_precondition_iff (c : Conn) (newStepId stepId de cc now : string) :
  idle c ->
  ((exists e, fst (failStep newStepId stepId de cc now c) = Err e /\ PreconditionError e)
   <-> (no_such_step stepId (db c)
        \/ not_the_active_step stepId (db c)
        \/ not_in_progress stepId (db c)))
  /\ (active_in_progress stepId (db c) ->
      forall e, fst (failStep newStepId stepId de cc now c) = Err e ->
                ~ PreconditionError e).
Proof.
  intros Hc. rewrite failStep_run by exact Hc.
  unfold no_such_step, not_the_active_step, not_in_progress, active_in_progress,
    step_with_active.
  destruct (find_step stepId (db c)) as [s|] eqn:Es.
  2:{ split.
      - split; [intros _; left; reflexivity|].
        intros _; exists (JsError "Step not found"); split; [reflexivity|].
        left; reflexivity.
      - intros (s & p & H & _); discriminate. }
  destruct (find_plan (Step.plan_id s) (db c)) as [p|] eqn:Ep.
  2:{ split.
      - split.
        + intros _; right; left. exists s; split; [reflexivity|].
          intros p Hp; rewrite Ep in Hp; discriminate.
        + intros _; exists (JsError "Step not found"); split; [reflexivity|].
          left; reflexivity.
      - intros (s' & p & [= <-] & Hp & _). rewrite Ep in Hp; discriminate. }
  destruct (option_string_eqb (Plan.active_step_id p) stepId) eqn:Ea; cbn [negb].
  2:{ assert (Hn : Plan.active_step_id p <> Some stepId).
      { intros H; apply option_string_eqb_true in H; rewrite H in Ea; discriminate. }
      split.
      - split.
        + intros _; right; left. exists s; split; [reflexivity|].
          intros p' Hp; rewrite Ep in Hp; injection Hp as <-; exact Hn.
        + intros _; exists (JsError "Can only fail the current active step").
          split; [reflexivity|]. right; left; reflexivity.
      - intros (s' & p' & [= <-] & Hp & Ha & _).
        rewrite Ep in Hp; injection Hp as <-. contradiction. }
  apply option_string_eqb_true in Ea.
  destruct (status_eqb (Step.status s) in_progress) eqn:Est; cbn [negb].
  2:{ assert (Hn : Step.status s <> in_progress).
      { intros H; apply status_eqb_true in H; rewrite H in Est; discriminate. }
      split.
      - split.
        + intros _; right; right. exists s; split; [reflexivity | exact Hn].
        + intros _; exists (JsError "Can only fail steps that are in progress").
          split; [reflexivity|]. right; right; reflexivity.
      - intros (s' & p' & [= <-] & _ & _ & Hst). contradiction. }
  apply status_eqb_true in Est.
  assert (Hno : forall e,
             fst (let d1 := failed_db s (db c) in
                  match find_step newStepId d1 with
                  | Some _ => (Err (SqliteError "SQLITE_CONSTRAINT"), c)
                  | None =>
                      let row := new_step newStepId (Step.plan_id s) de cc None now d1 in
                      (Ok (stepId, row),
                       mkConn (update_active (Step.plan_id s) (or_null (Some newStepId))
                                 (with_step row d1)) None)
                  end) = Err e -> ~ PreconditionError e).
  { intros e; cbv zeta. destruct (find_step newStepId _); simpl; [|discriminate].
    intros [= <-]; apply PreconditionError_sqlite. }
  split.
  - split.
    + intros (e & He & Hp); exfalso; exact (Hno e He Hp).
    + intros [H|[(s' & [= <-] & H)|(s' & [= <-] & H)]].
      * discriminate.
      * exfalso; exact (H p Ep Ea).
      * contradiction.
  - intros _; exact Hno.
Qed.

(** The second step of the demo is in progress but not active; the first one
    is both. *)
Lemma failStep_precondition_iff_witness :
  idle demo_two_steps
  /\ (exists e, fst (failStep "wise-gold-lynx" "bold-red-fox" "Rebuild" "CI is green again"
                       "2024-01-01T10:02:00.000Z" demo_two_steps) = Err e
                /\ PreconditionError e)
  /\ (forall e, fst (failStep "wise-gold-lynx" "shy-blue-owl" "Redesign"
                       "Second review passed" "2024-01-01T10:02:00.000Z" demo_two_steps)
                = Err e -> ~ PreconditionError e).
Proof.
  split; [reflexivity|]. split.
  - apply (proj1 (failStep_precondition_iff demo_two_steps "wise-gold-lynx" "bold-red-fox"
                    "Rebuild" "CI is green again" "2024-01-01T10:02:00.000Z" eq_refl)).
    right; left. eexists; split; [reflexivity|].
    intros p [= <-]; discriminate.
  - apply (proj2 (failStep_precondition_iff demo_two_steps "wise-gold-lynx" "shy-blue-owl"
                    "Redesign" "Second review passed" "2024-01-01T10:02:00.000Z" eq_refl)).
    do 2 eexists. repeat split; reflexivity.
Defined.

(* ------------------------------------------------------------------ *)
(** ** Where the code departs from its own comments *)

(** C1: [failStep] on the active, in-progress first step of the demo, whose
    order is 1 and which has one step after it.  The step fails and keeps
    order 1, the later step moves from 2 to 3, the plan points at the
    replacement; but the replacement takes its order from [insertStep], one
    more than the greatest order of the plan after the shift, and gets 4,
    not 1 + 1. *)
Theorem failStep_replacement_takes_last_order :
  active_in_progress "shy-blue-owl" (db demo_two_steps)
  /\ map step_summary (steps (db demo_two_steps)) =
       [("shy-blue-owl", in_progress, 1); ("bold-red-fox", in_progress, 2)]
  /\ (exists row,
        fst (failStep "wise-gold-lynx" "shy-blue-owl" "Redesign" "Second review passed"
               "2024-01-01T10:02:00.000Z" demo_two_steps) = Ok ("shy-blue-owl", row)
        /\ step_summary row = ("wise-gold-lynx", in_progress, 4)
        /\ Step.step_order row <> 1 + 1)
  /\ map step_summary (steps (db demo_failed)) =
       [("shy-blue-owl", failed, 1); ("bold-red-fox", in_progress, 3);
        ("wise-gold-lynx", in_progress, 4)]
  /\ map Plan.active_step_id (plans (db demo_failed)) = [Some "wise-gold-lynx"].
Proof.
  split; [do 2 eexists; repeat split; reflexivity|].
  split; [reflexivity|].
  split; [eexists; split; [reflexivity|]; split; [reflexivity | discriminate]|].
  split; reflexivity.
Qed.

(** C5: [createStep] on a new store with a [planId] that names no plan.  No
    foreign-key check runs, the INSERT goes through, the count for that id is
    1, the UPDATE of [plans] matches no row, and the method resolves: the
    committed [steps] table has a row whose [plan_id] is no plan's id. *)
Theorem createStep_unknown_plan_is_committed :
  find_plan "no-such-plan" (db initializeDatabase) = None
  /\ (exists row c',
        createStep "pale-jade-crab" "no-such-plan" "Design" "Review passed" None
          "2024-01-01T10:00:00.000Z" initializeDatabase = (Ok row, c')
        /\ idle c'
        /\ In row (steps (db c'))
        /\ Step.plan_id row = "no-such-plan"
        /\ plans (db c') = []
        /\ find_plan (Step.plan_id row) (db c') = None).
Proof.
  split; [reflexivity|].
  do 2 eexists. split; [reflexivity|].
  split; [reflexivity|]. split; [left; reflexivity|]. repeat split.
Qed.

(* ------------------------------------------------------------------ *)
(** ** ORDER BY step_order ASC LIMIT 1 *)

Lemma first_by_order_none (l : list Step.t) : first_by_order l = None <-> l = [].
Proof.
  destruct l as [|s r]; simpl; [split; reflexivity|].
  split; [|discriminate].
  destruct (first_by_order r); [destruct (_ <=? _)|]; discriminate.
Qed.

Lemma first_by_order_least (l : list Step.t) (m : Step.t) :
  first_by_order l = Some m ->
  In m l /\ forall s, In s l -> Step.step_order m <= Step.step_order s.
Proof.
  revert m; induction l as [|x r IH]; simpl; [discriminate|].
  intros m. destruct (first_by_order r) as [m'|] eqn:E.
  - destruct (IH m' eq_refl) as [Hin Hle].
    destruct (Z.leb_spec (Step.step_order x) (Step.step_order m')) as [L|L];
      intros [= <-]; (split; [auto|]); intros s [<-|Hs]; try lia.
    + specialize (Hle s Hs); lia.
    + apply Hle; exact Hs.
  - apply first_by_order_none in E; subst r.
    intros [= <-]; split; [left; reflexivity|].
    intros s [<-|[]]; lia.
Qed.

Lemma in_progress_of_In (planId : string) (l : list Step.t) (s : Step.t) :
  In s (filter (fun s => status_eqb (Step.status s) in_progress) (steps_of planId l))
  <-> In s l /\ Step.plan_id s = planId /\ Step.status s = in_progress.
Proof. rewrite filter_In, steps_of_In, status_eqb_true; tauto. Qed.

Lemma steps_after_createStep (b : bool) (planId : string) (v : option string) (d : DB) :
  steps (if b then update_active planId v d else d) = steps d.
Proof. destruct b; reflexivity. Qed.

(** C9: [getActiveStep] resolves, writes nothing, and its answer is an
    in-progress step of the plan of least [step_order], or null when the plan
    has no in-progress step, so also when it has no step at all.  The answer
    depends on the [steps] table alone.  After [createPlan] and the
    [createStep] that makes the plan's first step, it is that step. *)
Theorem getActiveStep_lowest_in_progress (c : Conn) (planId : string) :
  (exists r, getActiveStep planId c = (Ok r, c)
     /\ match r with
        | Some s =>
            In s (steps (db c)) /\ Step.plan_id s = planId
            /\ Step.status s = in_progress
            /\ forall s', In s' (steps (db c)) -> Step.plan_id s' = planId ->
                          Step.status s' = in_progress ->
                          Step.step_order s <= Step.step_order s'
        | None =>
            forall s', In s' (steps (db c)) -> Step.plan_id s' = planId ->
                       Step.status s' <> in_progress
        end)
  /\ (forall c', steps (db c') = steps (db c) ->
                 fst (getActiveStep planId c') = fst (getActiveStep planId c))
  /\ (steps_of planId (steps (db c)) = [] -> getActiveStep planId c = (Ok None, c))
  /\ (forall name de now p c1 stepId de1 cc cx now1 s c2,
         idle c ->
         createPlan planId name de now c = (Ok p, c1) ->
         steps_of planId (steps (db c1)) = [] ->
         createStep stepId planId de1 cc cx now1 c1 = (Ok s, c2) ->
         getActiveStep planId c2 = (Ok (Some s), c2)).
Proof.
  repeat split.
  - eexists; split; [reflexivity|].
    destruct (first_by_order _) as [s|] eqn:E.
    + apply first_by_order_least in E; destruct E as [Hin Hle].
      apply in_progress_of_In in Hin; destruct Hin as (H1 & H2 & H3).
      repeat split; try assumption.
      intros s' I1 I2 I3; apply Hle; apply in_progress_of_In; auto.
    + apply first_by_order_none in E.
      intros s' I1 I2 I3.
      assert (I : In s' (filter (fun s => status_eqb (Step.status s) in_progress)
                           (steps_of planId (steps (db c)))))
        by (apply in_progress_of_In; auto).
      rewrite E in I; exact I.
  - intros c' H; unfold getActiveStep, query; simpl; rewrite H; reflexivity.
  - intros H; unfold getActiveStep, query; rewrite H; reflexivity.
  - intros name de now p c1 stepId de1 cc cx now1 s c2 Hc.
    rewrite createPlan_run. destruct (find_plan planId (db c)); [discriminate|].
    cbv zeta; intros [= <- <-] Hnone.
    change (steps_of planId (steps (db c)) = []) in Hnone.
    rewrite createStep_run by exact Hc.
    cbn [db]. destruct (find_step stepId _); [discriminate|].
    cbv zeta; intros [= <- <-].
    unfold getActiveStep, query; cbn [db].
    rewrite steps_after_createStep. unfold with_step, with_plan; cbn [steps].
    rewrite steps_of_app, Hnone. unfold steps_of, new_step; simpl.
    rewrite String.eqb_refl; reflexivity.
Qed.

Lemma getActiveStep_lowest_in_progress_witness :
  getActiveStep "calm-teal-otter" initializeDatabase = (Ok None, initializeDatabase)
  /\ exists s c2,
       createStep "shy-blue-owl" "calm-teal-otter" "Design" "Review passed" None
         "2024-01-01T10:00:30.000Z" demo_plan = (Ok s, c2)
       /\ getActiveStep "calm-teal-otter" c2 = (Ok (Some s), c2).
Proof.
  split.
  - exact (proj1 (proj2 (proj2
      (getActiveStep_lowest_in_progress initializeDatabase "calm-teal-otter"))) eq_refl).
  - do 2 eexists. split; [reflexivity|].
    refine (proj2 (proj2 (proj2
      (getActiveStep_lowest_in_progress initializeDatabase "calm-teal-otter")))
      "Release" "Ship version 2" "2024-01-01T10:00:00.000Z" _ demo_plan
      "shy-blue-owl" "Design" "Review passed" None "2024-01-01T10:00:30.000Z" _ _
      eq_refl eq_refl eq_refl eq_refl).
Defined.

(* ------------------------------------------------------------------ *)
(** ** createStep *)

Lemma Forall2_map_self {A : Type} (R : A -> A -> Prop) (f : A -> A) (l : list A) :
  (forall x, R x (f x)) -> Forall2 R l (map f l).
Proof. intros H; induction l; simpl; constructor; auto. Qed.

Lemma find_plan_update_active (planId x : string) (v : option string) (d : DB) :
  find_plan planId (update_active x v d) =
  option_map (fun p => if (Plan.id p =? x)%string
                       then Plan.mk (Plan.id p) (Plan.name p) (Plan.description p)
                                    (Plan.created_at p) v
                       else p) (find_plan planId d).
Proof.
  unfold find_plan, update_active; simpl.
  apply (find_key_map Plan.id); intros p; destruct (Plan.id p =? x)%string; reflexivity.
Qed.

(** The rows of [steps] with a given [plan_id], counted. *)
Lemma count_plan_id (planId : string) (l : list Step.t) :
  count_occ string_dec (map Step.plan_id l) planId = length (steps_of planId l).
Proof.
  unfold steps_of. induction l as [|x l IH]; cbn [map count_occ filter]; [reflexivity|].
  destruct (string_dec (Step.plan_id x) planId) as [E|E],
           (String.eqb_spec (Step.plan_id x) planId) as [E'|E'];
    try contradiction; cbn [length]; rewrite IH; reflexivity.
Qed.

(** C8: a [createStep] that resolves, with a generated (non-empty) id.  The
    table [steps] afterwards is the table before with the new step, of the
    given plan, at its end.  The count that [getStepCount] reads is the
    number of rows of [steps] whose [plan_id] is [planId], and it is 1
    exactly when no row had that [plan_id] before.  Row by row, [plans]
    afterwards is [plans] before: id, name, description and creation time
    are the same, and [active_step_id] is the new id in the rows of [planId]
    when that count is 1 and is unchanged in every other case; when the count
    is not 1, the table is untouched.  For a plan whose pointer named an
    existing step, the pointer is the new id afterwards iff the count is 1. *)
Theorem createStep_activates_first_step_only (c : Conn)
    (stepId planId de cc : string) (cx : option string) (now : string)
    (s : Step.t) (c' : Conn) :
  idle c ->
  stepId <> "" ->
  createStep stepId planId de cc cx now c = (Ok s, c') ->
  let count := count_occ string_dec (map Step.plan_id (steps (db c'))) planId in
  getStepCount planId c' = (Ok (Z.of_nat count), c')
  /\ (steps (db c') = steps (db c) ++ [s]
      /\ Step.id s = stepId /\ Step.plan_id s = planId)
  /\ (count = 1%nat <-> forall x, In x (steps (db c)) -> Step.plan_id x <> planId)
  /\ Forall2 (fun p p' =>
                Plan.id p' = Plan.id p /\ Plan.name p' = Plan.name p
                /\ Plan.description p' = Plan.description p
                /\ Plan.created_at p' = Plan.created_at p
                /\ Plan.active_step_id p' =
                   if ((Plan.id p =? planId)%string && (count =? 1)%nat)%bool
                   then Some stepId else Plan.active_step_id p)
             (plans (db c)) (plans (db c'))
  /\ (count <> 1%nat -> plans (db c') = plans (db c))
  /\ (forall p, find_plan planId (db c) = Some p ->
                (forall a, Plan.active_step_id p = Some a ->
                           exists x, In x (steps (db c)) /\ Step.id x = a) ->
                exists p', find_plan planId (db c') = Some p'
                           /\ (Plan.active_step_id p' = Some stepId
                               <-> count = 1%nat)).
Proof.
  intros Hc Hid. rewrite createStep_run by exact Hc.
  destruct (find_step stepId (db c)) eqn:Efresh; [discriminate|].
  cbv zeta. intros [= <- <-]. unfold getStepCount, query. cbn [db].
  rewrite steps_after_createStep, or_null_nonempty by exact Hid.
  set (row := new_step stepId planId de cc cx now (db c)).
  unfold with_step; cbn [steps plans].
  rewrite count_plan_id.
  assert (Hn : length (steps_of planId (steps (db c) ++ [row]))
               = S (length (steps_of planId (steps (db c))))).
  { rewrite steps_of_app, length_app.
    unfold steps_of at 2; simpl. rewrite String.eqb_refl; simpl. lia. }
  rewrite Hn.
  assert (Hfirst : S (length (steps_of planId (steps (db c)))) = 1%nat
                   <-> forall x, In x (steps (db c)) -> Step.plan_id x <> planId).
  { split.
    - intros H x Hx Hp.
      assert (I : In x (steps_of planId (steps (db c)))) by (apply steps_of_In; auto).
      destruct (steps_of planId (steps (db c))); [exact I | discriminate H].
    - intros H. destruct (steps_of planId (steps (db c))) as [|x r] eqn:E; [reflexivity|].
      exfalso. assert (I : In x (steps_of planId (steps (db c))))
        by (rewrite E; left; reflexivity).
      apply steps_of_In in I. destruct I as [I1 I2]. exact (H x I1 I2). }
  split; [reflexivity|]. split; [repeat split|]. split; [exact Hfirst|].
  replace (Z.of_nat (S (length (steps_of planId (steps (db c))))) =? 1)
    with (S (length (steps_of planId (steps (db c)))) =? 1)%nat
    by (destruct (length (steps_of planId (steps (db c)))) as [|[|k]];
        [reflexivity | reflexivity | symmetry; apply Z.eqb_neq; lia]).
  destruct (Nat.eqb_spec (S (length (steps_of planId (steps (db c))))) 1) as [E|E].
  - split; [|split].
    + unfold update_active; cbn [plans].
      apply Forall2_map_self; intros p.
      rewrite andb_true_r.
      destruct (Plan.id p =? planId)%string; repeat split.
    + intros H; contradiction.
    + intros p Hp _. rewrite find_plan_update_active.
      change (find_plan planId (mkDB (plans (db c)) (steps (db c) ++ [row])))
        with (find_plan planId (db c)).
      rewrite Hp; simpl.
      apply (find_key_some Plan.id) in Hp; destruct Hp as [_ Hp].
      rewrite Hp, String.eqb_refl.
      eexists; split; [reflexivity|]. simpl; split; [intros _; exact E | reflexivity].
  - split; [|split].
    + rewrite <- (map_id (plans (db c))) at 2.
      apply Forall2_map_self; intros p.
      rewrite andb_false_r. repeat split.
    + reflexivity.
    + intros p Hp Hptr.
      change (find_plan planId (mkDB (plans (db c)) (steps (db c) ++ [row])))
        with (find_plan planId (db c)).
      exists p; split; [exact Hp|].
      split; [|intros H; contradiction].
      intros Ha; exfalso. destruct (Hptr stepId Ha) as (x & Hx & Hxid).
      apply (find_key_none Step.id) with (x := x) in Efresh; [contradiction | exact Hx].
Qed.

(** The first step of a second plan, made when another plan has two steps:
    one row of [steps] has the second plan's id, and that plan alone gets the
    new pointer. *)
Lemma createStep_activates_first_step_only_witness :
  idle demo_second_plan
  /\ "cool-mint-dove" <> ""
  /\ exists s c',
       createStep "cool-mint-dove" "warm-plum-seal" "Collect" "All receipts in" None
         "2024-01-03T09:01:00.000Z" demo_second_plan = (Ok s, c')
       /\ map Step.plan_id (steps (db c'))
          = ["calm-teal-otter"; "calm-teal-otter"; "warm-plum-seal"]
       /\ getStepCount "warm-plum-seal" c' = (Ok 1, c')
       /\ map (fun p => (Plan.id p, Plan.active_step_id p)) (plans (db demo_second_plan))
          = [("calm-teal-otter", Some "shy-blue-owl"); ("warm-plum-seal", None)]
       /\ map (fun p => (Plan.id p, Plan.active_step_id p)) (plans (db c'))
          = [("calm-teal-otter", Some "shy-blue-owl");
             ("warm-plum-seal", Some "cool-mint-dove")].
Proof.
  split; [reflexivity|]. split; [discriminate|].
  do 2 eexists. split; [reflexivity|]. split; [reflexivity|].
  split; [|split; reflexivity].
  exact (proj1
    (createStep_activates_first_step_only demo_second_plan "cool-mint-dove"
       "warm-plum-seal" "Collect" "All receipts in" None "2024-01-03T09:01:00.000Z" _ _
       eq_refl ltac:(discriminate) eq_refl)).
Defined.

(* ------------------------------------------------------------------ *)
(** ** completeStep *)

Lemma or_null_some (x : option string) (a : string) :
  or_null x = Some a -> x = Some a /\ a <> "".
Proof.
  destruct x as [[|ch r]|]; simpl; try discriminate.
  intros [= <-]; split; [reflexivity | discriminate].
Qed.

Lemma In_update_completed (stepId ctx : string) (d : DB) (n : Step.t) :
  In n (steps (update_completed stepId ctx d)) ->
  exists s, In s (steps d) /\ Step.id n = Step.id s.
Proof.
  unfold update_completed; cbn [steps]; rewrite in_map_iff.
  intros (s & <- & Hs); exists s; split; [exact Hs|].
  destruct (Step.id s =? stepId)%string; reflexivity.
Qed.

(** C7: a [completeStep] that resolves, on a store whose step ids are
    generated ones.  The row of the step then has status [completed] and the
    given context as [completion_context], and is otherwise the row it was;
    no row with that id is left with another status or context; the value
    resolved is an in-progress step of the same plan of least order
    above the step's order, or null when there is none; the plan's row keeps
    its data and points at that step, or at nothing; so whatever the plan
    points at afterwards is in progress. *)
Theorem completeStep_advances_to_next (c : Conn) (stepId ctx : string)
    (nextStep : option Step.t) (c' : Conn) :
  idle c ->
  ids_generated (db c) ->
  completeStep stepId ctx c = (Ok nextStep, c') ->
  exists S,
    find_step stepId (db c) = Some S
    /\ In S (steps (db c)) /\ Step.id S = stepId
    /\ (exists S',
          find_step stepId (db c') = Some S'
          /\ In S' (steps (db c'))
          /\ Step.status S' = completed
          /\ Step.completion_context S' = Some ctx
          /\ Step.id S' = Step.id S
          /\ Step.plan_id S' = Step.plan_id S
          /\ Step.description S' = Step.description S
          /\ Step.completion_condition S' = Step.completion_condition S
          /\ Step.step_order S' = Step.step_order S
          /\ Step.created_at S' = Step.created_at S)
    /\ (forall x, In x (steps (db c')) -> Step.id x = stepId ->
                  Step.status x = completed /\ Step.completion_context x = Some ctx)
    /\ match nextStep with
       | Some n =>
           In n (steps (db c')) /\ Step.plan_id n = Step.plan_id S
           /\ Step.status n = in_progress
           /\ Step.step_order S < Step.step_order n
           /\ forall s', In s' (steps (db c')) -> Step.plan_id s' = Step.plan_id S ->
                         Step.status s' = in_progress ->
                         Step.step_order S < Step.step_order s' ->
                         Step.step_order n <= Step.step_order s'
       | None =>
           forall s', In s' (steps (db c')) -> Step.plan_id s' = Step.plan_id S ->
                      Step.status s' = in_progress ->
                      ~ Step.step_order S < Step.step_order s'
       end
    /\ (forall p, find_plan (Step.plan_id S) (db c) = Some p ->
                  exists p', find_plan (Step.plan_id S) (db c') = Some p'
                             /\ same_plan_data p p'
                             /\ Plan.active_step_id p' = option_map Step.id nextStep)
    /\ (forall p' a, In p' (plans (db c')) -> Plan.id p' = Step.plan_id S ->
                     Plan.active_step_id p' = Some a ->
                     exists n, In n (steps (db c')) /\ Step.id n = a
                               /\ Step.status n = in_progress).
Proof.
  intros Hc Hgen. rewrite completeStep_run by exact Hc.
  destruct (find_step stepId (db c)) as [S|] eqn:ES; [|discriminate].
  cbv zeta. intros [= <- <-]. exists S. cbn [db].
  rewrite or_null_idem, find_step_update_active.
  change (steps (update_active (Step.plan_id S)
            (or_null (option_map Step.id
               (next_step (Step.plan_id S) stepId (update_completed stepId ctx (db c)))))
            (update_completed stepId ctx (db c))))
    with (steps (update_completed stepId ctx (db c))).
  set (d1 := update_completed stepId ctx (db c)).
  assert (HS1 : find_step stepId d1 = Some (set_completed ctx S)).
  { unfold d1; rewrite find_step_update_completed, ES; simpl.
    apply (find_key_some Step.id) in ES; destruct ES as [_ ->].
    rewrite String.eqb_refl; reflexivity. }
  assert (Hnext :
    match next_step (Step.plan_id S) stepId d1 with
    | Some n =>
        In n (steps d1) /\ Step.plan_id n = Step.plan_id S
        /\ Step.status n = in_progress
        /\ Step.step_order S < Step.step_order n
        /\ forall s', In s' (steps d1) -> Step.plan_id s' = Step.plan_id S ->
                      Step.status s' = in_progress ->
                      Step.step_order S < Step.step_order s' ->
                      Step.step_order n <= Step.step_order s'
    | None =>
        forall s', In s' (steps d1) -> Step.plan_id s' = Step.plan_id S ->
                   Step.status s' = in_progress ->
                   ~ Step.step_order S < Step.step_order s'
    end).
  { unfold next_step; rewrite HS1; cbn [set_completed Step.step_order].
    assert (Hmem : forall s',
      In s' (filter (fun s => status_eqb (Step.status s) in_progress
                              && (Step.step_order S <? Step.step_order s))%bool
               (steps_of (Step.plan_id S) (steps d1)))
      <-> In s' (steps d1) /\ Step.plan_id s' = Step.plan_id S
          /\ Step.status s' = in_progress /\ Step.step_order S < Step.step_order s').
    { intros s'. rewrite filter_In, steps_of_In, andb_true_iff, status_eqb_true,
        Z.ltb_lt. tauto. }
    destruct (first_by_order _) as [n|] eqn:E.
    - apply first_by_order_least in E; destruct E as [Hin Hle].
      apply Hmem in Hin; destruct Hin as (H1 & H2 & H3 & H4).
      repeat split; try assumption.
      intros s' I1 I2 I3 I4; apply Hle; apply Hmem; auto.
    - apply first_by_order_none in E. intros s' I1 I2 I3 I4.
      assert (I : In s' []) by (rewrite <- E; apply Hmem; auto).
      exact I. }
  split; [reflexivity|].
  split; [exact (proj1 (find_key_some Step.id _ _ _ ES))|].
  split; [exact (proj2 (find_key_some Step.id _ _ _ ES))|].
  split.
  { exists (set_completed ctx S). split; [exact HS1|].
    split; [exact (proj1 (find_key_some Step.id _ _ _ HS1))|].
    repeat split. }
  split.
  { intros x Hx Hx'. unfold d1, update_completed in Hx; cbn [steps] in Hx.
    apply in_map_iff in Hx. destruct Hx as (s & <- & _).
    destruct (Step.id s =? stepId)%string eqn:E; [split; reflexivity|].
    apply String.eqb_neq in E; contradiction. }
  split; [exact Hnext|].
  assert (Hptr : or_null (option_map Step.id (next_step (Step.plan_id S) stepId d1))
                 = option_map Step.id (next_step (Step.plan_id S) stepId d1)).
  { destruct (next_step (Step.plan_id S) stepId d1) as [n|]; [|reflexivity].
    destruct Hnext as [Hin _]. apply In_update_completed in Hin.
    destruct Hin as (s & Hs & Hid). simpl; apply or_null_nonempty.
    rewrite Hid; apply Hgen; exact Hs. }
  rewrite Hptr. split.
  - intros p Hp. rewrite find_plan_update_active.
    change (find_plan (Step.plan_id S) d1) with (find_plan (Step.plan_id S) (db c)).
    rewrite Hp; simpl.
    apply (find_key_some Plan.id) in Hp; destruct Hp as [_ Hp].
    rewrite Hp, String.eqb_refl.
    eexists; split; [reflexivity|].
    repeat split; simpl; try reflexivity; symmetry; exact Hp.
  - intros p' a Hin Hid Ha.
    unfold update_active in Hin; cbn [plans] in Hin. apply in_map_iff in Hin.
    destruct Hin as (p & <- & _).
    destruct (Plan.id p =? Step.plan_id S)%string eqn:Ep.
    + simpl in Ha.
      destruct (next_step (Step.plan_id S) stepId d1) as [n|]; [|discriminate].
      injection Ha as <-. destruct Hnext as (H1 & _ & H3 & _).
      exists n; auto.
    + apply String.eqb_neq in Ep; contradiction.
Qed.

(** Completing the first step of the demo makes the second one active, and
    leaves the first one completed with the context of the call. *)
Lemma completeStep_advances_to_next_witness :
  idle demo_two_steps
  /\ ids_generated (db demo_two_steps)
  /\ exists n c',
       completeStep "shy-blue-owl" "Design approved" demo_two_steps = (Ok (Some n), c')
       /\ Step.id n = "bold-red-fox"
       /\ map (fun s => (Step.id s, Step.status s, Step.completion_context s))
            (steps (db c'))
          = [("shy-blue-owl", completed, Some "Design approved");
             ("bold-red-fox", in_progress, None)]
       /\ exists S', find_step "shy-blue-owl" (db c') = Some S'
                     /\ Step.status S' = completed
                     /\ Step.completion_context S' = Some "Design approved".
Proof.
  assert (G : ids_generated (db demo_two_steps)).
  { intros s [<-|[<-|[]]]; discriminate. }
  split; [reflexivity|]. split; [exact G|].
  do 2 eexists. split; [reflexivity|]. split; [reflexivity|]. split; [reflexivity|].
  destruct (completeStep_advances_to_next demo_two_steps "shy-blue-owl" "Design approved"
              _ _ eq_refl G eq_refl)
    as (S & _ & _ & _ & (S' & H1 & _ & H2 & H3 & _) & _).
  exists S'; split; [exact H1|]. split; [exact H2 | exact H3].
Defined.

(* ------------------------------------------------------------------ *)
(** ** The orders createStep hands out *)

Lemma sql_max_app_last (l : list Z) (x : Z) :
  (forall y, In y l -> y <= x) -> sql_max (l ++ [x]) = Some x.
Proof.
  induction l as [|a l IH]; intros H; simpl; [reflexivity|].
  rewrite IH by (intros y Hy; apply H; right; exact Hy).
  f_equal; apply Z.max_r; apply H; left; reflexivity.
Qed.

Lemma orders_up_to_S (k : nat) :
  orders_up_to (S k) = orders_up_to k ++ [Z.of_nat (S k)].
Proof. unfold orders_up_to; rewrite seq_S, map_app; reflexivity. Qed.

Lemma orders_up_to_bound (k : nat) (y : Z) : In y (orders_up_to k) -> 1 <= y <= Z.of_nat k.
Proof.
  unfold orders_up_to; rewrite in_map_iff; intros (n & <- & Hn).
  apply in_seq in Hn; lia.
Qed.

Lemma max_of_orders_up_to (k : nat) :
  coalesce (sql_max (orders_up_to k)) 0 = Z.of_nat k.
Proof.
  destruct k as [|k]; [reflexivity|].
  rewrite orders_up_to_S, sql_max_app_last; [reflexivity|].
  intros y Hy; apply orders_up_to_bound in Hy; lia.
Qed.

Lemma steps_of_completed (planId stepId ctx : string) (d : DB) :
  map id_and_order (steps_of planId (steps (update_completed stepId ctx d)))
  = map id_and_order (steps_of planId (steps d)).
Proof.
  unfold update_completed; cbn [steps].
  rewrite steps_of_map, map_map.
  - apply map_ext; intros s. destruct (Step.id s =? stepId)%string; reflexivity.
  - intros s. destruct (Step.id s =? stepId)%string; reflexivity.
Qed.

Lemma orders_of_id_and_order (l l' : list Step.t) :
  map id_and_order l = map id_and_order l' ->
  map Step.step_order l = map Step.step_order l'.
Proof.
  intros H. apply (f_equal (map snd)) in H. rewrite !map_map in H. exact H.
Qed.

(** From a plan whose steps have the orders 1..k, the steps created next
    have the orders k+1, k+2, ... and are added to the plan's rows. *)
Lemma steps_created_from (planId : string) (calls : list Call) :
  forall (c : Conn) (k : nat) (rows : list Step.t) (c' : Conn),
    idle c ->
    map Step.step_order (steps_of planId (steps (db c))) = orders_up_to k ->
    steps_created planId calls c = (rows, c') ->
    map Step.step_order rows = map Z.of_nat (seq (S k) (length rows))
    /\ map id_and_order (steps_of planId (steps (db c')))
       = map id_and_order (steps_of planId (steps (db c))) ++ map id_and_order rows
    /\ idle c'.
Proof.
  induction calls as [|call rest IH]; intros c k rows c' Hc Hk.
  - simpl. intros [= <- <-]. rewrite app_nil_r; auto.
  - destruct call as [id name de now | sid pid de cc cx now | sid ctx];
      cbn [steps_created].
    + (* createPlan writes no step *)
      rewrite createPlan_run.
      destruct (find_plan id (db c)); cbn [snd]; intros E.
      * exact (IH c k rows c' Hc Hk E).
      * refine (IH _ k rows c' _ _ E); [exact Hc | exact Hk].
    + rewrite createStep_run by exact Hc.
      destruct (find_step sid (db c)); [intros E; exact (IH c k rows c' Hc Hk E)|].
      cbv zeta.
      set (row := new_step sid pid de cc cx now (db c)).
      set (c1 := mkConn _ None).
      assert (Hsteps : steps (db c1) = steps (db c) ++ [row]).
      { unfold c1; cbn [db]. rewrite steps_after_createStep. reflexivity. }
      destruct (String.eqb_spec pid planId) as [->|Hne].
      * destruct (steps_created planId rest c1) as [rows1 c2] eqn:E.
        intros [= <- <-].
        assert (Hof : steps_of planId (steps (db c1))
                      = steps_of planId (steps (db c)) ++ [row]).
        { rewrite Hsteps, steps_of_app. unfold steps_of at 2; simpl.
          rewrite String.eqb_refl; reflexivity. }
        assert (Hrow : Step.step_order row = Z.of_nat (S k)).
        { unfold row, new_step, next_order; cbn [Step.step_order].
          rewrite Hk, max_of_orders_up_to; lia. }
        destruct (IH c1 (S k) rows1 c2 eq_refl) as (H1 & H2 & H3); [|exact E|].
        -- rewrite Hof, map_app, Hk, orders_up_to_S; cbn [map].
           rewrite Hrow; reflexivity.
        -- split; [|split; [|exact H3]].
           ++ cbn [map length seq]. rewrite Hrow, H1; reflexivity.
           ++ rewrite H2, Hof, map_app, <- app_assoc; reflexivity.
      * intros E.
        assert (Hof : steps_of planId (steps (db c1)) = steps_of planId (steps (db c))).
        { rewrite Hsteps, steps_of_app. unfold steps_of at 2; simpl.
          apply String.eqb_neq in Hne; rewrite Hne. apply app_nil_r. }
        destruct (IH c1 k rows c' eq_refl) as (H1 & H2 & H3);
          [rewrite Hof; exact Hk | exact E |].
        rewrite Hof in H2. auto.
    + (* completeStep rewrites status and context only *)
      rewrite completeStep_run by exact Hc.
      destruct (find_step sid (db c)) as [S|]; cbn [snd];
        [|intros E; exact (IH c k rows c' Hc Hk E)].
      cbv zeta. set (c1 := mkConn _ None). intros E.
      assert (Hof : map id_and_order (steps_of planId (steps (db c1)))
                    = map id_and_order (steps_of planId (steps (db c)))).
      { unfold c1; cbn [db]. apply steps_of_completed. }
      destruct (IH c1 k rows c' eq_refl) as (H1 & H2 & H3);
        [rewrite (orders_of_id_and_order _ _ Hof); exact Hk | exact E |].
      rewrite Hof in H2. auto.
Qed.

(** C6: requests other than [failStep], served one after the other from a
    store where the plan has no step.  The steps that the resolving
    [createStep] calls for the plan resolved with have the orders 1, 2, ...,
    n in call order, and the plan's rows at the end are these steps with
    these orders.  Each single call gives its step one more than the greatest
    order of the plan at that time, or 1 when the plan has no step. *)
Theorem createStep_orders_count_from_one (c : Conn) (planId : string)
    (calls : list Call) (rows : list Step.t) (c' : Conn) :
  idle c ->
  steps_of planId (steps (db c)) = [] ->
  steps_created planId calls c = (rows, c') ->
  map Step.step_order rows = orders_up_to (length rows)
  /\ map id_and_order (steps_of planId (steps (db c'))) = map id_and_order rows
  /\ (forall c0 stepId de cc cx now s c1,
         idle c0 ->
         createStep stepId planId de cc cx now c0 = (Ok s, c1) ->
         Step.step_order s
         = coalesce (sql_max (map Step.step_order (steps_of planId (steps (db c0))))) 0 + 1).
Proof.
  intros Hc Hnone Hrun.
  destruct (steps_created_from planId calls c 0 rows c' Hc) as (H1 & H2 & _).
  - rewrite Hnone; reflexivity.
  - exact Hrun.
  - split; [exact H1|]. split; [rewrite H2, Hnone; reflexivity|].
    intros c0 stepId de cc cx now s c1 H0.
    rewrite createStep_run by exact H0.
    destruct (find_step stepId (db c0)); [discriminate|].
    cbv zeta; intros [= <- _]; reflexivity.
Qed.

(** The requests of the demo: three of the four [createStep] calls for the
    plan resolve, and their steps get 1, 2 and 3. *)
Lemma createStep_orders_count_from_one_witness :
  idle demo_plan
  /\ steps_of "calm-teal-otter" (steps (db demo_plan)) = []
  /\ map id_and_order (fst (steps_created "calm-teal-otter" demo_calls demo_plan))
     = [("shy-blue-owl", 1); ("bold-red-fox", 2); ("keen-pink-swan", 3)]
  /\ map Step.step_order (fst (steps_created "calm-teal-otter" demo_calls demo_plan))
     = orders_up_to 3.
Proof.
  split; [reflexivity|]. split; [reflexivity|]. split; [reflexivity|].
  exact (proj1 (createStep_orders_count_from_one demo_plan "calm-teal-otter" demo_calls
                  _ _ eq_refl eq_refl eq_refl)).
Defined.

(* ------------------------------------------------------------------ *)
(** ** Completed and failed steps *)

Lemma find_step_failed_db (x : string) (S : Step.t) (d : DB) :
  find_step x (failed_db S d) =
  option_map
    (fun s =>
       let s1 := if (Step.id s =? Step.id S)%string then set_status failed s else s in
       if ((Step.plan_id s1 =? Step.plan_id S)%string
           && (Step.step_order S <? Step.step_order s1))%bool
       then bump_order s1 else s1)
    (find_step x d).
Proof.
  unfold find_step, failed_db, update_shift, update_failed; cbn [steps plans].
  rewrite map_map. apply (find_key_map Step.id); intros s.
  destruct (Step.id s =? Step.id S)%string; cbn [set_status Step.plan_id Step.step_order];
    destruct (_ && _)%bool; reflexivity.
Qed.

Lemma find_step_with_step_old (x : string) (row s : Step.t) (d : DB) :
  find_step x d = Some s -> find_step x (with_step row d) = Some s.
Proof.
  intros H; unfold find_step, with_step in *; cbn [steps].
  rewrite find_key_app, H; reflexivity.
Qed.

Lemma step_with_active_some (stepId : string) (d : DB) (S : Step.t) (a : option string) :
  step_with_active stepId d = Some (S, a) ->
  find_step stepId d = Some S /\ Step.id S = stepId.
Proof.
  unfold step_with_active. destruct (find_step stepId d) as [s|] eqn:F; [|discriminate].
  destruct (find_plan (Step.plan_id s) d); [|discriminate].
  intros [= <- _]; split; [reflexivity|]. apply (find_key_some Step.id _ _ _ F).
Qed.

(** C4, as the code has it: a step that is completed or failed keeps its
    status and completion context through [createPlan], [createStep],
    [failStep] and a [completeStep] of any other id, whether they resolve or
    reject; a [completeStep] of the step itself that resolves leaves it
    completed, with the context of that call. *)
Theorem terminal_step_rewritten_only_by_its_completeStep (c : Conn) (x : string)
    (st : StepStatus) (cx : option string) :
  idle c ->
  outcome_of x (db c) = Some (st, cx) ->
  st <> in_progress ->
  (forall id name de now,
      outcome_of x (db (snd (createPlan id name de now c))) = Some (st, cx))
  /\ (forall sid pid de cc cx' now,
      outcome_of x (db (snd (createStep sid pid de cc cx' now c))) = Some (st, cx))
  /\ (forall nid sid de cc now,
      outcome_of x (db (snd (failStep nid sid de cc now c))) = Some (st, cx))
  /\ (forall sid ctx, sid <> x ->
      outcome_of x (db (snd (completeStep sid ctx c))) = Some (st, cx))
  /\ (forall ctx nextStep c',
      completeStep x ctx c = (Ok nextStep, c') ->
      outcome_of x (db c') = Some (completed, Some ctx)).
Proof.
  intros Hc Hx Hst. unfold outcome_of in *.
  destruct (find_step x (db c)) as [s|] eqn:Es; [|discriminate].
  injection Hx as H1 H2.
  pose proof (find_key_some Step.id _ _ _ Es) as [_ Hid].
  repeat split.
  - intros id name de now. rewrite createPlan_run.
    destruct (find_plan id (db c)); cbn [snd db]; [rewrite Es|]; simpl.
    + rewrite H1, H2; reflexivity.
    + change (find_step x (with_plan (Plan.mk id name de now None) (db c)))
        with (find_step x (db c)).
      rewrite Es; simpl; rewrite H1, H2; reflexivity.
  - intros sid pid de cc cx' now. rewrite createStep_run by exact Hc.
    destruct (find_step sid (db c)); cbn [snd db].
    + rewrite Es; simpl; rewrite H1, H2; reflexivity.
    + cbv zeta. destruct (_ =? 1); [rewrite find_step_update_active|];
        rewrite (find_step_with_step_old x _ s _ Es); simpl; rewrite H1, H2; reflexivity.
  - intros nid sid de cc now. rewrite failStep_run by exact Hc.
    assert (Hsame : option_map (fun s => (Step.status s, Step.completion_context s))
                      (find_step x (db c)) = Some (st, cx))
      by (rewrite Es; simpl; rewrite H1, H2; reflexivity).
    destruct (step_with_active sid (db c)) as [[S a]|] eqn:EA; [|exact Hsame].
    destruct (negb _); [exact Hsame|].
    destruct (negb (status_eqb (Step.status S) in_progress)) eqn:EP; [exact Hsame|].
    cbv zeta. destruct (find_step nid _); [exact Hsame|]. cbn [snd db].
    apply negb_false_iff, status_eqb_true in EP.
    apply step_with_active_some in EA; destruct EA as [ES HS].
    rewrite find_step_update_active.
    erewrite find_step_with_step_old
      by (rewrite find_step_failed_db, Es; reflexivity).
    assert (Hne : (Step.id s =? Step.id S)%string = false).
    { apply String.eqb_neq; intros E. rewrite Hid in E. rewrite <- HS, <- E, Es in ES.
      injection ES as <-. rewrite EP in H1; subst st.
      apply Hst; reflexivity. }
    cbv zeta; rewrite Hne. simpl.
    destruct (_ && _)%bool; simpl; rewrite H1, H2; reflexivity.
  - intros sid ctx Hne. rewrite completeStep_run by exact Hc.
    destruct (find_step sid (db c)); cbn [snd db].
    + cbv zeta. rewrite find_step_update_active, find_step_update_completed, Es; simpl.
      assert (E : (Step.id s =? sid)%string = false)
        by (apply String.eqb_neq; rewrite Hid; intros E; apply Hne; symmetry; exact E).
      rewrite E, H1, H2; reflexivity.
    + rewrite Es; simpl; rewrite H1, H2; reflexivity.
  - intros ctx nextStep c'. rewrite completeStep_run by exact Hc.
    rewrite Es; cbv zeta. intros [= _ <-]; cbn [db].
    rewrite find_step_update_active, find_step_update_completed, Es; simpl.
    rewrite Hid, String.eqb_refl; reflexivity.
Qed.

(** The failed step of the demo through a [createStep], and through its own
    [completeStep]. *)
Lemma terminal_step_rewritten_only_by_its_completeStep_witness :
  idle demo_failed
  /\ outcome_of "shy-blue-owl" (db demo_failed) = Some (failed, None)
  /\ failed <> in_progress
  /\ outcome_of "shy-blue-owl"
       (db (snd (createStep "keen-pink-swan" "calm-teal-otter" "Ship" "Tag pushed" None
                   "2024-01-01T10:03:00.000Z" demo_failed))) = Some (failed, None).
Proof.
  split; [reflexivity|]. split; [reflexivity|]. split; [discriminate|].
  apply (proj1 (proj2
    (terminal_step_rewritten_only_by_its_completeStep demo_failed "shy-blue-owl"
       failed None eq_refl eq_refl ltac:(discriminate)))).
Defined.

(** C4 as the spec has it fails: the first step of the demo has failed, with
    no completion context; [completeStep] on it resolves and commits it as
    completed, with a context. *)
Lemma completeStep_rewrites_a_failed_step :
  idle demo_failed
  /\ outcome_of "shy-blue-owl" (db demo_failed) = Some (failed, None)
  /\ (exists nextStep c',
        completeStep "shy-blue-owl" "Done after all" demo_failed = (Ok nextStep, c')
        /\ idle c'
        /\ outcome_of "shy-blue-owl" (db c') = Some (completed, Some "Done after all"))
  /\ ~ (forall c x st cx sid ctx,
           idle c -> outcome_of x (db c) = Some (st, cx) -> st <> in_progress ->
           outcome_of x (db (snd (completeStep sid ctx c))) = Some (st, cx)).
Proof.
  split; [reflexivity|]. split; [reflexivity|]. split.
  - do 2 eexists. repeat split.
  - intros H.
    specialize (H demo_failed "shy-blue-owl" failed None "shy-blue-owl" "Done after all"
                  eq_refl eq_refl ltac:(discriminate)).
    discriminate H.
Qed.

(* ------------------------------------------------------------------ *)
(** ** failStep in general *)

Lemma sql_max_spec (l : list Z) :
  match sql_max l with
  | None => l = []
  | Some m => In m l /\ forall y, In y l -> y <= m
  end.
Proof.
  induction l as [|x r IH]; simpl; [reflexivity|].
  destruct (sql_max r) as [m|].
  - destruct IH as [Hin Hle]. split.
    + destruct (Z.max_spec x m) as [[_ ->]|[_ ->]]; [right; exact Hin | left; reflexivity].
    + intros y [<-|Hy]; [lia|]. specialize (Hle y Hy); lia.
  - subst r; split; [left; reflexivity|]. intros y [<-|[]]; lia.
Qed.

(** The row a step of the failed step's plan becomes under the two UPDATEs. *)
Lemma steps_of_failed_db (S : Step.t) (d : DB) :
  steps_of (Step.plan_id S) (steps (failed_db S d)) =
  map (fun s =>
         let s1 := if (Step.id s =? Step.id S)%string then set_status failed s else s in
         if ((Step.plan_id s1 =? Step.plan_id S)%string
             && (Step.step_order S <? Step.step_order s1))%bool
         then bump_order s1 else s1)
      (steps_of (Step.plan_id S) (steps d)).
Proof.
  unfold failed_db, update_shift, update_failed; cbn [steps plans].
  rewrite map_map. apply steps_of_map; intros s.
  destruct (Step.id s =? Step.id S)%string; cbn [set_status Step.plan_id Step.step_order];
    destruct (_ && _)%bool; reflexivity.
Qed.

(** X3: What a [failStep] that resolves has done.  The row of the step has
    status [failed] afterwards and is otherwise the row it was; the
    replacement is a new in-progress step of the same plan, and the plan
    points at it; every other step of the plan that came after the failed
    one has its order raised by 1 and is otherwise the row it was.  The
    replacement's order is one more than the failed step's when no step of
    the plan came after the failed one; when one did, the replacement lies
    beyond that step's shifted order. *)
Lemma failStep_effect (c : Conn) (newStepId stepId de cc now : string)
    (r : string * Step.t) (c' : Conn) :
  idle c ->
  newStepId <> "" ->
  failStep newStepId stepId de cc now c = (Ok r, c') ->
  exists S,
    find_step stepId (db c) = Some S
    /\ In S (steps (db c)) /\ Step.id S = stepId
    /\ Step.status S = in_progress
    /\ fst r = stepId
    /\ (exists F,
          find_step stepId (db c') = Some F
          /\ In F (steps (db c'))
          /\ Step.status F = failed
          /\ Step.id F = Step.id S
          /\ Step.plan_id F = Step.plan_id S
          /\ Step.description F = Step.description S
          /\ Step.completion_condition F = Step.completion_condition S
          /\ Step.step_order F = Step.step_order S
          /\ Step.completion_context F = Step.completion_context S
          /\ Step.created_at F = Step.created_at S)
    /\ In (snd r) (steps (db c'))
    /\ Step.id (snd r) = newStepId
    /\ Step.plan_id (snd r) = Step.plan_id S
    /\ Step.status (snd r) = in_progress
    /\ (forall p, find_plan (Step.plan_id S) (db c) = Some p ->
                  exists p', find_plan (Step.plan_id S) (db c') = Some p'
                             /\ same_plan_data p p'
                             /\ Plan.active_step_id p' = Some newStepId)
    /\ (forall s, In s (steps (db c)) -> Step.id s <> stepId ->
                  Step.plan_id s = Step.plan_id S ->
                  Step.step_order S < Step.step_order s ->
                  exists s',
                    In s' (steps (db c'))
                    /\ Step.step_order s' = Step.step_order s + 1
                    /\ Step.id s' = Step.id s
                    /\ Step.plan_id s' = Step.plan_id s
                    /\ Step.description s' = Step.description s
                    /\ Step.completion_condition s' = Step.completion_condition s
                    /\ Step.status s' = Step.status s
                    /\ Step.completion_context s' = Step.completion_context s
                    /\ Step.created_at s' = Step.created_at s)
    /\ ((forall s, In s (steps (db c)) -> Step.plan_id s = Step.plan_id S ->
                   Step.step_order s <= Step.step_order S) ->
        Step.step_order (snd r) = Step.step_order S + 1)
    /\ (forall s, In s (steps (db c)) -> Step.plan_id s = Step.plan_id S ->
                  Step.step_order S < Step.step_order s ->
                  Step.step_order s + 1 < Step.step_order (snd r)).
Proof.
  intros Hc Hid. rewrite failStep_run by exact Hc.
  destruct (step_with_active stepId (db c)) as [[S a]|] eqn:EA; [|discriminate].
  destruct (negb _); [discriminate|].
  destruct (negb (status_eqb (Step.status S) in_progress)) eqn:EP; [discriminate|].
  cbv zeta. destruct (find_step newStepId (failed_db S (db c))) eqn:Efresh; [discriminate|].
  intros [= <- <-]. cbn [fst snd db].
  apply negb_false_iff, status_eqb_true in EP.
  apply step_with_active_some in EA; destruct EA as [ES HS].
  set (d1 := failed_db S (db c)) in *.
  set (row := new_step newStepId (Step.plan_id S) de cc None now d1).
  pose proof (find_key_some Step.id _ _ _ ES) as [HinS _].
  exists S. split; [exact ES|]. split; [exact HinS|]. split; [exact HS|].
  split; [exact EP|]. split; [reflexivity|].
  split.
  { assert (HF : find_step stepId
                   (update_active (Step.plan_id S) (or_null (Some newStepId))
                      (with_step row d1)) = Some (set_status failed S)).
    { rewrite find_step_update_active.
      apply find_step_with_step_old. unfold d1; rewrite find_step_failed_db, ES.
      cbv zeta; cbn [option_map]. rewrite HS, String.eqb_refl.
      cbn [set_status Step.plan_id Step.step_order].
      rewrite Z.ltb_irrefl, andb_false_r; reflexivity. }
    exists (set_status failed S). split; [exact HF|].
    split; [exact (proj1 (find_key_some Step.id _ _ _ HF))|].
    repeat split. }
  split.
  { unfold update_active, with_step; cbn [steps]. apply in_or_app; right; left; reflexivity. }
  split; [reflexivity|]. split; [reflexivity|]. split; [reflexivity|].
  split.
  { intros p Hp. rewrite find_plan_update_active, or_null_nonempty by exact Hid.
    change (find_plan (Step.plan_id S) (with_step row d1))
      with (find_plan (Step.plan_id S) (db c)).
    rewrite Hp; simpl.
    apply (find_key_some Plan.id) in Hp; destruct Hp as [_ Hp].
    rewrite Hp, String.eqb_refl.
    eexists; split; [reflexivity|].
    repeat split; simpl; try reflexivity; symmetry; exact Hp. }
  split.
  { intros s Hs Hne Hp Hlt. exists (bump_order s).
    split; [|repeat split].
    unfold update_active, with_step; cbn [steps]. apply in_or_app; left.
    unfold d1, failed_db, update_shift, update_failed; cbn [steps plans].
    rewrite map_map. apply in_map_iff. exists s; split; [|exact Hs].
    rewrite <- HS in Hne. apply String.eqb_neq in Hne. apply Z.ltb_lt in Hlt.
    rewrite Hne, Hp, String.eqb_refl, Hlt; reflexivity. }
  assert (Horder : Step.step_order row
                   = coalesce (sql_max (map Step.step_order
                                 (steps_of (Step.plan_id S) (steps d1)))) 0 + 1)
    by reflexivity.
  unfold d1 in Horder; rewrite steps_of_failed_db, map_map in Horder.
  set (shifted := fun s : Step.t =>
         Step.step_order
           (let s1 := if (Step.id s =? Step.id S)%string then set_status failed s else s in
            if ((Step.plan_id s1 =? Step.plan_id S)%string
                && (Step.step_order S <? Step.step_order s1))%bool
            then bump_order s1 else s1)) in Horder.
  assert (Hshift : forall s, Step.plan_id s = Step.plan_id S ->
             shifted s = if Step.step_order S <? Step.step_order s
                         then Step.step_order s + 1 else Step.step_order s).
  { intros s Hp. unfold shifted; cbv zeta.
    destruct (Step.id s =? Step.id S)%string;
      cbn [set_status Step.plan_id Step.step_order];
      rewrite Hp, String.eqb_refl; cbn [andb];
      destruct (Step.step_order S <? Step.step_order s); reflexivity. }
  pose proof (sql_max_spec (map shifted (steps_of (Step.plan_id S) (steps (db c))))) as Hmax.
  destruct (sql_max _) as [m|].
  2:{ exfalso. apply map_eq_nil in Hmax.
      assert (I : In S (steps_of (Step.plan_id S) (steps (db c))))
        by (apply steps_of_In; split; [exact HinS | reflexivity]).
      rewrite Hmax in I; exact I. }
  destruct Hmax as [Hin Hle]. cbn [coalesce] in Horder.
  change (Step.step_order row = m + 1) in Horder.
  split.
  - intros Hlast. rewrite Horder. f_equal.
    apply Z.le_antisymm.
    + apply in_map_iff in Hin. destruct Hin as (s & <- & Hs).
      apply steps_of_In in Hs; destruct Hs as [Hs Hp].
      rewrite (Hshift s Hp). specialize (Hlast s Hs Hp).
      destruct (Z.ltb_spec (Step.step_order S) (Step.step_order s)); lia.
    + assert (I : In (shifted S) (map shifted (steps_of (Step.plan_id S) (steps (db c)))))
        by (apply in_map, steps_of_In; split; [exact HinS | reflexivity]).
      apply Hle in I. rewrite (Hshift S eq_refl), Z.ltb_irrefl in I. exact I.
  - intros s Hs Hp Hlt. rewrite Horder.
    assert (I : In (shifted s) (map shifted (steps_of (Step.plan_id S) (steps (db c)))))
      by (apply in_map, steps_of_In; split; assumption).
    apply Hle in I. rewrite (Hshift s Hp) in I.
    destruct (Z.ltb_spec (Step.step_order S) (Step.step_order s)); lia.
Qed.

(* ------------------------------------------------------------------ *)
(** ** Generated ids stay generated *)

Lemma ids_generated_map (f : Step.t -> Step.t) (d d' : DB) :
  (forall s, Step.id (f s) = Step.id s) ->
  steps d' = map f (steps d) ->
  ids_generated d -> ids_generated d'.
Proof.
  intros Hf E H s Hs. rewrite E in Hs. apply in_map_iff in Hs.
  destruct Hs as (s0 & <- & Hs0). rewrite Hf; apply H; exact Hs0.
Qed.

Lemma ids_generated_same_steps (d d' : DB) :
  steps d' = steps d -> ids_generated d -> ids_generated d'.
Proof. intros E H s Hs; rewrite E in Hs; apply H; exact Hs. Qed.

Lemma ids_generated_with_step (row : Step.t) (d : DB) :
  Step.id row <> "" -> ids_generated d -> ids_generated (with_step row d).
Proof.
  intros Hrow H s Hs. unfold with_step in Hs; cbn [steps] in Hs.
  apply in_app_or in Hs. destruct Hs as [Hs|[<-|[]]]; [apply H; exact Hs | exact Hrow].
Qed.

(** The hypothesis on ids is an invariant: from a store whose step ids are
    non-empty, every method called with a non-empty drawn id leaves one. *)
Lemma methods_keep_ids_generated (c : Conn) :
  idle c ->
  ids_generated (db c) ->
  (forall id name de now, ids_generated (db (snd (createPlan id name de now c))))
  /\ (forall sid pid de cc cx now,
         sid <> "" -> ids_generated (db (snd (createStep sid pid de cc cx now c))))
  /\ (forall sid ctx, ids_generated (db (snd (completeStep sid ctx c))))
  /\ (forall nid sid de cc now,
         nid <> "" -> ids_generated (db (snd (failStep nid sid de cc now c)))).
Proof.
  intros Hc H; repeat split.
  - intros id name de now. rewrite createPlan_run.
    destruct (find_plan id (db c)); [exact H|].
    apply (ids_generated_same_steps (db c)); [reflexivity | exact H].
  - intros sid pid de cc cx now Hsid. rewrite createStep_run by exact Hc.
    destruct (find_step sid (db c)); [exact H|]. cbv zeta; cbn [snd db].
    eapply ids_generated_same_steps; [apply steps_after_createStep|].
    apply ids_generated_with_step; [exact Hsid | exact H].
  - intros sid ctx. rewrite completeStep_run by exact Hc.
    destruct (find_step sid (db c)); [|exact H]. cbv zeta; cbn [snd db].
    eapply ids_generated_map; [|reflexivity|exact H].
    intros s; cbv beta; destruct (Step.id s =? sid)%string; reflexivity.
  - intros nid sid de cc now Hnid. rewrite failStep_run by exact Hc.
    destruct (step_with_active sid (db c)) as [[S a]|]; [|exact H].
    destruct (negb _); [exact H|]. destruct (negb _); [exact H|].
    cbv zeta. destruct (find_step nid _); [exact H|]. cbn [snd db].
    apply (ids_generated_same_steps
             (with_step (new_step nid (Step.plan_id S) de cc None now (failed_db S (db c)))
                        (failed_db S (db c)))); [reflexivity|].
    apply ids_generated_with_step; [exact Hnid|].
    eapply ids_generated_map; [|unfold failed_db, update_shift, update_failed;
                                 cbn [steps plans]; rewrite map_map; reflexivity|exact H].
    intros s; cbv beta.
    destruct (Step.id s =? Step.id S)%string; cbn [set_status Step.plan_id Step.step_order];
      destruct (_ && _)%bool; reflexivity.
Qed.

(* ------------------------------------------------------------------ *)
(** ** The foreign key *)

Lemma has_plan_update_active (x planId : string) (v : option string) (d : DB) :
  find_plan x d <> None -> find_plan x (update_active planId v d) <> None.
Proof.
  intros H. rewrite find_plan_update_active.
  destruct (find_plan x d); [discriminate | contradiction].
Qed.

Lemma has_plan_same_plans (x : string) (d d' : DB) :
  plans d' = plans d -> find_plan x d <> None -> find_plan x d' <> None.
Proof. unfold find_plan; intros ->; auto. Qed.

(** X8: Short of [createStep] with a [planId] that names no plan, the methods
    keep the foreign key: that call is the only way to break it. *)
Lemma methods_keep_steps_have_plans (c : Conn) :
  idle c ->
  steps_have_plans (db c) ->
  (forall id name de now, steps_have_plans (db (snd (createPlan id name de now c))))
  /\ (forall sid pid de cc cx now,
         find_plan pid (db c) <> None ->
         steps_have_plans (db (snd (createStep sid pid de cc cx now c))))
  /\ (forall sid ctx, steps_have_plans (db (snd (completeStep sid ctx c))))
  /\ (forall nid sid de cc now,
         steps_have_plans (db (snd (failStep nid sid de cc now c)))).
Proof.
  intros Hc H; repeat split.
  - intros id name de now. rewrite createPlan_run.
    destruct (find_plan id (db c)) eqn:E; [exact H|].
    intros s Hs. specialize (H s Hs).
    unfold find_plan, with_plan in *; cbn [plans snd db]. rewrite find_key_app.
    destruct (find _ (plans (db c))); [discriminate | contradiction].
  - intros sid pid de cc cx now Hp. rewrite createStep_run by exact Hc.
    destruct (find_step sid (db c)); [exact H|]. cbv zeta; cbn [snd db].
    intros s Hs. rewrite steps_after_createStep in Hs.
    assert (G : find_plan (Step.plan_id s) (db c) <> None).
    { unfold with_step in Hs; cbn [steps] in Hs. apply in_app_or in Hs.
      destruct Hs as [Hs|[<-|[]]]; [apply H; exact Hs | exact Hp]. }
    destruct (_ =? 1); [apply has_plan_update_active|];
      apply (has_plan_same_plans _ (db c)); auto.
  - intros sid ctx. rewrite completeStep_run by exact Hc.
    destruct (find_step sid (db c)); [|exact H]. cbv zeta; cbn [snd db].
    intros s Hs. apply has_plan_update_active.
    apply (has_plan_same_plans _ (db c)); [reflexivity|].
    unfold update_active, update_completed in Hs; cbn [steps] in Hs.
    apply in_map_iff in Hs. destruct Hs as (s0 & <- & Hs0).
    destruct (Step.id s0 =? sid)%string; cbn [set_completed Step.plan_id];
      apply H; exact Hs0.
  - intros nid sid de cc now. rewrite failStep_run by exact Hc.
    destruct (step_with_active sid (db c)) as [[S a]|] eqn:EA; [|exact H].
    destruct (negb _); [exact H|]. destruct (negb _); [exact H|].
    cbv zeta. destruct (find_step nid _); [exact H|]. cbn [snd db].
    apply step_with_active_some in EA. destruct EA as [ES _].
    apply (find_key_some Step.id) in ES. destruct ES as [HinS _].
    intros s Hs. apply has_plan_update_active.
    apply (has_plan_same_plans _ (db c)); [reflexivity|].
    unfold update_active, with_step in Hs; cbn [steps] in Hs.
    apply in_app_or in Hs.
    destruct Hs as [Hs|[<-|[]]]; [|exact (H S HinS)].
    unfold failed_db, update_shift, update_failed in Hs; cbn [steps plans] in Hs.
    rewrite map_map in Hs. apply in_map_iff in Hs. destruct Hs as (s0 & <- & Hs0).
    destruct (Step.id s0 =? Step.id S)%string;
      cbn [set_status Step.plan_id Step.step_order];
      destruct (_ && _)%bool; cbn [bump_order set_status Step.plan_id];
      apply H; exact Hs0.
Qed.

(* ------------------------------------------------------------------ *)
(** ** One call, as a change of the tables *)

Lemma step_with_active_inv (stepId : string) (d : DB) (S : Step.t) (a : option string) :
  step_with_active stepId d = Some (S, a) ->
  exists p, find_plan (Step.plan_id S) d = Some p /\ Plan.active_step_id p = a.
Proof.
  unfold step_with_active. destruct (find_step stepId d) as [s|]; [|discriminate].
  destruct (find_plan (Step.plan_id s) d) as [p|] eqn:E; [|discriminate].
  intros [= <- <-]. exists p; split; [exact E | reflexivity].
Qed.

(** Whatever is asked of an idle connection, the tables change in one of the
    five ways, and the connection is idle again. *)
Lemma serve_written (r : Request) (c : Conn) :
  idle c -> Written (db c) (db (serve r c)) /\ idle (serve r c).
Proof.
  intros Hc.
  destruct r as [id name de now | sid pid de cc cx now | sid ctx | nid sid de cc now];
    cbn [serve].
  - rewrite createPlan_run. destruct (find_plan id (db c)) eqn:E; cbn [snd db].
    + split; [constructor | exact Hc].
    + split; [apply Written_plan; exact E | exact Hc].
  - rewrite createStep_run by exact Hc.
    destruct (find_step sid (db c)) eqn:E; cbn [snd db].
    + split; [constructor | exact Hc].
    + split; [|reflexivity]. exact (Written_step (db c) sid pid de cc cx now E).
  - rewrite completeStep_run by exact Hc.
    destruct (find_step sid (db c)) as [S|] eqn:E; cbn [snd db].
    + split; [|reflexivity]. cbv zeta. rewrite or_null_idem.
      exact (Written_completion (db c) sid ctx S E).
    + split; [constructor | exact Hc].
  - rewrite failStep_run by exact Hc.
    destruct (step_with_active sid (db c)) as [[S a]|] eqn:EA;
      [|split; [constructor | exact Hc]].
    destruct (negb (option_string_eqb a sid)) eqn:Ea; [split; [constructor | exact Hc]|].
    destruct (negb (status_eqb (Step.status S) in_progress)) eqn:EP;
      [split; [constructor | exact Hc]|].
    cbv zeta. destruct (find_step nid (failed_db S (db c))) eqn:Efresh; cbn [snd db];
      [split; [constructor | exact Hc]|].
    split; [|reflexivity].
    apply negb_false_iff, option_string_eqb_true in Ea.
    apply negb_false_iff, status_eqb_true in EP.
    destruct (step_with_active_inv _ _ _ _ EA) as (p & Hp & Hap).
    apply step_with_active_some in EA. destruct EA as [ES HS].
    subst a sid.
    exact (Written_failure (db c) nid de cc now S p ES Hp Hap EP Efresh).
Qed.

Lemma serve_all_idle (rs : list Request) :
  forall c, idle c -> idle (serve_all rs c).
Proof.
  induction rs as [|r rs IH]; intros c Hc; [exact Hc|].
  apply IH, serve_written, Hc.
Qed.

Lemma steps_after_createStep' (planId : string) (v : option string) (d : DB) :
  steps (if step_count planId d =? 1 then update_active planId v d else d) = steps d.
Proof. destruct (_ =? 1); reflexivity. Qed.

(** The rows of both tables after each kind of change. *)
Lemma steps_update_completed (stepId ctx : string) (d : DB) :
  steps (update_completed stepId ctx d) = map (completed_row stepId ctx) (steps d).
Proof. reflexivity. Qed.

Lemma steps_failed_db (S : Step.t) (d : DB) :
  steps (failed_db S d) = map (failed_row S) (steps d).
Proof.
  unfold failed_db, update_shift, update_failed; cbn [steps plans].
  rewrite map_map. apply map_ext; intros s. unfold failed_row; cbv zeta.
  destruct (Step.id s =? Step.id S)%string; reflexivity.
Qed.

Lemma completed_row_same (stepId ctx : string) (s : Step.t) :
  Step.id (completed_row stepId ctx s) = Step.id s
  /\ Step.plan_id (completed_row stepId ctx s) = Step.plan_id s
  /\ Step.step_order (completed_row stepId ctx s) = Step.step_order s.
Proof. unfold completed_row; destruct (Step.id s =? stepId)%string; repeat split. Qed.

Lemma failed_row_same (S s : Step.t) :
  Step.id (failed_row S s) = Step.id s
  /\ Step.plan_id (failed_row S s) = Step.plan_id s.
Proof.
  unfold failed_row; cbv zeta.
  destruct (Step.id s =? Step.id S)%string; cbn [set_status Step.plan_id Step.step_order];
    destruct (_ && _)%bool; repeat split.
Qed.

Lemma failed_row_order (S s : Step.t) :
  Step.step_order (failed_row S s)
  = if ((Step.plan_id s =? Step.plan_id S)%string
        && (Step.step_order S <? Step.step_order s))%bool
    then Step.step_order s + 1 else Step.step_order s.
Proof.
  unfold failed_row; cbv zeta.
  destruct (Step.id s =? Step.id S)%string; cbn [set_status Step.plan_id Step.step_order];
    destruct (_ && _)%bool; reflexivity.
Qed.

Lemma failed_row_status (S s : Step.t) :
  Step.status (failed_row S s)
  = if (Step.id s =? Step.id S)%string then failed else Step.status s.
Proof.
  unfold failed_row; cbv zeta.
  destruct (Step.id s =? Step.id S)%string; cbn [set_status Step.plan_id Step.step_order];
    destruct (_ && _)%bool; reflexivity.
Qed.

(* ------------------------------------------------------------------ *)
(** ** Primary keys *)

Lemma NoDup_snoc {A : Type} (l : list A) (x : A) :
  NoDup l -> ~ In x l -> NoDup (l ++ [x]).
Proof.
  intros Hl Hx. apply NoDup_rev in Hl. rewrite <- (rev_involutive (l ++ [x])).
  apply NoDup_rev. rewrite rev_app_distr; simpl. constructor; [|exact Hl].
  rewrite <- in_rev; exact Hx.
Qed.

Lemma fresh_step_id (stepId : string) (d : DB) :
  find_step stepId d = None -> ~ In stepId (map Step.id (steps d)).
Proof.
  intros H Hin. apply in_map_iff in Hin. destruct Hin as (s & Hs & Hin).
  apply (find_key_none Step.id) with (x := s) in H; [contradiction | exact Hin].
Qed.

Lemma fresh_plan_id (planId : string) (d : DB) :
  find_plan planId d = None -> ~ In planId (map Plan.id (plans d)).
Proof.
  intros H Hin. apply in_map_iff in Hin. destruct Hin as (p & Hp & Hin).
  apply (find_key_none Plan.id) with (x := p) in H; [contradiction | exact Hin].
Qed.

Lemma plan_ids_update_active (planId : string) (v : option string) (d : DB) :
  map Plan.id (plans (update_active planId v d)) = map Plan.id (plans d).
Proof.
  unfold update_active; cbn [plans]. rewrite map_map. apply map_ext; intros p.
  destruct (Plan.id p =? planId)%string; reflexivity.
Qed.

Lemma step_ids_failed_db (S : Step.t) (d : DB) :
  map Step.id (steps (failed_db S d)) = map Step.id (steps d).
Proof.
  rewrite steps_failed_db, map_map. apply map_ext; intros s. apply failed_row_same.
Qed.

Lemma step_ids_update_completed (stepId ctx : string) (d : DB) :
  map Step.id (steps (update_completed stepId ctx d)) = map Step.id (steps d).
Proof.
  rewrite steps_update_completed, map_map. apply map_ext; intros s.
  apply completed_row_same.
Qed.

Lemma Written_unique_ids (d d' : DB) :
  Written d d' -> unique_ids d -> unique_ids d'.
Proof.
  intros W [Hs Hp]; destruct W as [| id name de now Hfresh
                                   | sid pid de cc cx now Hfresh
                                   | sid ctx S HS
                                   | nid de cc now S p HS HP Ha Hst Hfresh]; cbv zeta.
  - split; assumption.
  - split; [exact Hs|]. unfold with_plan; cbn [plans]. rewrite map_app; cbn [map Plan.id].
    apply NoDup_snoc; [exact Hp | apply fresh_plan_id; exact Hfresh].
  - assert (G : NoDup (map Step.id (steps (with_step (new_step sid pid de cc cx now d) d)))).
    { unfold with_step; cbn [steps]. rewrite map_app; cbn [map new_step Step.id].
      apply NoDup_snoc; [exact Hs | apply fresh_step_id; exact Hfresh]. }
    destruct (_ =? 1); split; try exact G; try exact Hp.
    rewrite plan_ids_update_active; exact Hp.
  - split.
    + change (NoDup (map Step.id (steps (update_completed sid ctx d)))).
      rewrite step_ids_update_completed; exact Hs.
    + rewrite plan_ids_update_active; exact Hp.
  - split.
    + unfold update_active, with_step; cbn [steps]. rewrite map_app, step_ids_failed_db.
      cbn [map new_step Step.id]. apply NoDup_snoc; [exact Hs|].
      rewrite <- (step_ids_failed_db S). apply fresh_step_id; exact Hfresh.
    + rewrite plan_ids_update_active; exact Hp.
Qed.

(** With unique ids, a row with the id is the row the lookup finds. *)
Lemma unique_step (d : DB) (s S : Step.t) :
  NoDup (map Step.id (steps d)) ->
  In s (steps d) -> find_step (Step.id s) d = Some S -> s = S.
Proof.
  unfold find_step. induction (steps d) as [|x l IH]; cbn [map find]; intros Hnd Hin HS.
  - destruct Hin.
  - inversion Hnd as [|y l' Hx Hl]; subst.
    destruct (String.eqb_spec (Step.id x) (Step.id s)) as [E|E].
    + injection HS as <-. destruct Hin as [->|Hin]; [reflexivity|].
      exfalso; apply Hx. rewrite E. apply in_map; exact Hin.
    + destruct Hin as [->|Hin]; [contradiction E; reflexivity|].
      apply IH; assumption.
Qed.

(* ------------------------------------------------------------------ *)
(** ** No two steps of a plan at one order *)

Lemma steps_of_snoc (planId : string) (l : list Step.t) (row : Step.t) :
  steps_of planId (l ++ [row])
  = steps_of planId l ++ (if (Step.plan_id row =? planId)%string then [row] else []).
Proof. rewrite steps_of_app. unfold steps_of at 2; reflexivity. Qed.

(** [insertStep] hands out an order above every order of the plan. *)
Lemma next_order_above (planId : string) (l : list Step.t) (s : Step.t) :
  In s (steps_of planId l) -> Step.step_order s < next_order planId l.
Proof.
  intros Hs. unfold next_order.
  pose proof (sql_max_spec (map Step.step_order (steps_of planId l))) as H.
  destruct (sql_max _) as [m|].
  - destruct H as [_ Hle]. specialize (Hle _ (in_map Step.step_order _ _ Hs)).
    cbn [coalesce]; lia.
  - apply map_eq_nil in H. rewrite H in Hs; destruct Hs.
Qed.

Lemma next_order_fresh (planId : string) (l : list Step.t) :
  ~ In (next_order planId l) (map Step.step_order (steps_of planId l)).
Proof.
  intros Hin. apply in_map_iff in Hin. destruct Hin as (s & E & Hs).
  apply next_order_above in Hs. lia.
Qed.

(** Raising by one every order above [k] keeps distinct orders distinct. *)
Lemma NoDup_shift (k : Z) (l : list Z) :
  NoDup l -> NoDup (map (fun x => if k <? x then x + 1 else x) l).
Proof.
  induction 1 as [|x l Hx Hl IH]; cbn [map]; constructor; [|exact IH].
  intros Hin. apply in_map_iff in Hin. destruct Hin as (y & E & Hy).
  assert (y = x); [|subst y; contradiction].
  destruct (Z.ltb_spec k y), (Z.ltb_spec k x); lia.
Qed.

Lemma orders_failed_db (S : Step.t) (planId : string) (d : DB) :
  map Step.step_order (steps_of planId (steps (failed_db S d)))
  = map (fun x => if ((planId =? Step.plan_id S)%string && (Step.step_order S <? x))%bool
                  then x + 1 else x)
        (map Step.step_order (steps_of planId (steps d))).
Proof.
  rewrite steps_failed_db, steps_of_map by (intros s; apply failed_row_same).
  rewrite !map_map. apply map_ext_in; intros s Hs.
  apply steps_of_In in Hs. destruct Hs as [_ <-]. apply failed_row_order.
Qed.

Lemma NoDup_orders_failed_db (S : Step.t) (planId : string) (d : DB) :
  NoDup (map Step.step_order (steps_of planId (steps d))) ->
  NoDup (map Step.step_order (steps_of planId (steps (failed_db S d)))).
Proof.
  intros H. rewrite orders_failed_db.
  destruct (planId =? Step.plan_id S)%string; cbn [andb].
  - apply NoDup_shift; exact H.
  - rewrite map_id; exact H.
Qed.

Lemma NoDup_orders_with_step (stepId planId de cc : string) (cx : option string)
    (now : string) (pid : string) (d : DB) :
  NoDup (map Step.step_order (steps_of pid (steps d))) ->
  NoDup (map Step.step_order
           (steps_of pid (steps (with_step (new_step stepId planId de cc cx now d) d)))).
Proof.
  intros H. unfold with_step; cbn [steps]. rewrite steps_of_snoc.
  change (Step.plan_id (new_step stepId planId de cc cx now d)) with planId.
  destruct (String.eqb_spec planId pid) as [->|Hne].
  - rewrite map_app.
    change (map Step.step_order [new_step stepId pid de cc cx now d])
      with [next_order pid (steps d)].
    apply NoDup_snoc; [exact H | apply next_order_fresh].
  - rewrite app_nil_r; exact H.
Qed.

Lemma Written_orders_distinct (d d' : DB) :
  Written d d' -> orders_distinct d -> orders_distinct d'.
Proof.
  intros W H; destruct W as [| id name de now Hfresh
                             | sid pid de cc cx now Hfresh
                             | sid ctx S HS
                             | nid de cc now S p HS HP Ha Hst Hfresh];
    cbv zeta; intros planId.
  - exact (H planId).
  - exact (H planId).
  - rewrite steps_after_createStep'. apply NoDup_orders_with_step, H.
  - change (NoDup (map Step.step_order
                     (steps_of planId (steps (update_completed sid ctx d))))).
    rewrite steps_update_completed,
      steps_of_map by (intros s; apply completed_row_same).
    rewrite map_map.
    erewrite map_ext; [apply H|]. intros s; apply completed_row_same.
  - change (NoDup (map Step.step_order
              (steps_of planId
                 (steps (with_step (new_step nid (Step.plan_id S) de cc None now
                                      (failed_db S d)) (failed_db S d)))))).
    apply NoDup_orders_with_step, NoDup_orders_failed_db, H.
Qed.

(* ------------------------------------------------------------------ *)
(** ** The active pointer *)

(** What [getNextStep] resolves with is an in-progress step of the plan. *)
Lemma next_step_in_progress (planId stepId : string) (d : DB) (n : Step.t) :
  next_step planId stepId d = Some n ->
  In n (steps d) /\ Step.plan_id n = planId /\ Step.status n = in_progress.
Proof.
  unfold next_step. destruct (find_step stepId d) as [cur|]; [|discriminate].
  intros H. apply first_by_order_least in H. destruct H as [H _].
  apply filter_In in H. destruct H as [H1 H2].
  apply steps_of_In in H1. destruct H1 as [H1 H3].
  apply andb_true_iff in H2. destruct H2 as [H2 _].
  apply status_eqb_true in H2. auto.
Qed.

Lemma In_update_active (planId : string) (v : option string) (d : DB) (p' : Plan.t) :
  In p' (plans (update_active planId v d)) ->
  exists p, In p (plans d) /\ Plan.id p' = Plan.id p
            /\ Plan.active_step_id p'
               = if (Plan.id p =? planId)%string then v else Plan.active_step_id p.
Proof.
  unfold update_active; cbn [plans]. rewrite in_map_iff. intros (p & <- & Hp).
  exists p; split; [exact Hp|]. destruct (Plan.id p =? planId)%string; split; reflexivity.
Qed.

Lemma Written_pointers (d d' : DB) :
  Written d d' ->
  NoDup (map Step.id (steps d)) ->
  pointers_in_progress d -> pointers_in_progress d'.
Proof.
  intros W Hu H; destruct W as [| id name de now Hfresh
                                | sid pid de cc cx now Hfresh
                                | sid ctx S HS
                                | nid de cc now S p0 HS HP Ha Hst Hfresh];
    cbv zeta.
  - exact H.
  - (* a new plan points at nothing *)
    intros p Hp a Hpa. unfold with_plan in Hp; cbn [plans] in Hp.
    apply in_app_or in Hp. destruct Hp as [Hp|[<-|[]]]; [|discriminate].
    exact (H p Hp a Hpa).
  - (* a new step: old rows stay, and the plan may point at the new one *)
    set (row := new_step sid pid de cc cx now d).
    assert (Hold : forall p, In p (plans d) -> forall a, Plan.active_step_id p = Some a ->
              exists s, In s (steps (with_step row d)) /\ Step.id s = a
                        /\ Step.plan_id s = Plan.id p /\ Step.status s = in_progress).
    { intros p Hp a Hpa. destruct (H p Hp a Hpa) as (s & Hs & Hrest).
      exists s; split; [|exact Hrest].
      unfold with_step; cbn [steps]. apply in_or_app; left; exact Hs. }
    destruct (_ =? 1); [|exact Hold].
    intros p' Hp' a Hpa.
    apply In_update_active in Hp'. destruct Hp' as (p & Hp & Hid & Hact).
    rewrite Hid. rewrite Hact in Hpa.
    destruct (String.eqb_spec (Plan.id p) pid) as [E|E].
    + apply or_null_some in Hpa. destruct Hpa as [[= <-] _].
      exists row. split; [|repeat split; symmetry; exact E].
      unfold with_step; cbn [steps]. apply in_or_app; right; left; reflexivity.
    + exact (Hold p Hp a Hpa).
  - (* a completion: the step's plan points at the next step or at nothing *)
    set (d1 := update_completed sid ctx d).
    intros p' Hp' a Hpa.
    apply In_update_active in Hp'. destruct Hp' as (p & Hp & Hid & Hact).
    rewrite Hid. rewrite Hact in Hpa.
    change (steps (update_active (Step.plan_id S)
                     (or_null (option_map Step.id (next_step (Step.plan_id S) sid d1))) d1))
      with (steps d1).
    destruct (String.eqb_spec (Plan.id p) (Step.plan_id S)) as [E|E].
    + apply or_null_some in Hpa. destruct Hpa as [Hpa _].
      destruct (next_step (Step.plan_id S) sid d1) as [n|] eqn:En; [|discriminate].
      injection Hpa as <-. apply next_step_in_progress in En.
      destruct En as (H1 & H2 & H3). exists n. rewrite E. auto.
    + destruct (H p Hp a Hpa) as (s & Hs & Hsid & Hsp & Hst).
      exists (completed_row sid ctx s). unfold d1; rewrite steps_update_completed.
      split; [apply in_map; exact Hs|].
      assert (Hne : (Step.id s =? sid)%string = false).
      { apply String.eqb_neq; intros Eid.
        assert (s = S) by (apply (unique_step d); [exact Hu | exact Hs | rewrite Eid; exact HS]).
        subst s. apply E. symmetry; exact Hsp. }
      unfold completed_row; rewrite Hne. auto.
  - (* a failure: the step's plan points at the replacement *)
    set (d1 := failed_db S d).
    set (row := new_step nid (Step.plan_id S) de cc None now d1).
    intros p' Hp' a Hpa.
    apply In_update_active in Hp'. destruct Hp' as (p & Hp & Hid & Hact).
    rewrite Hid. rewrite Hact in Hpa.
    change (steps (update_active (Step.plan_id S) (or_null (Some nid)) (with_step row d1)))
      with (steps d1 ++ [row]).
    destruct (String.eqb_spec (Plan.id p) (Step.plan_id S)) as [E|E].
    + apply or_null_some in Hpa. destruct Hpa as [[= <-] _].
      exists row. split; [apply in_or_app; right; left; reflexivity|].
      repeat split. symmetry; exact E.
    + destruct (H p Hp a Hpa) as (s & Hs & Hsid & Hsp & Hst').
      exists (failed_row S s). split.
      { apply in_or_app; left. unfold d1; rewrite steps_failed_db.
        apply in_map; exact Hs. }
      destruct (failed_row_same S s) as [F1 F2].
      rewrite F1, F2, failed_row_status.
      assert (Hne : (Step.id s =? Step.id S)%string = false).
      { apply String.eqb_neq; intros Eid.
        assert (s = S) by (apply (unique_step d); [exact Hu | exact Hs | rewrite Eid; exact HS]).
        subst s. apply E. symmetry; exact Hsp. }
      rewrite Hne. auto.
Qed.

Lemma Written_consistent (d d' : DB) :
  Written d d' -> consistent d -> consistent d'.
Proof.
  intros W (H1 & H2 & H3). split; [|split].
  - exact (Written_unique_ids d d' W H1).
  - exact (Written_orders_distinct d d' W H2).
  - exact (Written_pointers d d' W (proj1 H1) H3).
Qed.

(* ------------------------------------------------------------------ *)
(** ** Along any sequence of calls *)

Lemma serve_all_invariant (Inv : DB -> Prop) :
  (forall d d', Written d d' -> Inv d -> Inv d') ->
  forall rs c, idle c -> Inv (db c) -> Inv (db (serve_all rs c)).
Proof.
  intros Hstep rs; induction rs as [|r rs IH]; intros c Hc H; [exact H|].
  destruct (serve_written r c Hc) as [W Hc'].
  cbn [serve_all fold_left]. apply IH; [exact Hc' | exact (Hstep _ _ W H)].
Qed.

(** X17: Whatever sequence of calls is served, resolved or rejected, no two steps
    ever share an id and no two plans do. *)
Theorem ids_stay_unique (rs : list Request) (c : Conn) :
  idle c -> unique_ids (db c) -> unique_ids (db (serve_all rs c)).
Proof. apply (serve_all_invariant unique_ids), Written_unique_ids. Qed.

Lemma new_store_consistent : consistent (db initializeDatabase).
Proof.
  split; [split; constructor|]. split; [intros planId; constructor|].
  intros p [].
Qed.

Lemma ids_stay_unique_witness :
  idle initializeDatabase
  /\ unique_ids (db initializeDatabase)
  /\ unique_ids (db (serve_all demo_requests initializeDatabase)).
Proof.
  split; [reflexivity|]. split; [exact (proj1 new_store_consistent)|].
  exact (ids_stay_unique demo_requests initializeDatabase eq_refl
           (proj1 new_store_consistent)).
Defined.

(** X1: Whatever sequence of calls is served, no two steps of a plan ever share
    a [step_order]: neither [createStep] nor the shift and insert of
    [failStep] makes a tie. *)
Theorem orders_stay_distinct (rs : list Request) (c : Conn) :
  idle c -> orders_distinct (db c) -> orders_distinct (db (serve_all rs c)).
Proof. apply (serve_all_invariant orders_distinct), Written_orders_distinct. Qed.

Lemma orders_stay_distinct_witness :
  idle initializeDatabase
  /\ orders_distinct (db initializeDatabase)
  /\ orders_distinct (db (serve_all demo_requests initializeDatabase)).
Proof.
  split; [reflexivity|]. split; [exact (proj1 (proj2 new_store_consistent))|].
  exact (orders_stay_distinct demo_requests initializeDatabase eq_refl
           (proj1 (proj2 new_store_consistent))).
Defined.

(** X2: On a store with unique ids, whatever sequence of calls is served, a
    plan's [active_step_id] is null or the id of an in-progress step of that
    plan. *)
Theorem pointers_stay_in_progress (rs : list Request) (c : Conn) :
  idle c ->
  unique_ids (db c) ->
  pointers_in_progress (db c) ->
  pointers_in_progress (db (serve_all rs c)).
Proof.
  intros Hc Hu Hp.
  assert (G : unique_ids (db (serve_all rs c))
              /\ pointers_in_progress (db (serve_all rs c))).
  { apply (serve_all_invariant (fun d => unique_ids d /\ pointers_in_progress d));
      [|exact Hc | split; assumption].
    intros d d' W [H1 H2]. split.
    - exact (Written_unique_ids d d' W H1).
    - exact (Written_pointers d d' W (proj1 H1) H2). }
  exact (proj2 G).
Qed.

Lemma pointers_stay_in_progress_witness :
  idle initializeDatabase
  /\ unique_ids (db initializeDatabase)
  /\ pointers_in_progress (db initializeDatabase)
  /\ pointers_in_progress (db (serve_all demo_requests initializeDatabase))
  /\ map Plan.active_step_id (plans (db (serve_all demo_requests initializeDatabase)))
     = [Some "wise-gold-lynx"].
Proof.
  split; [reflexivity|]. split; [exact (proj1 new_store_consistent)|].
  split; [exact (proj2 (proj2 new_store_consistent))|].
  split; [|reflexivity].
  exact (pointers_stay_in_progress demo_requests initializeDatabase eq_refl
           (proj1 new_store_consistent) (proj2 (proj2 new_store_consistent))).
Defined.

(* ------------------------------------------------------------------ *)
(** ** Nothing is deleted, nothing is renamed *)

Lemma same_step_refl (s : Step.t) : same_step s s.
Proof. unfold same_step; repeat split; lia. Qed.

Lemma same_step_trans (a b c : Step.t) : same_step a b -> same_step b c -> same_step a c.
Proof.
  unfold same_step; intros (A1 & A2 & A3 & A4 & A5 & A6) (B1 & B2 & B3 & B4 & B5 & B6).
  repeat split; try congruence; lia.
Qed.

Lemma same_plan_data_refl (p : Plan.t) : same_plan_data p p.
Proof. unfold same_plan_data; repeat split. Qed.

Lemma same_plan_data_trans (a b c : Plan.t) :
  same_plan_data a b -> same_plan_data b c -> same_plan_data a c.
Proof.
  unfold same_plan_data; intros (A1 & A2 & A3 & A4) (B1 & B2 & B3 & B4).
  repeat split; congruence.
Qed.

Lemma same_step_completed_row (stepId ctx : string) (s : Step.t) :
  same_step s (completed_row stepId ctx s).
Proof.
  unfold completed_row; destruct (Step.id s =? stepId)%string;
    [unfold same_step; cbn; repeat split; lia | apply same_step_refl].
Qed.

Lemma same_step_failed_row (S s : Step.t) : same_step s (failed_row S s).
Proof.
  unfold failed_row; cbv zeta.
  destruct (Step.id s =? Step.id S)%string; cbn [set_status Step.plan_id Step.step_order];
    destruct (_ && _)%bool; unfold same_step; cbn; repeat split; lia.
Qed.

Lemma same_plans_update_active (planId : string) (v : option string) (d : DB) :
  Forall2 same_plan_data (plans d) (plans (update_active planId v d)).
Proof.
  unfold update_active; cbn [plans]. apply Forall2_map_self; intros p.
  destruct (Plan.id p =? planId)%string;
    [unfold same_plan_data; cbn; repeat split | apply same_plan_data_refl].
Qed.

Section Kept.
Context {A : Type} (R : A -> A -> Prop).
Hypothesis R_refl : forall x, R x x.
Hypothesis R_trans : forall x y z, R x y -> R y z -> R x z.

Lemma Forall2_refl (l : list A) : Forall2 R l l.
Proof. induction l; constructor; auto. Qed.

Lemma Forall2_trans (l1 l2 l3 : list A) :
  Forall2 R l1 l2 -> Forall2 R l2 l3 -> Forall2 R l1 l3.
Proof.
  intros H; revert l3; induction H as [|x y l1 l2 Hxy H IH]; intros l3 H3;
    inversion H3; subst; constructor; eauto.
Qed.

Lemma extends_refl (l : list A) : extends R l l.
Proof. exists l, []; split; [symmetry; apply app_nil_r | apply Forall2_refl]. Qed.

Lemma extends_related (l l' : list A) : Forall2 R l l' -> extends R l l'.
Proof. intros H; exists l', []; split; [symmetry; apply app_nil_r | exact H]. Qed.

Lemma extends_snoc (l l' added : list A) : Forall2 R l l' -> extends R l (l' ++ added).
Proof. intros H; exists l', added; split; [reflexivity | exact H]. Qed.

Lemma extends_trans (l1 l2 l3 : list A) :
  extends R l1 l2 -> extends R l2 l3 -> extends R l1 l3.
Proof.
  intros (k1 & a1 & -> & H1) (k2 & a2 & -> & H2).
  apply Forall2_app_inv_l in H2. destruct H2 as (k2a & k2b & Ha & Hb & ->).
  exists k2a, (k2b ++ a2); split; [symmetry; apply app_assoc|].
  exact (Forall2_trans _ _ _ H1 Ha).
Qed.
End Kept.

Lemma Written_history_kept (d d' : DB) : Written d d' -> history_kept d d'.
Proof.
  intros W; destruct W as [| id name de now Hfresh
                           | sid pid de cc cx now Hfresh
                           | sid ctx S HS
                           | nid de cc now S p HS HP Ha Hst Hfresh];
    cbv zeta; split.
  - apply (extends_refl same_step), same_step_refl.
  - apply (extends_refl same_plan_data), same_plan_data_refl.
  - apply (extends_refl same_step), same_step_refl.
  - apply (extends_snoc same_plan_data), Forall2_refl, same_plan_data_refl.
  - rewrite steps_after_createStep'.
    apply (extends_snoc same_step), Forall2_refl, same_step_refl.
  - destruct (_ =? 1).
    + apply (extends_related same_plan_data).
      exact (same_plans_update_active pid _ (with_step _ d)).
    + apply (extends_refl same_plan_data), same_plan_data_refl.
  - apply (extends_related same_step).
    change (Forall2 same_step (steps d) (steps (update_completed sid ctx d))).
    rewrite steps_update_completed. apply Forall2_map_self, same_step_completed_row.
  - apply (extends_related same_plan_data).
    exact (same_plans_update_active _ _ (update_completed sid ctx d)).
  - change (extends same_step (steps d)
              (steps (failed_db S d)
               ++ [new_step nid (Step.plan_id S) de cc None now (failed_db S d)])).
    apply (extends_snoc same_step). rewrite steps_failed_db.
    apply Forall2_map_self, same_step_failed_row.
  - apply (extends_related same_plan_data).
    exact (same_plans_update_active _ _ (with_step _ (failed_db S d))).
Qed.

Lemma rows_kept_along (rs : list Request) :
  forall c, idle c -> history_kept (db c) (db (serve_all rs c)).
Proof.
  induction rs as [|r rs IH]; intros c Hc.
  - split; [apply (extends_refl same_step), same_step_refl
           | apply (extends_refl same_plan_data), same_plan_data_refl].
  - destruct (serve_written r c Hc) as [W Hc'].
    destruct (Written_history_kept _ _ W) as [W1 W2].
    destruct (IH _ Hc') as [I1 I2]. split.
    + exact (extends_trans same_step same_step_trans _ _ _ W1 I1).
    + exact (extends_trans same_plan_data same_plan_data_trans _ _ _ W2 I2).
Qed.

(** X6: Whatever sequence of calls is served, every plan and every step that was
    in the tables is still there, at the same place, with the same id, owner,
    texts and creation time; a step's order has not gone down.  Only status,
    completion context, order and the active pointer are ever rewritten, and
    no row is deleted. *)
Theorem rows_are_kept (rs : list Request) (c : Conn) :
  idle c -> history_kept (db c) (db (serve_all rs c)).
Proof. apply rows_kept_along. Qed.

Lemma rows_are_kept_witness :
  idle demo_two_steps
  /\ history_kept (db demo_two_steps)
       (db (serve_all
              [FailStep "wise-gold-lynx" "shy-blue-owl" "Redesign" "Second review passed"
                 "2024-01-01T10:02:00.000Z";
               CompleteStep "bold-red-fox" "CI run 512 is green"] demo_two_steps)).
Proof.
  split; [reflexivity|]. exact (rows_are_kept _ demo_two_steps eq_refl).
Defined.

(* ------------------------------------------------------------------ *)
(** ** getActiveStep after a completion and after a failure *)

Lemma NoDup_map_inj {A B : Type} (f : A -> B) (l : list A) (x y : A) :
  NoDup (map f l) -> In x l -> In y l -> f x = f y -> x = y.
Proof.
  induction l as [|a l IH]; cbn [map]; intros Hnd Hx Hy E; [destruct Hx|].
  inversion Hnd as [|b l' Ha Hl]; subst.
  destruct Hx as [->|Hx], Hy as [->|Hy]; auto.
  - exfalso; apply Ha. rewrite E. apply in_map; exact Hy.
  - exfalso; apply Ha. rewrite <- E. apply in_map; exact Hx.
Qed.

Lemma getActiveStep_run (planId : string) (c : Conn) :
  getActiveStep planId c
  = (Ok (first_by_order (filter (fun s => status_eqb (Step.status s) in_progress)
                           (steps_of planId (steps (db c))))), c).
Proof. reflexivity. Qed.

(** X5: Completing the step that [getActiveStep] gives, on a store with unique
    ids and distinct orders: what [completeStep] resolves with is what
    [getActiveStep] gives next. *)
Theorem completeStep_of_active_then_getActiveStep (c : Conn) (planId ctx : string)
    (S : Step.t) (nextStep : option Step.t) (c' : Conn) :
  idle c ->
  unique_ids (db c) ->
  orders_distinct (db c) ->
  getActiveStep planId c = (Ok (Some S), c) ->
  completeStep (Step.id S) ctx c = (Ok nextStep, c') ->
  getActiveStep planId c' = (Ok nextStep, c').
Proof.
  intros Hc [Hu _] Hd. rewrite getActiveStep_run. intros [= Hact].
  apply first_by_order_least in Hact. destruct Hact as [Hin Hmin].
  pose proof Hin as Hin'. apply in_progress_of_In in Hin'.
  destruct Hin' as (HS & HSp & HSs).
  rewrite completeStep_run by exact Hc.
  destruct (find_step (Step.id S) (db c)) as [S'|] eqn:ES; [|discriminate].
  assert (S = S') by (apply (unique_step (db c)); assumption). subst S'.
  cbv zeta. intros [= <- <-]. rewrite getActiveStep_run. cbn [db].
  change (steps (update_active (Step.plan_id S) _ (update_completed (Step.id S) ctx (db c))))
    with (steps (update_completed (Step.id S) ctx (db c))).
  f_equal. f_equal. unfold next_step.
  rewrite find_step_update_completed, ES. cbn [option_map].
  rewrite String.eqb_refl. cbn [set_completed Step.step_order].
  rewrite HSp. f_equal. apply filter_ext_in. intros s Hs.
  destruct (status_eqb (Step.status s) in_progress) eqn:Est; [|reflexivity].
  cbn [andb]. symmetry. apply Z.ltb_lt.
  apply status_eqb_true in Est.
  apply steps_of_In in Hs. destruct Hs as [Hs Hsp].
  rewrite steps_update_completed in Hs. apply in_map_iff in Hs.
  destruct Hs as (s0 & E0 & Hs0). unfold completed_row in E0.
  destruct (Step.id s0 =? Step.id S)%string eqn:Eid;
    [subst s; discriminate Est|]. subst s0.
  assert (Hs1 : In s (filter (fun s => status_eqb (Step.status s) in_progress)
                        (steps_of planId (steps (db c)))))
    by (apply in_progress_of_In; auto).
  specialize (Hmin s Hs1).
  assert (Hne : Step.step_order s <> Step.step_order S).
  { intros E. apply String.eqb_neq in Eid. apply Eid. f_equal.
    apply (NoDup_map_inj Step.step_order (steps_of planId (steps (db c)))).
    - apply Hd.
    - apply steps_of_In; auto.
    - apply steps_of_In; auto.
    - exact E. }
  lia.
Qed.

(** The stores of the demo are reached from a new store. *)
Lemma demo_two_steps_consistent : consistent (db demo_two_steps).
Proof.
  change (db demo_two_steps)
    with (db (serve_all
                [CreatePlan "calm-teal-otter" "Release" "Ship version 2"
                   "2024-01-01T10:00:00.000Z";
                 CreateStep "shy-blue-owl" "calm-teal-otter" "Design" "Review passed" None
                   "2024-01-01T10:00:30.000Z";
                 CreateStep "bold-red-fox" "calm-teal-otter" "Build" "CI is green" None
                   "2024-01-01T10:01:00.000Z"] initializeDatabase)).
  apply (serve_all_invariant consistent Written_consistent);
    [reflexivity | exact new_store_consistent].
Qed.

Lemma completeStep_of_active_then_getActiveStep_witness :
  idle demo_two_steps
  /\ unique_ids (db demo_two_steps)
  /\ orders_distinct (db demo_two_steps)
  /\ exists S n c',
       getActiveStep "calm-teal-otter" demo_two_steps = (Ok (Some S), demo_two_steps)
       /\ Step.id S = "shy-blue-owl"
       /\ completeStep (Step.id S) "Design approved" demo_two_steps = (Ok (Some n), c')
       /\ Step.id n = "bold-red-fox"
       /\ getActiveStep "calm-teal-otter" c' = (Ok (Some n), c').
Proof.
  pose proof (proj1 demo_two_steps_consistent) as U.
  pose proof (proj1 (proj2 demo_two_steps_consistent)) as D.
  split; [reflexivity|]. split; [exact U|]. split; [exact D|].
  do 3 eexists. split; [reflexivity|]. split; [reflexivity|].
  split; [reflexivity|]. split; [reflexivity|].
  exact (completeStep_of_active_then_getActiveStep demo_two_steps "calm-teal-otter"
           "Design approved" _ _ _ eq_refl U D eq_refl eq_refl).
Defined.

Lemma find_step_unique (d : DB) (s : Step.t) :
  NoDup (map Step.id (steps d)) -> In s (steps d) -> find_step (Step.id s) d = Some s.
Proof.
  intros Hu Hs. destruct (find_step (Step.id s) d) as [x|] eqn:E.
  - f_equal. symmetry. exact (unique_step d s x Hu Hs E).
  - exfalso. apply (find_key_none Step.id) with (x := s) in E; [|exact Hs].
    apply E; reflexivity.
Qed.

(** X4: After a [failStep] that resolves, on a store with unique ids where the
    plan has another in-progress step: the plan points at the replacement,
    but [getActiveStep] gives an earlier in-progress step, not the
    replacement, and a [failStep] of the step it gives is rejected as not
    being the active one. *)
Theorem failStep_then_getActiveStep_gives_another_step (c : Conn)
    (newStepId stepId de cc now : string) (r : string * Step.t) (c' : Conn)
    (other : Step.t) :
  idle c ->
  unique_ids (db c) ->
  newStepId <> "" ->
  failStep newStepId stepId de cc now c = (Ok r, c') ->
  In other (steps (db c)) ->
  Step.id other <> stepId ->
  Step.plan_id other = Step.plan_id (snd r) ->
  Step.status other = in_progress ->
  exists a p,
    getActiveStep (Step.plan_id (snd r)) c' = (Ok (Some a), c')
    /\ Step.id a <> Step.id (snd r)
    /\ Step.step_order a < Step.step_order (snd r)
    /\ find_plan (Step.plan_id (snd r)) (db c') = Some p
    /\ Plan.active_step_id p = Some (Step.id (snd r))
    /\ forall id2 de2 cc2 now2,
         failStep id2 (Step.id a) de2 cc2 now2 c'
         = (Err (JsError "Can only fail the current active step"), c').
Proof.
  intros Hc U Hnid Hrun Hother Hoid Hoplan Hostatus.
  assert (W : Written (db c) (db c') /\ idle c').
  { pose proof (serve_written (FailStep newStepId stepId de cc now) c Hc) as H.
    cbn [serve] in H. rewrite Hrun in H. exact H. }
  destruct W as [W Hc'].
  pose proof (Written_unique_ids _ _ W U) as [U' _].
  revert Hrun. rewrite failStep_run by exact Hc.
  destruct (step_with_active stepId (db c)) as [[S act]|] eqn:EA; [|discriminate].
  destruct (negb _); [discriminate|].
  destruct (negb (status_eqb (Step.status S) in_progress)); [discriminate|].
  cbv zeta. destruct (find_step newStepId (failed_db S (db c))) eqn:Efresh; [discriminate|].
  intros [= <- <-]. cbn [fst snd db] in *.
  destruct (step_with_active_inv _ _ _ _ EA) as (p0 & Hp0 & _).
  apply step_with_active_some in EA. destruct EA as [ES HS].
  set (d1 := failed_db S (db c)) in *.
  set (row := new_step newStepId (Step.plan_id S) de cc None now d1) in *.
  change (Step.plan_id row) with (Step.plan_id S) in *.
  change (Step.id row) with newStepId.
  assert (Hsteps : steps (update_active (Step.plan_id S) (or_null (Some newStepId))
                            (with_step row d1)) = steps d1 ++ [row]) by reflexivity.
  (* the other step is still in progress, below the replacement *)
  set (o := failed_row S other).
  assert (Ho : In o (steps_of (Step.plan_id S) (steps d1))).
  { apply steps_of_In. split.
    - unfold d1; rewrite steps_failed_db. apply in_map; exact Hother.
    - unfold o. rewrite (proj2 (failed_row_same S other)). exact Hoplan. }
  assert (Host : Step.status o = in_progress).
  { unfold o. rewrite failed_row_status.
    rewrite <- HS in Hoid. apply String.eqb_neq in Hoid. rewrite Hoid. exact Hostatus. }
  rewrite getActiveStep_run. cbn [db]. rewrite Hsteps.
  destruct (first_by_order _) as [a|] eqn:Ea.
  2:{ exfalso. apply first_by_order_none in Ea.
      assert (I : In o (filter (fun s => status_eqb (Step.status s) in_progress)
                          (steps_of (Step.plan_id S) (steps d1 ++ [row])))).
      { apply in_progress_of_In. apply steps_of_In in Ho. destruct Ho as [Ho1 Ho2].
        repeat split; [apply in_or_app; left; exact Ho1 | exact Ho2 | exact Host]. }
      rewrite Ea in I; exact I. }
  apply first_by_order_least in Ea. destruct Ea as [Ha Hmin].
  assert (Hlow : Step.step_order a < Step.step_order row).
  { assert (I : In o (filter (fun s => status_eqb (Step.status s) in_progress)
                        (steps_of (Step.plan_id S) (steps d1 ++ [row])))).
    { apply in_progress_of_In. apply steps_of_In in Ho. destruct Ho as [Ho1 Ho2].
      repeat split; [apply in_or_app; left; exact Ho1 | exact Ho2 | exact Host]. }
    specialize (Hmin o I).
    pose proof (next_order_above (Step.plan_id S) (steps d1) o Ho) as Habove.
    change (Step.step_order row) with (next_order (Step.plan_id S) (steps d1)). lia. }
  apply in_progress_of_In in Ha. destruct Ha as (Ha1 & Ha2 & Ha3).
  assert (Hold : In a (steps d1)).
  { apply in_app_or in Ha1. destruct Ha1 as [Ha1|[<-|[]]]; [exact Ha1 | lia]. }
  assert (Hida : Step.id a <> newStepId).
  { apply (find_key_none Step.id) with (x := a) in Efresh; [exact Efresh | exact Hold]. }
  assert (Hplan : find_plan (Step.plan_id S)
                    (update_active (Step.plan_id S) (or_null (Some newStepId))
                       (with_step row d1))
                  = Some (Plan.mk (Plan.id p0) (Plan.name p0) (Plan.description p0)
                            (Plan.created_at p0) (Some newStepId))).
  { rewrite find_plan_update_active, or_null_nonempty by exact Hnid.
    change (find_plan (Step.plan_id S) (with_step row d1))
      with (find_plan (Step.plan_id S) (db c)).
    rewrite Hp0; cbn [option_map].
    apply (find_key_some Plan.id) in Hp0. destruct Hp0 as [_ Hp0].
    rewrite Hp0, String.eqb_refl. reflexivity. }
  eexists a, _. split; [reflexivity|]. split; [exact Hida|].
  split; [exact Hlow|]. split; [exact Hplan|]. split; [reflexivity|].
  intros id2 de2 cc2 now2. rewrite failStep_run by exact Hc'. cbn [db].
  unfold step_with_active.
  rewrite (find_step_unique _ a U') by (rewrite Hsteps; exact Ha1).
  rewrite Ha2, Hplan. cbn [Plan.active_step_id option_string_eqb].
  assert (E : (newStepId =? Step.id a)%string = false)
    by (apply String.eqb_neq; intros E; apply Hida; symmetry; exact E).
  rewrite E. reflexivity.
Qed.

Lemma failStep_then_getActiveStep_gives_another_step_witness :
  idle demo_two_steps
  /\ unique_ids (db demo_two_steps)
  /\ exists r a,
       failStep "wise-gold-lynx" "shy-blue-owl" "Redesign" "Second review passed"
         "2024-01-01T10:02:00.000Z" demo_two_steps = (Ok r, demo_failed)
       /\ getActiveStep "calm-teal-otter" demo_failed = (Ok (Some a), demo_failed)
       /\ Step.id (snd r) = "wise-gold-lynx"
       /\ Step.id a = "bold-red-fox".
Proof.
  pose proof (proj1 demo_two_steps_consistent) as U.
  split; [reflexivity|]. split; [exact U|].
  destruct (failStep_then_getActiveStep_gives_another_step demo_two_steps
              "wise-gold-lynx" "shy-blue-owl" "Redesign" "Second review passed"
              "2024-01-01T10:02:00.000Z" _ demo_failed
              (Step.mk "bold-red-fox" "calm-teal-otter" "Build" "CI is green" in_progress 2
                 None "2024-01-01T10:01:00.000Z")
              eq_refl U ltac:(discriminate) eq_refl
              ltac:(right; left; reflexivity) ltac:(discriminate) eq_refl eq_refl)
    as (a & p & H1 & _).
  do 2 eexists. split; [reflexivity|]. split; [exact H1|]. split; [reflexivity|].
  revert H1. intros [= <-]. reflexivity.
Defined.

(* ------------------------------------------------------------------ *)
(** ** listSteps *)

Lemma insert_by_order_perm (s : Step.t) (l : list Step.t) :
  Permutation (insert_by_order s l) (s :: l).
Proof.
  induction l as [|x r IH]; cbn [insert_by_order]; [reflexivity|].
  destruct (_ <? _); [reflexivity|].
  rewrite IH. apply perm_swap.
Qed.

Lemma by_order_acc_perm (l acc : list Step.t) :
  Permutation (fold_left (fun acc s => insert_by_order s acc) l acc) (acc ++ l).
Proof.
  revert acc; induction l as [|s l IH]; intros acc; cbn [fold_left].
  - rewrite app_nil_r; reflexivity.
  - rewrite IH, insert_by_order_perm. apply Permutation_middle.
Qed.

Lemma by_order_perm (l : list Step.t) : Permutation (by_order l) l.
Proof. apply (by_order_acc_perm l []). Qed.

Lemma insert_by_order_sorted (s : Step.t) (l : list Step.t) :
  StronglySorted order_le l -> StronglySorted order_le (insert_by_order s l).
Proof.
  induction 1 as [|x r Hr IH Hx]; cbn [insert_by_order].
  - repeat constructor.
  - destruct (Z.ltb_spec (Step.step_order s) (Step.step_order x)) as [L|L].
    + constructor; [constructor; assumption|].
      constructor; [unfold order_le; lia|].
      eapply Forall_impl; [|exact Hx]. unfold order_le; intros; lia.
    + constructor; [exact IH|].
      rewrite (insert_by_order_perm s r). constructor; [exact L | exact Hx].
Qed.

Lemma by_order_acc_sorted (l acc : list Step.t) :
  StronglySorted order_le acc ->
  StronglySorted order_le (fold_left (fun acc s => insert_by_order s acc) l acc).
Proof.
  revert acc; induction l as [|s l IH]; intros acc H; cbn [fold_left]; [exact H|].
  apply IH, insert_by_order_sorted, H.
Qed.

Lemma by_order_sorted (l : list Step.t) : StronglySorted order_le (by_order l).
Proof. apply by_order_acc_sorted; constructor. Qed.

(** A sorted list of distinct orders is strictly sorted. *)
Lemma sorted_distinct_strict (l : list Step.t) :
  StronglySorted order_le l -> NoDup (map Step.step_order l) ->
  StronglySorted order_lt l.
Proof.
  induction 1 as [|x r Hr IH Hx]; cbn [map]; intros Hnd; constructor.
  - apply IH. inversion Hnd; assumption.
  - inversion Hnd as [|y l' Hy Hl]; subst.
    apply Forall_forall. intros z Hz.
    pose proof (proj1 (Forall_forall _ _) Hx z Hz) as Hle.
    unfold order_le, order_lt in *.
    assert (Step.step_order z <> Step.step_order x); [|lia].
    intros E. apply Hy. rewrite <- E. apply in_map; exact Hz.
Qed.

(** X11: [listSteps] resolves, writes nothing, and gives the steps of the plan,
    each once and no other, in ascending [step_order]; on a store where the
    orders of the plan are distinct the listing is strictly ascending, so no
    two rows could be listed either way round. *)
Theorem listSteps_sorted_steps_of_plan (c : Conn) (planId : string) :
  exists rows,
    listSteps planId c = (Ok rows, c)
    /\ Permutation rows (steps_of planId (steps (db c)))
    /\ (forall s, In s rows <-> In s (steps (db c)) /\ Step.plan_id s = planId)
    /\ StronglySorted order_le rows
    /\ (orders_distinct (db c) -> StronglySorted order_lt rows).
Proof.
  exists (by_order (steps_of planId (steps (db c)))).
  split; [reflexivity|]. split; [apply by_order_perm|]. split; [|split].
  - intros s. rewrite <- steps_of_In. split; apply Permutation_in.
    + apply by_order_perm.
    + symmetry; apply by_order_perm.
  - apply by_order_sorted.
  - intros Hd. apply sorted_distinct_strict; [apply by_order_sorted|].
    eapply Permutation_NoDup; [|apply (Hd planId)].
    apply Permutation_map. symmetry. apply by_order_perm.
Qed.

(** A row ordered after all the others is listed last. *)
Lemma insert_by_order_last (s : Step.t) (l : list Step.t) :
  (forall x, In x l -> Step.step_order x <= Step.step_order s) ->
  insert_by_order s l = l ++ [s].
Proof.
  induction l as [|x r IH]; intros H; cbn [insert_by_order]; [reflexivity|].
  destruct (Z.ltb_spec (Step.step_order s) (Step.step_order x)) as [L|L].
  - specialize (H x (or_introl eq_refl)); lia.
  - cbn [app]. f_equal. apply IH. intros y Hy; apply H; right; exact Hy.
Qed.

Lemma by_order_snoc (l : list Step.t) (s : Step.t) :
  (forall x, In x l -> Step.step_order x <= Step.step_order s) ->
  by_order (l ++ [s]) = by_order l ++ [s].
Proof.
  intros H. unfold by_order. rewrite fold_left_app. cbn [fold_left].
  apply insert_by_order_last. intros x Hx. apply H.
  apply (Permutation_in _ (by_order_perm l)). exact Hx.
Qed.

(** X10: After a [createStep] that resolves, [listSteps] for the plan is what it
    was, with the new step added at the end. *)
Theorem createStep_is_listed_last (c : Conn) (stepId planId de cc : string)
    (cx : option string) (now : string) (s : Step.t) (c' : Conn) :
  idle c ->
  createStep stepId planId de cc cx now c = (Ok s, c') ->
  exists rows,
    listSteps planId c = (Ok rows, c)
    /\ listSteps planId c' = (Ok (rows ++ [s]), c').
Proof.
  intros Hc. rewrite createStep_run by exact Hc.
  destruct (find_step stepId (db c)); [discriminate|].
  cbv zeta. intros [= <- <-].
  exists (by_order (steps_of planId (steps (db c)))). split; [reflexivity|].
  unfold listSteps, query. cbn [db]. rewrite steps_after_createStep.
  unfold with_step; cbn [steps]. rewrite steps_of_snoc.
  change (Step.plan_id (new_step stepId planId de cc cx now (db c))) with planId.
  rewrite String.eqb_refl.
  change (fold_left (fun acc s => insert_by_order s acc) ?l []) with (by_order l).
  rewrite by_order_snoc; [reflexivity|].
  intros x Hx. apply next_order_above in Hx.
  change (Step.step_order (new_step stepId planId de cc cx now (db c)))
    with (next_order planId (steps (db c))). lia.
Qed.

Lemma createStep_is_listed_last_witness :
  idle demo_two_steps
  /\ exists s c',
       createStep "keen-pink-swan" "calm-teal-otter" "Ship" "Tag pushed" None
         "2024-01-01T10:03:00.000Z" demo_two_steps = (Ok s, c')
       /\ exists rows,
            listSteps "calm-teal-otter" demo_two_steps = (Ok rows, demo_two_steps)
            /\ listSteps "calm-teal-otter" c' = (Ok (rows ++ [s]), c').
Proof.
  split; [reflexivity|]. do 2 eexists. split; [reflexivity|].
  exact (createStep_is_listed_last demo_two_steps "keen-pink-swan" "calm-teal-otter"
           "Ship" "Tag pushed" None "2024-01-01T10:03:00.000Z" _ _ eq_refl eq_refl).
Defined.

(** X9: After a [failStep] that resolves, [listSteps] for the plan ends with the
    replacement: it is listed after every other step of the plan, also after
    those that followed the failed step, and not next to the failed step
    unless that was the last one. *)
Theorem failStep_replacement_is_listed_last (c : Conn)
    (newStepId stepId de cc now : string) (r : string * Step.t) (c' : Conn) :
  idle c ->
  failStep newStepId stepId de cc now c = (Ok r, c') ->
  exists rows,
    listSteps (Step.plan_id (snd r)) c' = (Ok (rows ++ [snd r]), c')
    /\ forall s, In s rows -> Step.step_order s < Step.step_order (snd r).
Proof.
  intros Hc. rewrite failStep_run by exact Hc.
  destruct (step_with_active stepId (db c)) as [[S act]|]; [|discriminate].
  destruct (negb _); [discriminate|]. destruct (negb _); [discriminate|].
  cbv zeta. destruct (find_step newStepId (failed_db S (db c))); [discriminate|].
  intros [= <- <-]. cbn [snd db].
  set (d1 := failed_db S (db c)).
  set (row := new_step newStepId (Step.plan_id S) de cc None now d1).
  change (Step.plan_id row) with (Step.plan_id S).
  exists (by_order (steps_of (Step.plan_id S) (steps d1))).
  assert (Habove : forall x, In x (steps_of (Step.plan_id S) (steps d1)) ->
                             Step.step_order x < Step.step_order row).
  { intros x Hx. apply next_order_above in Hx. exact Hx. }
  split.
  - unfold listSteps, query. cbn [db].
    change (steps (update_active (Step.plan_id S) (or_null (Some newStepId))
                     (with_step row d1))) with (steps d1 ++ [row]).
    rewrite steps_of_snoc.
    change (Step.plan_id row) with (Step.plan_id S). rewrite String.eqb_refl.
    change (fold_left (fun acc s => insert_by_order s acc) ?l []) with (by_order l).
    rewrite by_order_snoc; [reflexivity|].
    intros x Hx. specialize (Habove x Hx). lia.
  - intros s Hs. apply Habove. apply (Permutation_in _ (by_order_perm _)). exact Hs.
Qed.

Lemma failStep_replacement_is_listed_last_witness :
  idle demo_two_steps
  /\ exists r rows,
       failStep "wise-gold-lynx" "shy-blue-owl" "Redesign" "Second review passed"
         "2024-01-01T10:02:00.000Z" demo_two_steps = (Ok r, demo_failed)
       /\ listSteps "calm-teal-otter" demo_failed = (Ok (rows ++ [snd r]), demo_failed)
       /\ forall s, In s rows -> Step.step_order s < Step.step_order (snd r).
Proof.
  split; [reflexivity|].
  destruct (failStep_replacement_is_listed_last demo_two_steps "wise-gold-lynx"
              "shy-blue-owl" "Redesign" "Second review passed" "2024-01-01T10:02:00.000Z"
              _ demo_failed eq_refl eq_refl) as (rows & H1 & H2).
  eexists. exists rows. split; [reflexivity|]. split; [exact H1 | exact H2].
Defined.

(* ------------------------------------------------------------------ *)
(** ** listPlans *)

Lemma insert_newest_first_perm (p : Plan.t) (l : list Plan.t) :
  Permutation (insert_newest_first p l) (p :: l).
Proof.
  induction l as [|x r IH]; cbn [insert_newest_first]; [reflexivity|].
  destruct (String.ltb _ _); [reflexivity|].
  rewrite IH. apply perm_swap.
Qed.

Lemma newest_first_acc_perm (l acc : list Plan.t) :
  Permutation (fold_left (fun acc p => insert_newest_first p acc) l acc) (acc ++ l).
Proof.
  revert acc; induction l as [|p l IH]; intros acc; cbn [fold_left].
  - rewrite app_nil_r; reflexivity.
  - rewrite IH, insert_newest_first_perm. apply Permutation_middle.
Qed.

Lemma newest_first_perm (l : list Plan.t) : Permutation (newest_first l) l.
Proof. apply (newest_first_acc_perm l []). Qed.

Lemma newest_first_length (l : list Plan.t) : length (newest_first l) = length l.
Proof. apply Permutation_length, newest_first_perm. Qed.

Lemma string_not_ltb_leb (a b : string) : String.ltb a b = false -> String.leb b a = true.
Proof.
  unfold String.ltb, String.leb. rewrite (String.compare_antisym b a).
  destruct (String.compare a b); cbn; congruence.
Qed.

Lemma string_ltb_leb (a b : string) : String.ltb a b = true -> String.leb a b = true.
Proof.
  unfold String.ltb, String.leb. destruct (String.compare a b); congruence.
Qed.

Lemma string_compare_trans (a : string) :
  forall b c, String.compare a b <> Gt -> String.compare b c <> Gt ->
              String.compare a c <> Gt.
Proof.
  induction a as [|x a IH]; intros [|y b] [|z c]; cbn; try congruence.
  unfold Ascii.compare.
  destruct (N.compare_spec (Ascii.N_of_ascii x) (Ascii.N_of_ascii y)) as [Exy|Exy|Exy],
           (N.compare_spec (Ascii.N_of_ascii y) (Ascii.N_of_ascii z)) as [Eyz|Eyz|Eyz],
           (N.compare_spec (Ascii.N_of_ascii x) (Ascii.N_of_ascii z)) as [Exz|Exz|Exz];
    try congruence; try lia.
  apply IH.
Qed.

Lemma string_leb_trans (a b c : string) :
  String.leb a b = true -> String.leb b c = true -> String.leb a c = true.
Proof.
  unfold String.leb. intros H1 H2.
  pose proof (string_compare_trans a b c) as H.
  destruct (String.compare a b), (String.compare b c), (String.compare a c);
    try congruence; exfalso; apply H; congruence.
Qed.

Lemma insert_newest_first_sorted (p : Plan.t) (l : list Plan.t) :
  StronglySorted newer_or_same l -> StronglySorted newer_or_same (insert_newest_first p l).
Proof.
  induction 1 as [|x r Hr IH Hx]; cbn [insert_newest_first].
  - repeat constructor.
  - destruct (String.ltb (Plan.created_at x) (Plan.created_at p)) eqn:L.
    + apply string_ltb_leb in L.
      constructor; [constructor; assumption|].
      constructor; [exact L|].
      eapply Forall_impl; [|exact Hx]. unfold newer_or_same; intros y Hy.
      exact (string_leb_trans _ _ _ Hy L).
    + apply string_not_ltb_leb in L.
      constructor; [exact IH|].
      rewrite (insert_newest_first_perm p r). constructor; [exact L | exact Hx].
Qed.

Lemma newest_first_sorted (l : list Plan.t) : StronglySorted newer_or_same (newest_first l).
Proof.
  unfold newest_first. generalize (SSorted_nil newer_or_same).
  generalize (@nil Plan.t) as acc. induction l as [|p l IH]; intros acc H; cbn [fold_left].
  - exact H.
  - apply IH, insert_newest_first_sorted, H.
Qed.

Section Pages.
Context {A : Type}.

Lemma firstn_plus (a b : nat) (l : list A) :
  firstn (a + b) l = firstn a l ++ firstn b (skipn a l).
Proof.
  revert l; induction a as [|a IH]; intros l; [reflexivity|].
  destruct l as [|x l]; cbn [Nat.add firstn skipn app].
  - rewrite firstn_nil; reflexivity.
  - rewrite IH; reflexivity.
Qed.

(** Pages of [m] rows, one after the other, are the first rows of the list. *)
Lemma pages_concat (m : nat) (l : list A) (n : nat) :
  concat (map (fun k => firstn m (skipn ((k - 1) * m) l)) (seq 1 n)) = firstn (n * m) l.
Proof.
  induction n as [|n IH]; [reflexivity|].
  rewrite seq_S, map_app, concat_app, IH. cbn [map concat].
  rewrite app_nil_r. replace (1 + n - 1)%nat with n by lia.
  replace (S n * m)%nat with (n * m + m)%nat by lia.
  symmetry; apply firstn_plus.
Qed.

Lemma in_firstn (n : nat) (l : list A) (x : A) : In x (firstn n l) -> In x l.
Proof. intros H. rewrite <- (firstn_skipn n l). apply in_or_app; left; exact H. Qed.

Lemma in_skipn (n : nat) (l : list A) (x : A) : In x (skipn n l) -> In x l.
Proof. intros H. rewrite <- (firstn_skipn n l). apply in_or_app; right; exact H. Qed.

Lemma StronglySorted_skipn (R : A -> A -> Prop) (n : nat) (l : list A) :
  StronglySorted R l -> StronglySorted R (skipn n l).
Proof.
  revert l; induction n as [|n IH]; intros l H; [exact H|].
  destruct l as [|x l]; [constructor|]. cbn [skipn]. apply IH.
  inversion H; assumption.
Qed.

Lemma StronglySorted_firstn (R : A -> A -> Prop) (n : nat) (l : list A) :
  StronglySorted R l -> StronglySorted R (firstn n l).
Proof.
  revert l; induction n as [|n IH]; intros l H; [constructor|].
  destruct l as [|x l]; [constructor|]. cbn [firstn].
  inversion H as [|y r Hr Hx]; subst. constructor; [apply IH; exact Hr|].
  apply Forall_forall. intros z Hz.
  apply (proj1 (Forall_forall _ _) Hx). eapply in_firstn; exact Hz.
Qed.
End Pages.

Lemma listPlans_run (page pageSize : Z) (c : Conn) :
  listPlans page pageSize c
  = (Ok (limit_offset pageSize ((page - 1) * pageSize) (newest_first (plans (db c))),
         Z.of_nat (length (plans (db c)))), c).
Proof. reflexivity. Qed.

(** X12: [listPlans] for a page from 1 on and a page size from 0 on: it resolves
    and writes nothing; the total is the number of plans whatever the page;
    the page holds [pageSize] plans, or what is left after the pages before
    it, or none beyond the last; its rows are stored plans, the newest
    first. *)
Theorem listPlans_page (c : Conn) (page pageSize : Z) :
  1 <= page ->
  0 <= pageSize ->
  exists rows total,
    listPlans page pageSize c = (Ok (rows, total), c)
    /\ total = Z.of_nat (length (plans (db c)))
    /\ Z.of_nat (length rows) = Z.max 0 (Z.min pageSize (total - (page - 1) * pageSize))
    /\ (forall p, In p rows -> In p (plans (db c)))
    /\ StronglySorted newer_or_same rows.
Proof.
  intros Hpage Hsize. rewrite listPlans_run. do 2 eexists. split; [reflexivity|].
  split; [reflexivity|]. unfold limit_offset.
  destruct (Z.ltb_spec pageSize 0) as [L|_]; [lia|]. split; [|split].
  - rewrite length_firstn, length_skipn, newest_first_length. nia.
  - intros p Hp. apply in_firstn, in_skipn in Hp.
    apply (Permutation_in _ (newest_first_perm _)). exact Hp.
  - apply StronglySorted_firstn, StronglySorted_skipn, newest_first_sorted.
Qed.

(** Page 2 of size 2 of three plans holds the oldest plan alone. *)
Lemma listPlans_page_witness :
  1 <= 2 /\ 0 <= 2
  /\ exists rows,
       listPlans 2 2 demo_three_plans = (Ok (rows, 3), demo_three_plans)
       /\ map Plan.id rows = ["calm-teal-otter"]
       /\ Z.of_nat (length rows) = Z.max 0 (Z.min 2 (3 - (2 - 1) * 2)).
Proof.
  split; [lia|]. split; [lia|].
  destruct (listPlans_page demo_three_plans 2 2 ltac:(lia) ltac:(lia))
    as (rows & total & H1 & H2 & H3 & _).
  rewrite listPlans_run in H1. injection H1 as <- <-.
  eexists. split; [reflexivity|]. split; [reflexivity|]. exact H3.
Defined.

Lemma plans_page_run (k : nat) (m : nat) (c : Conn) :
  (1 <= k)%nat ->
  plans_page (Z.of_nat k) (Z.of_nat m) c
  = firstn m (skipn ((k - 1) * m) (newest_first (plans (db c)))).
Proof.
  intros Hk. unfold plans_page. rewrite listPlans_run. cbn [fst].
  unfold limit_offset. destruct (Z.ltb_spec (Z.of_nat m) 0) as [L|_]; [lia|].
  rewrite Nat2Z.id. f_equal. f_equal.
  replace (Z.of_nat k - 1) with (Z.of_nat (k - 1)) by lia.
  rewrite <- Nat2Z.inj_mul. apply Nat2Z.id.
Qed.

(** X13: The pages 1, 2, ..., n of a positive size, one after the other, hold the
    first n * pageSize plans of the listing, each once; when that is at least
    the total, they hold every plan exactly once, the newest first. *)
Theorem listPlans_pages_tile (c : Conn) (pageSize : nat) (n : nat) :
  (0 < pageSize)%nat ->
  (length (plans (db c)) <= n * pageSize)%nat ->
  concat (map (fun k => plans_page (Z.of_nat k) (Z.of_nat pageSize) c) (seq 1 n))
  = plans_page 1 (Z.of_nat (length (plans (db c)))) c
  /\ Permutation
       (concat (map (fun k => plans_page (Z.of_nat k) (Z.of_nat pageSize) c) (seq 1 n)))
       (plans (db c)).
Proof.
  intros Hm Hn.
  assert (E : concat (map (fun k => plans_page (Z.of_nat k) (Z.of_nat pageSize) c)
                        (seq 1 n))
              = newest_first (plans (db c))).
  { erewrite map_ext_in.
    - rewrite pages_concat. apply firstn_all2. rewrite newest_first_length. exact Hn.
    - intros k Hk. apply in_seq in Hk. cbv beta. apply plans_page_run. lia. }
  rewrite E. split; [|apply newest_first_perm].
  rewrite (plans_page_run 1 _ c) by lia. cbn [Nat.sub Nat.mul skipn].
  symmetry. apply firstn_all2. rewrite newest_first_length. lia.
Qed.

Lemma listPlans_pages_tile_witness :
  (0 < 2)%nat
  /\ (length (plans (db demo_three_plans)) <= 2 * 2)%nat
  /\ map Plan.id (plans_page 1 2 demo_three_plans ++ plans_page 2 2 demo_three_plans)
     = ["warm-plum-seal"; "glad-ruby-wren"; "calm-teal-otter"]
  /\ Permutation
       (concat (map (fun k => plans_page (Z.of_nat k) (Z.of_nat 2) demo_three_plans)
                  (seq 1 2)))
       (plans (db demo_three_plans)).
Proof.
  assert (L : (length (plans (db demo_three_plans)) <= 2 * 2)%nat)
    by (apply Nat.leb_le; reflexivity).
  split; [lia|]. split; [exact L|]. split; [reflexivity|].
  exact (proj2 (listPlans_pages_tile demo_three_plans 2 2 ltac:(lia) L)).
Defined.

Lemma totalPages_above (page total : Z) : page < totalPages total <-> 10 * page < total.
Proof.
  unfold totalPages.
  pose proof (Z.div_mod (- total) 10 ltac:(lia)) as E.
  pose proof (Z.mod_pos_bound (- total) 10 ltac:(lia)) as B.
  lia.
Qed.

(** X14: [handleListPlans] on a request whose page is missing or a whole number
    from 0 on: the page asked of [listPlans] is at least 1 (page 0 and no
    page are page 1), and the hint to ask for the next page is given exactly
    when the next page holds a plan. *)
Theorem hasNextPage_iff_next_page_holds_a_plan (c : Conn) (arg : option Z) :
  match arg with Some p => 0 <= p | None => True end ->
  let page := page_or_first arg in
  exists rows total,
    listPlans page 10 c = (Ok (rows, total), c)
    /\ 1 <= page
    /\ (hasNextPage page total = true <-> plans_page (page + 1) 10 c <> [])
    /\ (total = 0 <-> plans (db c) = []).
Proof.
  intros Harg page.
  assert (Hpage : 1 <= page).
  { unfold page, page_or_first. destruct arg as [[|p|p]|]; lia. }
  rewrite listPlans_run. do 2 eexists. split; [reflexivity|]. split; [exact Hpage|].
  split.
  - unfold hasNextPage. rewrite Z.ltb_lt, totalPages_above.
    replace (page + 1) with (Z.of_nat (Z.to_nat (page + 1))) by lia.
    rewrite (plans_page_run _ 10 c) by lia.
    rewrite <- length_zero_iff_nil, length_firstn, length_skipn, newest_first_length.
    lia.
  - destruct (plans (db c)); cbn [length]; split; intros H;
      try reflexivity; try discriminate; lia.
Qed.

Lemma hasNextPage_iff_next_page_holds_a_plan_witness :
  0 <= 0
  /\ exists rows,
       listPlans (page_or_first (Some 0)) 10 demo_three_plans
       = (Ok (rows, 3), demo_three_plans)
       /\ hasNextPage (page_or_first (Some 0)) 3 = false
       /\ plans_page (page_or_first (Some 0) + 1) 10 demo_three_plans = [].
Proof.
  split; [lia|].
  destruct (hasNextPage_iff_next_page_holds_a_plan demo_three_plans (Some 0)
              (Z.le_refl 0))
    as (rows & total & H1 & _).
  rewrite listPlans_run in H1. injection H1 as <- <-.
  eexists. split; [reflexivity|]. split; reflexivity.
Defined.

(* ------------------------------------------------------------------ *)
(** ** formatDate *)

Lemma append_nil_r' (s : string) : (s ++ "")%string = s.
Proof. induction s as [|a s IH]; cbn; [reflexivity | rewrite IH; reflexivity]. Qed.

Lemma div_between (a b q : Z) : 0 < b -> b * q <= a < b * (q + 1) -> a / b = q.
Proof.
  intros Hb H. symmetry. apply (Z.div_unique a b q (a - b * q)); lia.
Qed.

Lemma plural_s_many (n : Z) : 2 <= n -> (n =? 0) = false /\ plural_s n = "s".
Proof.
  intros H. unfold plural_s. split; [apply Z.eqb_neq; lia|].
  destruct (Z.eqb_spec n 1); [lia | reflexivity].
Qed.

(** X22: [formatDate] by the distance between the date and the clock, in
    milliseconds, whichever of the two is the later: under a minute, "just
    now"; then whole minutes up to the hour and whole hours up to 24 hours,
    "1 minute" and "1 hour" in the singular; from 24 to 48 hours,
    "yesterday", whatever the calendar day; then whole days, always in the
    plural, up to 7 days; from then on the date's month and day, with the
    year when it is not the clock's. *)
Theorem formatDate_by_distance (date now : JsDate) :
  let d := distance date now in
  (d < 60000 -> formatDate date now = "just now")
  /\ (60000 <= d < 120000 -> formatDate date now = "1 minute ago")
  /\ (120000 <= d < 3600000 ->
      formatDate date now = (string_of_Z (d / 60000) ++ " minutes ago")%string)
  /\ (3600000 <= d < 7200000 -> formatDate date now = "1 hour ago")
  /\ (7200000 <= d < 86400000 ->
      formatDate date now = (string_of_Z (d / 3600000) ++ " hours ago")%string)
  /\ (86400000 <= d < 172800000 -> formatDate date now = "yesterday")
  /\ (172800000 <= d < 604800000 ->
      formatDate date now = (string_of_Z (d / 86400000) ++ " days ago")%string)
  /\ (604800000 <= d ->
      formatDate date now
      = (nth (Z.to_nat (getMonth date)) months "undefined" ++ " "
         ++ string_of_Z (getDate date) ++ getDaySuffix (getDate date)
         ++ (if (getFullYear date =? getFullYear now)%Z then ""
             else ", " ++ string_of_Z (getFullYear date)))%string).
Proof.
  cbv zeta. unfold formatDate, distance. cbv zeta.
  change (1000 * 60 * 60 * 24) with 86400000.
  change (1000 * 60 * 60) with 3600000.
  change (1000 * 60) with 60000.
  set (d := Z.abs (getTime now - getTime date)).
  assert (Hd : 0 <= d) by apply Z.abs_nonneg.
  repeat split; intros H.
  - rewrite !Z.div_small by lia. reflexivity.
  - rewrite (Z.div_small d 86400000), (Z.div_small d 3600000) by lia.
    rewrite (div_between d 60000 1) by lia. reflexivity.
  - rewrite (Z.div_small d 86400000), (Z.div_small d 3600000) by lia.
    destruct (plural_s_many (d / 60000)) as [-> ->];
      [apply Z.div_le_lower_bound; lia | reflexivity].
  - rewrite (Z.div_small d 86400000) by lia.
    rewrite (div_between d 3600000 1) by lia. reflexivity.
  - rewrite (Z.div_small d 86400000) by lia.
    destruct (plural_s_many (d / 3600000)) as [-> ->];
      [apply Z.div_le_lower_bound; lia | reflexivity].
  - rewrite (div_between d 86400000 1) by lia. reflexivity.
  - assert (L : 2 <= d / 86400000) by (apply Z.div_le_lower_bound; lia).
    assert (U : d / 86400000 < 7) by (apply Z.div_lt_upper_bound; lia).
    destruct (plural_s_many _ L) as [-> ->].
    destruct (Z.eqb_spec (d / 86400000) 1); [lia|].
    destruct (Z.ltb_spec (d / 86400000) 7); [reflexivity | lia].
  - assert (L : 7 <= d / 86400000) by (apply Z.div_le_lower_bound; lia).
    destruct (Z.eqb_spec (d / 86400000) 0); [lia|].
    destruct (Z.eqb_spec (d / 86400000) 1); [lia|].
    destruct (Z.ltb_spec (d / 86400000) 7); [lia|].
    destruct (getFullYear date =? getFullYear now); [|reflexivity].
    rewrite append_nil_r'. reflexivity.
Qed.

(** X23: Within 7 days [formatDate] reads the distance and nothing else: two
    pairs of dates at the same distance read the same, so a time ahead of the
    clock reads as the same time "ago", as if date and clock were swapped. *)
Theorem formatDate_within_a_week_reads_the_distance (date now date' now' : JsDate) :
  distance date now = distance date' now' ->
  distance date now < 604800000 ->
  formatDate date now = formatDate date' now'
  /\ formatDate date now = formatDate now date.
Proof.
  assert (G : forall a b a' b', distance a b = distance a' b' ->
                                distance a b < 604800000 ->
                                formatDate a b = formatDate a' b').
  { intros a b a' b' E H. unfold formatDate, distance in *. cbv zeta.
    change (1000 * 60 * 60 * 24) with 86400000.
    rewrite <- E.
    set (d := Z.abs (getTime b - getTime a)) in *.
    assert (U : d / 86400000 < 7) by (apply Z.div_lt_upper_bound; lia).
    destruct (d / 86400000 =? 0); [reflexivity|].
    destruct (d / 86400000 =? 1); [reflexivity|].
    destruct (Z.ltb_spec (d / 86400000) 7); [reflexivity | lia]. }
  intros E H. split; [exact (G _ _ _ _ E H)|].
  apply G; [|exact H]. unfold distance. lia.
Qed.

(** A date two hours before the clock and a date two hours after it. *)
Lemma formatDate_within_a_week_reads_the_distance_witness :
  distance (mkJsDate 1704103200000 2024 0 1) (mkJsDate 1704110400000 2024 0 1)
  = distance (mkJsDate 1704117600000 2024 0 1) (mkJsDate 1704110400000 2024 0 1)
  /\ distance (mkJsDate 1704103200000 2024 0 1) (mkJsDate 1704110400000 2024 0 1)
     < 604800000
  /\ formatDate (mkJsDate 1704117600000 2024 0 1) (mkJsDate 1704110400000 2024 0 1)
     = "2 hours ago".
Proof.
  split; [reflexivity|]. split; [reflexivity|].
  rewrite <- (proj1 (formatDate_within_a_week_reads_the_distance
                       (mkJsDate 1704103200000 2024 0 1) (mkJsDate 1704110400000 2024 0 1)
                       (mkJsDate 1704117600000 2024 0 1) (mkJsDate 1704110400000 2024 0 1)
                       eq_refl eq_refl)).
  reflexivity.
Defined.

(** X24: [getDaySuffix] on the days of a month: "st" for 1, 21 and 31, "nd" for 2
    and 22, "rd" for 3 and 23, and "th" for the others, 11, 12 and 13
    among them. *)
Theorem getDaySuffix_days_of_month (day : Z) :
  1 <= day <= 31 ->
  getDaySuffix day
  = if ((day =? 1) || (day =? 21) || (day =? 31))%bool then "st"
    else if ((day =? 2) || (day =? 22))%bool then "nd"
    else if ((day =? 3) || (day =? 23))%bool then "rd"
    else "th".
Proof.
  intros H.
  assert (C : In day (map Z.of_nat (seq 1 31))).
  { apply in_map_iff. exists (Z.to_nat day). split; [lia|]. apply in_seq. lia. }
  cbn in C.
  repeat (destruct C as [<-|C]; [reflexivity|]). destruct C.
Qed.

Lemma getDaySuffix_days_of_month_witness :
  1 <= 22 <= 31 /\ getDaySuffix 22 = "nd" /\ getDaySuffix 12 = "th".
Proof.
  split; [lia|]. split.
  - exact (getDaySuffix_days_of_month 22 ltac:(lia)).
  - exact (getDaySuffix_days_of_month 12 ltac:(lia)).
Defined.

(* ------------------------------------------------------------------ *)
(** ** What the handlers print *)

(** X21: [handleGetActiveStep] never prints a completion context: the step that
    [getActiveStep] resolves with is in progress, and the context is printed
    for a completed step only.  The text is the three lines of the step, or
    the notice that there is none. *)
Theorem active_step_text_has_no_context (c : Conn) (planId : string) :
  exists r,
    getActiveStep planId c = (Ok r, c)
    /\ active_step_text r
       = match r with
         | Some step =>
             ("Active step ID: " ++ Step.id step ++ nl
              ++ "Description: " ++ Step.description step ++ nl
              ++ "Completion condition: " ++ Step.completion_condition step)%string
         | None => "No active step found"
         end.
Proof.
  rewrite getActiveStep_run. eexists. split; [reflexivity|].
  destruct (first_by_order _) as [s|] eqn:E; [|reflexivity].
  apply first_by_order_least in E. destruct E as [E _].
  apply in_progress_of_In in E. destruct E as (_ & _ & Hst).
  unfold active_step_text. rewrite Hst. cbn [status_eqb].
  rewrite andb_false_r, append_nil_r'. reflexivity.
Qed.

Lemma export_step_status_in_progress (plan : Plan.t) (s : Step.t) :
  export_step_status plan s = "In Progress"
  <-> Step.status s = in_progress /\ Plan.active_step_id plan = Some (Step.id s).
Proof.
  unfold export_step_status. rewrite <- option_string_eqb_true.
  destruct (Step.status s); [|split; [discriminate | intros [H _]; discriminate]..].
  destruct (option_string_eqb _ _); split; try discriminate; auto.
  intros [_ H]; discriminate.
Qed.

(** X19: [handleExportPlan] on a store with unique ids whose pointers name
    in-progress steps of their plan: of the steps listed for the plan at most
    one is printed as "In Progress"; when the plan's [active_step_id] is not
    null, the step it names is listed and printed so; when it is null, no
    step is. *)
Theorem export_prints_one_step_in_progress (c : Conn) (planId : string)
    (plan : Plan.t) (rows : list Step.t) :
  unique_ids (db c) ->
  pointers_in_progress (db c) ->
  getPlan planId c = (Ok (Some plan), c) ->
  listSteps planId c = (Ok rows, c) ->
  (forall s1 s2, In s1 rows -> In s2 rows ->
                 export_step_status plan s1 = "In Progress" ->
                 export_step_status plan s2 = "In Progress" -> s1 = s2)
  /\ (forall a, Plan.active_step_id plan = Some a ->
                exists s, In s rows /\ Step.id s = a
                          /\ export_step_status plan s = "In Progress")
  /\ (Plan.active_step_id plan = None ->
      forall s, In s rows -> export_step_status plan s <> "In Progress").
Proof.
  intros [Hu _] Hptr Hplan Hrows.
  unfold getPlan, query in Hplan. injection Hplan as Hplan.
  apply (find_key_some Plan.id) in Hplan. destruct Hplan as [Hin Hid].
  unfold listSteps, query in Hrows. injection Hrows as <-.
  change (fold_left (fun acc s => insert_by_order s acc)
            (steps_of planId (steps (db c))) [])
    with (by_order (steps_of planId (steps (db c)))).
  assert (Hmem : forall s, In s (by_order (steps_of planId (steps (db c))))
                           <-> In s (steps (db c)) /\ Step.plan_id s = planId).
  { intros s. rewrite <- steps_of_In. split; apply Permutation_in.
    - apply by_order_perm.
    - symmetry; apply by_order_perm. }
  split; [|split].
  - intros s1 s2 H1 H2 L1 L2.
    apply export_step_status_in_progress in L1, L2.
    destruct L1 as [_ L1], L2 as [_ L2].
    apply Hmem in H1, H2.
    apply (NoDup_map_inj Step.id (steps (db c))); [exact Hu | tauto | tauto |].
    congruence.
  - intros a Ha. destruct (Hptr plan Hin a Ha) as (s & Hs & Hsid & Hsp & Hst).
    exists s. split; [apply Hmem; split; congruence|]. split; [exact Hsid|].
    apply export_step_status_in_progress. split; [exact Hst | congruence].
  - intros Hnone s _ L. apply export_step_status_in_progress in L.
    destruct L as [_ L]. congruence.
Qed.

Lemma demo_failed_consistent : consistent (db demo_failed).
Proof.
  change (db demo_failed)
    with (db (serve_all
                [FailStep "wise-gold-lynx" "shy-blue-owl" "Redesign" "Second review passed"
                   "2024-01-01T10:02:00.000Z"] demo_two_steps)).
  apply (serve_all_invariant consistent Written_consistent);
    [reflexivity | exact demo_two_steps_consistent].
Qed.

(** After the failure in the demo only the replacement is "In Progress". *)
Lemma export_prints_one_step_in_progress_witness :
  unique_ids (db demo_failed)
  /\ pointers_in_progress (db demo_failed)
  /\ exists plan rows,
       getPlan "calm-teal-otter" demo_failed = (Ok (Some plan), demo_failed)
       /\ listSteps "calm-teal-otter" demo_failed = (Ok rows, demo_failed)
       /\ map (export_step_status plan) rows = ["Failed"; "Not Started"; "In Progress"]
       /\ exists s, In s rows /\ Step.id s = "wise-gold-lynx"
                    /\ export_step_status plan s = "In Progress".
Proof.
  pose proof demo_failed_consistent as (U & _ & P).
  split; [exact U|]. split; [exact P|].
  do 2 eexists. split; [reflexivity|]. split; [reflexivity|]. split; [reflexivity|].
  exact (proj1 (proj2 (export_prints_one_step_in_progress demo_failed "calm-teal-otter"
                         _ _ U P eq_refl eq_refl)) "wise-gold-lynx" eq_refl).
Defined.

(** X20: [handleExportPlan] prints the plan as "Completed" exactly when the plan
    has a step and every step of the plan is completed; so a plan with a
    failed step is printed as "In Progress", however many of its other steps
    are completed, and so is a plan without steps. *)
Theorem export_plan_status_completed_iff (c : Conn) (planId : string)
    (rows : list Step.t) :
  listSteps planId c = (Ok rows, c) ->
  (export_plan_status rows = "Completed"
   <-> (exists s, In s (steps (db c)) /\ Step.plan_id s = planId)
       /\ forall s, In s (steps (db c)) -> Step.plan_id s = planId ->
                    Step.status s = completed)
  /\ (forall s, In s (steps (db c)) -> Step.plan_id s = planId ->
                Step.status s = failed -> export_plan_status rows = "In Progress")
  /\ (steps_of planId (steps (db c)) = [] -> export_plan_status rows = "In Progress").
Proof.
  unfold listSteps, query. intros [= <-].
  change (fold_left (fun acc s => insert_by_order s acc)
            (steps_of planId (steps (db c))) [])
    with (by_order (steps_of planId (steps (db c)))).
  set (rows := by_order (steps_of planId (steps (db c)))).
  assert (Hmem : forall s, In s rows <-> In s (steps (db c)) /\ Step.plan_id s = planId).
  { intros s. rewrite <- steps_of_In. split; apply Permutation_in.
    - apply by_order_perm.
    - symmetry; apply by_order_perm. }
  assert (Hiff : export_plan_status rows = "Completed"
                 <-> (exists s, In s rows)
                     /\ forall s, In s rows -> Step.status s = completed).
  { unfold export_plan_status.
    destruct (forallb _ rows) eqn:F.
    - rewrite forallb_forall in F. rewrite andb_true_r.
      destruct rows as [|x r]; cbn.
      + split; [discriminate | intros [[s []] _]].
      + split; [|reflexivity]. intros _. split; [exists x; left; reflexivity|].
        intros s Hs. apply status_eqb_true, F. exact Hs.
    - rewrite andb_false_r. split; [discriminate|]. intros [_ H]. exfalso.
      assert (G : forallb (fun step => status_eqb (Step.status step) completed) rows = true)
        by (apply forallb_forall; intros s Hs; apply status_eqb_true, H; exact Hs).
      congruence. }
  assert (Hnot : export_plan_status rows <> "Completed" ->
                 export_plan_status rows = "In Progress").
  { unfold export_plan_status. destruct (_ && _)%bool; [intros H; contradiction H|];
      reflexivity. }
  split; [|split].
  - rewrite Hiff. split; intros [[s Hs] Hall].
    + split; [exists s; apply Hmem; exact Hs|].
      intros s' H1 H2. apply Hall, Hmem. auto.
    + split; [exists s; apply Hmem; exact Hs|].
      intros s' H'. apply Hmem in H'. apply Hall; tauto.
  - intros s H1 H2 H3. apply Hnot. intros E. apply Hiff in E. destruct E as [_ E].
    rewrite (E s) in H3 by (apply Hmem; auto). discriminate.
  - intros E. apply Hnot. intros E'. apply Hiff in E'. destruct E' as [[s Hs] _].
    apply Hmem, steps_of_In in Hs. rewrite E in Hs. exact Hs.
Qed.

(** The demo after the failure, with its second step then completed: one
    step failed, one completed, the replacement pending. *)
Lemma export_plan_status_completed_iff_witness :
  exists rows,
    listSteps "calm-teal-otter" demo_failed = (Ok rows, demo_failed)
    /\ export_plan_status rows = "In Progress".
Proof.
  eexists. split; [reflexivity|].
  refine (proj1 (proj2 (export_plan_status_completed_iff demo_failed "calm-teal-otter" _
                          eq_refl))
            (Step.mk "shy-blue-owl" "calm-teal-otter" "Design" "Review passed" failed 1
               None "2024-01-01T10:00:30.000Z") _ eq_refl eq_refl).
  left; reflexivity.
Defined.

(* ------------------------------------------------------------------ *)
(** ** Transactions *)

(** X7: A transactional method called while a transaction is open on the
    connection: its BEGIN is refused, its [catch] rolls back, and what is
    rolled back is the transaction that was open.  The call rejects with the
    driver's error and the tables are back at what they were when the open
    transaction began. *)
Theorem call_inside_transaction_rolls_it_back (c : Conn) (saved : DB) :
  txn c = Some saved ->
  (forall sid pid de cc cx now,
      createStep sid pid de cc cx now c
      = (Err (SqliteError "SQLITE_ERROR"), mkConn saved None))
  /\ (forall sid ctx,
      completeStep sid ctx c = (Err (SqliteError "SQLITE_ERROR"), mkConn saved None))
  /\ (forall nid sid de cc now,
      failStep nid sid de cc now c
      = (Err (SqliteError "SQLITE_ERROR"), mkConn saved None)).
Proof.
  destruct c as [d t]; cbn [txn]; intros ->. split; [|split]; intros.
  - unfold createStep; run_method. reflexivity.
  - unfold completeStep; run_method. reflexivity.
  - unfold failStep; run_method. reflexivity.
Qed.

(** The demo with its two steps written inside a transaction that began
    when the plan had none: a [completeStep] then loses both steps. *)
Lemma call_inside_transaction_rolls_it_back_witness :
  txn (mkConn (db demo_two_steps) (Some (db demo_plan))) = Some (db demo_plan)
  /\ completeStep "shy-blue-owl" "Design approved"
       (mkConn (db demo_two_steps) (Some (db demo_plan)))
     = (Err (SqliteError "SQLITE_ERROR"), demo_plan).
Proof.
  split; [reflexivity|].
  exact (proj1 (proj2 (call_inside_transaction_rolls_it_back
                         (mkConn (db demo_two_steps) (Some (db demo_plan)))
                         (db demo_plan) eq_refl)) "shy-blue-owl" "Design approved").
Defined.

Lemma methods_keep_idle_witness :
  idle demo_two_steps
  /\ idle (snd (failStep "wise-gold-lynx" "bold-red-fox" "Rebuild" "CI is green again"
                  "2024-01-01T10:02:00.000Z" demo_two_steps))
  /\ idle (snd (completeStep "shy-blue-owl" "Design approved" demo_two_steps)).
Proof.
  split; [reflexivity|]. split.
  - apply (proj2 (proj2 (proj2 (methods_keep_idle demo_two_steps eq_refl)))).
  - apply (proj1 (proj2 (proj2 (methods_keep_idle demo_two_steps eq_refl)))).
Defined.

Lemma failStep_effect_witness :
  idle demo_two_steps
  /\ "wise-gold-lynx" <> ""
  /\ exists r,
       failStep "wise-gold-lynx" "shy-blue-owl" "Redesign" "Second review passed"
         "2024-01-01T10:02:00.000Z" demo_two_steps = (Ok r, demo_failed)
       /\ map (fun s => (Step.id s, Step.status s, Step.step_order s))
            (steps (db demo_two_steps))
          = [("shy-blue-owl", in_progress, 1); ("bold-red-fox", in_progress, 2)]
       /\ map (fun s => (Step.id s, Step.status s, Step.step_order s))
            (steps (db demo_failed))
          = [("shy-blue-owl", failed, 1); ("bold-red-fox", in_progress, 3);
             ("wise-gold-lynx", in_progress, 4)]
       /\ (exists F, find_step "shy-blue-owl" (db demo_failed) = Some F
                     /\ Step.status F = failed)
       /\ Step.status (snd r) = in_progress.
Proof.
  split; [reflexivity|]. split; [discriminate|].
  destruct (failStep_effect demo_two_steps "wise-gold-lynx" "shy-blue-owl" "Redesign"
              "Second review passed" "2024-01-01T10:02:00.000Z" _ demo_failed
              eq_refl ltac:(discriminate) eq_refl)
    as (S & _ & _ & _ & _ & _ & (F & H1 & _ & H2 & _) & _ & _ & _ & H8 & _).
  eexists. split; [reflexivity|]. split; [reflexivity|]. split; [reflexivity|].
  split; [exists F; split; [exact H1 | exact H2] | exact H8].
Defined.

Lemma demo_two_steps_have_plans : steps_have_plans (db demo_two_steps).
Proof. intros s [<-|[<-|[]]]; discriminate. Qed.

Lemma methods_keep_steps_have_plans_witness :
  idle demo_two_steps
  /\ steps_have_plans (db demo_two_steps)
  /\ find_plan "calm-teal-otter" (db demo_two_steps) <> None
  /\ steps_have_plans
       (db (snd (createStep "keen-pink-swan" "calm-teal-otter" "Ship" "Tag pushed" None
                   "2024-01-01T10:03:00.000Z" demo_two_steps)))
  /\ steps_have_plans (db demo_failed).
Proof.
  split; [reflexivity|]. split; [exact demo_two_steps_have_plans|].
  split; [discriminate|]. split.
  - apply (proj1 (proj2 (methods_keep_steps_have_plans demo_two_steps eq_refl
                           demo_two_steps_have_plans))).
    discriminate.
  - exact (proj2 (proj2 (proj2 (methods_keep_steps_have_plans demo_two_steps eq_refl
                                  demo_two_steps_have_plans)))
             "wise-gold-lynx" "shy-blue-owl" "Redesign" "Second review passed"
             "2024-01-01T10:02:00.000Z").
Defined.

(* ------------------------------------------------------------------ *)
(** ** What was created is found again *)

Lemma Forall2_In_l {A : Type} (R : A -> A -> Prop) (l l' : list A) (x : A) :
  Forall2 R l l' -> In x l -> exists y, In y l' /\ R x y.
Proof.
  induction 1 as [|a b l l' Hab H IH]; intros Hx; [destruct Hx|].
  destruct Hx as [<-|Hx].
  - exists b; split; [left; reflexivity | exact Hab].
  - destruct (IH Hx) as (y & Hy & Hxy). exists y; split; [right; exact Hy | exact Hxy].
Qed.

Lemma find_plan_kept (planId : string) (d d' : DB) (p : Plan.t) :
  extends same_plan_data (plans d) (plans d') ->
  find_plan planId d = Some p ->
  exists p', find_plan planId d' = Some p' /\ same_plan_data p p'.
Proof.
  unfold find_plan. intros (kept & added & -> & H).
  induction H as [|a b l l' Hab H IH]; cbn [find app]; [discriminate|].
  destruct Hab as (Hid & Hrest). rewrite Hid.
  destruct (Plan.id a =? planId)%string.
  - intros [= <-]. exists b; split; [reflexivity|]. split; [exact Hid | exact Hrest].
  - exact IH.
Qed.

(** X15: [createPlan] rejects exactly when the drawn id is taken, and then writes
    nothing.  When it resolves, the plan has the given texts and no active
    step, [getPlan] gives it back at once, and after any further sequence of
    calls [getPlan] still gives a plan with the same id, name, description
    and creation time. *)
Theorem createPlan_then_getPlan (c : Conn) (id name de now : string) :
  idle c ->
  (find_plan id (db c) <> None ->
   createPlan id name de now c = (Err (SqliteError "SQLITE_CONSTRAINT"), c))
  /\ (find_plan id (db c) = None ->
      exists c1,
        createPlan id name de now c = (Ok (Plan.mk id name de now None), c1)
        /\ getPlan id c1 = (Ok (Some (Plan.mk id name de now None)), c1)
        /\ forall rs, exists p',
             getPlan id (serve_all rs c1) = (Ok (Some p'), serve_all rs c1)
             /\ same_plan_data (Plan.mk id name de now None) p').
Proof.
  intros Hc. rewrite createPlan_run. split.
  - destruct (find_plan id (db c)); [reflexivity | intros H; contradiction H; reflexivity].
  - intros Hnone. rewrite Hnone. cbv zeta. eexists. split; [reflexivity|].
    set (c1 := mkConn _ (txn c)).
    assert (F : find_plan id (db c1) = Some (Plan.mk id name de now None)).
    { unfold c1, find_plan, with_plan; cbn [db plans].
      rewrite find_key_app.
      change (find (fun x => (Plan.id x =? id)%string) (plans (db c)))
        with (find_plan id (db c)).
      rewrite Hnone. cbn. rewrite String.eqb_refl. reflexivity. }
    split; [unfold getPlan, query; rewrite F; reflexivity|].
    intros rs.
    destruct (rows_kept_along rs c1 Hc) as [_ K].
    destruct (find_plan_kept id _ _ _ K F) as (p' & F' & S').
    exists p'. split; [unfold getPlan, query; rewrite F'; reflexivity | exact S'].
Qed.

Lemma createPlan_then_getPlan_witness :
  idle initializeDatabase
  /\ find_plan "calm-teal-otter" (db initializeDatabase) = None
  /\ exists p',
       getPlan "calm-teal-otter" (serve_all (tl demo_requests) demo_plan)
       = (Ok (Some p'), serve_all (tl demo_requests) demo_plan)
       /\ Plan.name p' = "Release"
       /\ Plan.active_step_id p' = Some "wise-gold-lynx".
Proof.
  split; [reflexivity|]. split; [reflexivity|].
  destruct (proj2 (createPlan_then_getPlan initializeDatabase "calm-teal-otter" "Release"
                     "Ship version 2" "2024-01-01T10:00:00.000Z" eq_refl) eq_refl)
    as (c1 & H1 & _ & H3).
  injection H1 as <-.
  destruct (H3 (tl demo_requests)) as (p' & Hp & _).
  exists p'. split; [exact Hp|].
  revert Hp. intros [= <-]. split; reflexivity.
Defined.

(** X16: A [createStep] that resolves gives an in-progress step with the drawn
    id, the plan, the texts and the context of the call; and after any
    further sequence of calls [listSteps] for the plan still lists a step
    with that id, plan, texts and creation time, at an order that has not
    gone down. *)
Theorem created_step_stays_listed (c : Conn) (stepId planId de cc : string)
    (cx : option string) (now : string) (s : Step.t) (c1 : Conn) :
  idle c ->
  createStep stepId planId de cc cx now c = (Ok s, c1) ->
  (Step.id s = stepId /\ Step.plan_id s = planId /\ Step.description s = de
   /\ Step.completion_condition s = cc /\ Step.status s = in_progress
   /\ Step.completion_context s = cx /\ Step.created_at s = now)
  /\ forall rs, exists rows s',
       listSteps planId (serve_all rs c1) = (Ok rows, serve_all rs c1)
       /\ In s' rows /\ same_step s s'.
Proof.
  intros Hc. rewrite createStep_run by exact Hc.
  destruct (find_step stepId (db c)); [discriminate|].
  cbv zeta. intros [= <- <-]. split; [repeat split|].
  set (row := new_step stepId planId de cc cx now (db c)).
  set (c1 := mkConn _ None).
  assert (Hin : In row (steps (db c1))).
  { unfold c1; cbn [db]. rewrite steps_after_createStep.
    unfold with_step; cbn [steps]. apply in_or_app; right; left; reflexivity. }
  intros rs.
  destruct (rows_kept_along rs c1 eq_refl) as [(kept & added & E & K) _].
  destruct (Forall2_In_l _ _ _ _ K Hin) as (s' & Hs' & Hsame).
  exists (by_order (steps_of planId (steps (db (serve_all rs c1))))), s'.
  split; [reflexivity|]. split; [|exact Hsame].
  apply (Permutation_in _ (Permutation_sym (by_order_perm _))).
  apply steps_of_In. split.
  - rewrite E. apply in_or_app; left; exact Hs'.
  - destruct Hsame as (_ & Hp & _). rewrite Hp. reflexivity.
Qed.

Lemma created_step_stays_listed_witness :
  idle demo_plan
  /\ exists s c1,
       createStep "shy-blue-owl" "calm-teal-otter" "Design" "Review passed" None
         "2024-01-01T10:00:30.000Z" demo_plan = (Ok s, c1)
       /\ exists rows s',
            listSteps "calm-teal-otter" (serve_all (skipn 2 demo_requests) c1)
            = (Ok rows, serve_all (skipn 2 demo_requests) c1)
            /\ In s' rows /\ same_step s s'.
Proof.
  split; [reflexivity|]. do 2 eexists. split; [reflexivity|].
  exact (proj2 (created_step_stays_listed demo_plan "shy-blue-owl" "calm-teal-otter"
                  "Design" "Review passed" None "2024-01-01T10:00:30.000Z" _ _
                  eq_refl eq_refl) (skipn 2 demo_requests)).
Defined.
